(** * RayAdwaita: the VLESS link decoder and the configuration builder

    A shallow embedding of [src/core/url_parser.py] ([V2rayParser]) and of
    [src/core/config.py] ([InboundConfig], [ClientConfig]) together with the
    parts of the Python runtime they call: [str] methods, [int()],
    [urllib.parse.unquote], [urllib.parse.parse_qsl], the [dataclass]
    field check and the [json] encoder and decoder. *)

From Stdlib Require Import ZArith NArith List String Ascii Bool Lia.
From stdpp Require Import base option list gmap.
Import ListNotations.

Local Open Scope N_scope.

(** ** Python values *)

(** A Python [str] is a sequence of code points. *)
Abbreviation ustring := (list N).

(** [ord "c"]: the code point of an ASCII character; [u "..."]: the [str]
    written by a literal. *)
Definition ord (a : ascii) : N := N_of_ascii a.
Arguments ord a%_char.

Definition u (s : string) : ustring := map N_of_ascii (list_ascii_of_string s).
Arguments u s%_string.

#[local] Set Warnings "-register-all".

(** The objects the two modules build: [None], booleans, integers, strings,
    lists and insertion-ordered dictionaries with string keys. *)
Inductive value : Type :=
| VNone
| VBool (b : bool)
| VInt (z : Z)
| VStr (s : ustring)
| VList (l : list value)
| VDict (d : list (ustring * value)).

(** Exceptions, by class. [JSONDecodeError] is a subclass of [ValueError] in
    Python; it is kept apart here so that the raising site stays visible. *)
Inductive exn : Type :=
| ValueError (msg : string)
| KeyError (key : ustring)
| AttributeError
| TypeError
| UnboundLocalError
| FileNotFoundError
| JSONDecodeError.

Inductive result (A : Type) : Type :=
| Ok (a : A)
| Raise (e : exn).
Arguments Ok {A} a.
Arguments Raise {A} e.

Definition rbind {A B} (r : result A) (k : A -> result B) : result B :=
  match r with
  | Ok a => k a
  | Raise e => Raise e
  end.

Notation "'let*' x ':=' r 'in' k" := (rbind r (fun x => k))
  (at level 10, x pattern, r at level 100, k at level 200).

Definition is_ValueError {A} (r : result A) : Prop :=
  match r with
  | Raise (ValueError _) => True
  | _ => False
  end.

(** ** Dictionaries

    A [dict] keeps its keys in insertion order and holds each key once. *)
Fixpoint ustring_eqb (a b : ustring) : bool :=
  match a, b with
  | [], [] => true
  | x :: a', y :: b' => (x =? y) && ustring_eqb a' b'
  | _, _ => false
  end.

Section Dict.
Context {V : Type}.

(** [d.get(k)] *)
Fixpoint dict_get (k : ustring) (d : list (ustring * V)) : option V :=
  match d with
  | [] => None
  | (k', v) :: d' => if ustring_eqb k' k then Some v else dict_get k d'
  end.

(** [d[k] = v]: an existing key keeps its place, a new key goes last. *)
Fixpoint dict_set (k : ustring) (v : V) (d : list (ustring * V)) : list (ustring * V) :=
  match d with
  | [] => [(k, v)]
  | (k', v') :: d' =>
      if ustring_eqb k' k then (k', v) :: d' else (k', v') :: dict_set k v d'
  end.

(** [k in d] *)
Definition dict_has (k : ustring) (d : list (ustring * V)) : bool :=
  match dict_get k d with Some _ => true | None => false end.

(** [d.get(k, default)] *)
Definition dict_get_default (k : ustring) (default : V) (d : list (ustring * V)) : V :=
  match dict_get k d with Some v => v | None => default end.

(** [d.update(pairs)] and [dict(pairs)]: the pairs are stored in order. *)
Definition dict_update (d : list (ustring * V)) (pairs : list (ustring * V)) : list (ustring * V) :=
  fold_left (fun acc kv => dict_set kv.1 kv.2 acc) pairs d.

Definition dict_of_pairs (pairs : list (ustring * V)) : list (ustring * V) :=
  dict_update [] pairs.
End Dict.

(** ** [str] methods *)

(** [str.isspace] on one code point ([Py_UNICODE_ISSPACE]). *)
Definition py_isspace (c : N) : bool :=
  ((9 <=? c) && (c <=? 13)) || ((28 <=? c) && (c <=? 32))
  || (c =? 0x85) || (c =? 0xa0) || (c =? 0x1680)
  || ((0x2000 <=? c) && (c <=? 0x200a))
  || (c =? 0x2028) || (c =? 0x2029) || (c =? 0x202f) || (c =? 0x205f)
  || (c =? 0x3000).

Fixpoint lstrip (s : ustring) : ustring :=
  match s with
  | c :: s' => if py_isspace c then lstrip s' else s
  | [] => []
  end.

Definition rstrip (s : ustring) : ustring := rev (lstrip (rev s)).

(** [s.strip()] *)
Definition strip (s : ustring) : ustring := rstrip (lstrip s).

(** [s.startswith(p)] *)
Fixpoint startswith (p s : ustring) : bool :=
  match p, s with
  | [], _ => true
  | a :: p', b :: s' => (a =? b) && startswith p' s'
  | _ :: _, [] => false
  end.

(** [s.replace(old, new)]: every occurrence of [old], left to right, without
    overlap. [skip] counts the characters of a match still to be dropped. *)
Fixpoint replace_from (old new : ustring) (skip : nat) (s : ustring) : ustring :=
  match s with
  | [] => []
  | c :: s' =>
      match skip with
      | S k => replace_from old new k s'
      | O =>
          if startswith old s
          then new ++ replace_from old new (length old - 1) s'
          else c :: replace_from old new 0 s'
      end
  end.

Definition replace (old new s : ustring) : ustring :=
  match old with
  | [] => new ++ flat_map (fun c => c :: new) s
  | _ :: _ => replace_from old new 0 s
  end.

(** [c in s] for a one-character [c]. *)
Definition contains (c : N) (s : ustring) : bool := existsb (N.eqb c) s.

(** The text before and after the first [c], when [s] has one. *)
Fixpoint cut (c : N) (s : ustring) : option (ustring * ustring) :=
  match s with
  | [] => None
  | x :: s' =>
      if x =? c then Some ([], s')
      else match cut c s' with
           | Some (a, b) => Some (x :: a, b)
           | None => None
           end
  end.

(** The text before and after the last [c]. *)
Definition rcut (c : N) (s : ustring) : option (ustring * ustring) :=
  match cut c (rev s) with
  | Some (a, b) => Some (rev b, rev a)
  | None => None
  end.

(** [s.split(c, 1)] and [s.rsplit(c, 1)] *)
Definition split1 (c : N) (s : ustring) : list ustring :=
  match cut c s with
  | Some (a, b) => [a; b]
  | None => [s]
  end.

Definition rsplit1 (c : N) (s : ustring) : list ustring :=
  match rcut c s with
  | Some (a, b) => [a; b]
  | None => [s]
  end.

(** [s.split(c)] *)
Fixpoint split (c : N) (s : ustring) : list ustring :=
  match s with
  | [] => [[]]
  | x :: s' =>
      if x =? c then [] :: split c s'
      else match split c s' with
           | p :: ps => (x :: p) :: ps
           | [] => [[x]]
           end
  end.

(** [a, b = l]: unpacking into two names. *)
Definition unpack2 {A} (l : list A) : result (A * A) :=
  match l with
  | [a; b] => Ok (a, b)
  | [] | [_] => Raise (ValueError "not enough values to unpack")
  | _ => Raise (ValueError "too many values to unpack")
  end.

(** ** The interpreter's settings

    Two facts about the running interpreter that [int()] depends on: the
    limit on the digits of a converted integer
    ([sys.get_int_max_str_digits()], 4300 unless changed, 0 for none) and
    the decimal-digit table of its Unicode database for the code points
    above ASCII ([Py_UNICODE_TODECIMAL]). *)
Record interp : Type := {
  int_max_str_digits : nat;
  unicode_decimal : N -> option N;
}.

(** The default limit, with a table that has no digit above ASCII: exact for
    text whose code points are below U+0660, where the first such digit
    lies. The examples below are evaluated with it. *)
Definition default_interp : interp :=
  {| int_max_str_digits := 4300; unicode_decimal := fun _ => None |}.

Section Int.
Variable py : interp.

(** [Py_ISSPACE], the C-locale test [int()] uses on the ASCII text. *)
Definition c_isspace (c : N) : bool :=
  ((9 <=? c) && (c <=? 13)) || (c =? 32).

Definition is_digit (c : N) : bool := (48 <=? c) && (c <=? 57).

(** [_PyUnicode_TransformDecimalAndSpaceToASCII]: spaces above ASCII become
    a blank, decimal digits their ASCII digit, and the first other code
    point becomes [?] and ends the text. *)
Fixpoint transform_decimal_and_space (s : ustring) : ustring :=
  match s with
  | [] => []
  | c :: s' =>
      if c <? 127 then c :: transform_decimal_and_space s'
      else if py_isspace c then ord " " :: transform_decimal_and_space s'
      else match unicode_decimal py c with
           | Some d => (ord "0" + d) :: transform_decimal_and_space s'
           | None => [ord "?"]
           end
  end.

Fixpoint skip_c_space (s : ustring) : ustring :=
  match s with
  | c :: s' => if c_isspace c then skip_c_space s' else s
  | [] => []
  end.

(** The digit scan of [PyLong_FromString] in base 10: digits with single
    underscores between them. [prev_us] tells whether the previous
    character was an underscore; the result is the value, the number of
    digits and the unread text, or [None] on a doubled or trailing
    underscore. *)
Fixpoint scan_digits (prev_us : bool) (acc : Z) (digits : nat) (s : ustring)
  : option (Z * nat * ustring) :=
  match s with
  | c :: s' =>
      if is_digit c then
        scan_digits false (10 * acc + Z.of_N (c - 48))%Z (S digits) s'
      else if c =? ord "_" then
        if prev_us then None else scan_digits true acc digits s'
      else if prev_us then None else Some (acc, digits, s)
  | [] => if prev_us then None else Some (acc, digits, [])
  end.

Definition invalid_literal : exn := ValueError "invalid literal for int() with base 10".
Definition exceeds_limit : exn :=
  ValueError "Exceeds the limit for integer string conversion".

(** [int(s)] for a [str] [s]. *)
Definition py_int (s : ustring) : result Z :=
  let s1 := skip_c_space (transform_decimal_and_space s) in
  let '(negative, s2) :=
    match s1 with
    | c :: s' =>
        if c =? ord "+" then (false, s')
        else if c =? ord "-" then (true, s')
        else (false, s1)
    | [] => (false, s1)
    end in
  match s2 with
  | c :: _ =>
      if c =? ord "_" then Raise invalid_literal
      else
        match scan_digits false 0%Z 0%nat s2 with
        | None => Raise invalid_literal
        | Some (z, digits, rest) =>
            if ((640 <? digits) && (0 <? int_max_str_digits py)
                && (int_max_str_digits py <? digits))%nat
            then Raise exceeds_limit
            else if (digits =? 0)%nat then Raise invalid_literal
            else match skip_c_space rest with
                 | [] => Ok (if negative then (- z)%Z else z)
                 | _ :: _ => Raise invalid_literal
                 end
        end
  | [] => Raise invalid_literal
  end.
End Int.

(** ** [urllib.parse] *)

Definition is_hexdig (c : N) : bool :=
  is_digit c || ((65 <=? c) && (c <=? 70)) || ((97 <=? c) && (c <=? 102)).

Definition hexval (c : N) : N :=
  if is_digit c then c - 48
  else if (65 <=? c) && (c <=? 70) then c - 55
  else c - 87.

(** [unquote_to_bytes] on ASCII text: [%xy] with two hexadecimal digits is
    the byte [xy]; any other [%] stays. *)
Fixpoint unquote_to_bytes (s : ustring) : list N :=
  match s with
  | [] => []
  | c :: tl =>
      if c =? ord "%" then
        match tl with
        | h1 :: h2 :: rest =>
            if is_hexdig h1 && is_hexdig h2
            then (16 * hexval h1 + hexval h2) :: unquote_to_bytes rest
            else c :: unquote_to_bytes tl
        | _ => c :: unquote_to_bytes tl
        end
      else c :: unquote_to_bytes tl
  end.

(** [bytes.decode("utf-8", "replace")]: the decoder is between two
    characters ([U8Start]) or inside one, with [need] continuation bytes to
    come, the bits read so far, and the range allowed for the next byte. *)
Inductive utf8_state : Type :=
| U8Start
| U8Need (need : nat) (acc lo hi : N).

Definition replacement_character : N := 0xFFFD.

Definition utf8_lead (b : N) : list N * utf8_state :=
  if b <? 0x80 then ([b], U8Start)
  else if b <? 0xC2 then ([replacement_character], U8Start)
  else if b <? 0xE0 then ([], U8Need 0 (b - 0xC0) 0x80 0xBF)
  else if b =? 0xE0 then ([], U8Need 1 0 0xA0 0xBF)
  else if b =? 0xED then ([], U8Need 1 (b - 0xE0) 0x80 0x9F)
  else if b <? 0xF0 then ([], U8Need 1 (b - 0xE0) 0x80 0xBF)
  else if b =? 0xF0 then ([], U8Need 2 0 0x90 0xBF)
  else if b <? 0xF4 then ([], U8Need 2 (b - 0xF0) 0x80 0xBF)
  else if b =? 0xF4 then ([], U8Need 2 (b - 0xF0) 0x80 0x8F)
  else ([replacement_character], U8Start).

Definition utf8_step (st : utf8_state) (b : N) : list N * utf8_state :=
  match st with
  | U8Start => utf8_lead b
  | U8Need need acc lo hi =>
      if (lo <=? b) && (b <=? hi) then
        let acc' := 64 * acc + (b - 0x80) in
        match need with
        | O => ([acc'], U8Start)
        | S n => ([], U8Need n acc' 0x80 0xBF)
        end
      else
        let '(out, st') := utf8_lead b in
        (replacement_character :: out, st')
  end.

Fixpoint utf8_decode_from (st : utf8_state) (bs : list N) : ustring :=
  match bs with
  | [] => match st with U8Start => [] | U8Need _ _ _ _ => [replacement_character] end
  | b :: bs' =>
      let '(out, st') := utf8_step st b in
      out ++ utf8_decode_from st' bs'
  end.

Definition utf8_decode_replace (bs : list N) : ustring := utf8_decode_from U8Start bs.

(** [unquote]: a text without [%] is returned as it is; otherwise each
    maximal run of ASCII characters is unquoted to bytes and decoded, and the
    characters between the runs are kept. [run] is the current run,
    reversed. *)
Fixpoint unquote_runs (run : ustring) (s : ustring) : ustring :=
  match s with
  | [] =>
      match run with
      | [] => []
      | _ :: _ => utf8_decode_replace (unquote_to_bytes (rev run))
      end
  | c :: s' =>
      if c <? 0x80 then unquote_runs (c :: run) s'
      else
        match run with
        | [] => c :: unquote_runs [] s'
        | _ :: _ =>
            utf8_decode_replace (unquote_to_bytes (rev run)) ++ c :: unquote_runs [] s'
        end
  end.

Definition unquote (s : ustring) : ustring :=
  if contains (ord "%") s then unquote_runs [] s else s.

(** [parse_qsl(qs)] with its defaults: fields are separated by [&]; a field
    without [=] or with nothing after it is dropped; [+] is a blank. *)
Definition parse_qsl_field (name_value : ustring) : list (ustring * ustring) :=
  match name_value with
  | [] => []
  | _ :: _ =>
      match split1 (ord "=") name_value with
      | [name; val] =>
          match val with
          | [] => []
          | _ :: _ =>
              [(unquote (replace (u "+") (u " ") name),
                unquote (replace (u "+") (u " ") val))]
          end
      | _ => []
      end
  end.

Definition parse_qsl (qs : ustring) : list (ustring * ustring) :=
  let query_args := match qs with [] => [] | _ :: _ => split (ord "&") qs end in
  flat_map parse_qsl_field query_args.

(** ** Operations on objects *)

(** [v == "s"] for a string literal. *)
Definition eq_str (v : value) (s : ustring) : bool :=
  match v with
  | VStr s' => ustring_eqb s' s
  | _ => false
  end.

(** [v in [s1, s2, ...]] for a list of string literals. *)
Definition in_strs (v : value) (l : list ustring) : bool := existsb (eq_str v) l.

(** Truth value of an object. *)
Definition truthy (v : value) : bool :=
  match v with
  | VNone => false
  | VBool b => b
  | VInt z => negb (z =? 0)%Z
  | VStr s => match s with [] => false | _ :: _ => true end
  | VList l => match l with [] => false | _ :: _ => true end
  | VDict d => match d with [] => false | _ :: _ => true end
  end.

(** [d[k]] *)
Definition getitem (d : list (ustring * value)) (k : ustring) : result value :=
  match dict_get k d with
  | Some v => Ok v
  | None => Raise (KeyError k)
  end.

(** [v.get(k, default)] on an object that may or may not be a [dict]. *)
Definition value_get (v : value) (k : ustring) (default : value) : result value :=
  match v with
  | VDict d => Ok (dict_get_default k default d)
  | _ => Raise AttributeError
  end.

(** ** [V2rayParser] *)

Module V2rayParser.
Section WithInterp.
Variable py : interp.

(** [params.get(k, default)] on the query parameters, as an object. *)
Definition param (params : list (ustring * ustring)) (k default : ustring) : value :=
VStr (dict_get_default k default params).

(** [params.get(k)] *)
Definition param_or_none (params : list (ustring * ustring)) (k : ustring) : value :=
match dict_get k params with
| Some s => VStr s
| None => VNone
end.

Definition _parse_vless (url : ustring) : result (list (ustring * value)) :=
let url := replace (u "vless://") (u "") url in
let* (url, remarks) :=
  if contains (ord "#") url then
    let* (url, remarks) := unpack2 (split1 (ord "#") url) in
    Ok (url, unquote remarks)
  else Ok (url, u "VLESS") in
let* (server_part, params) :=
  if contains (ord "?") url then
    let* (server_part, params_part) := unpack2 (split1 (ord "?") url) in
    Ok (server_part, dict_of_pairs (parse_qsl params_part))
  else Ok (url, []) in
let* (uuid, server_and_port) := unpack2 (split1 (ord "@") server_part) in
let* (server, port) := unpack2 (rsplit1 (ord ":") server_and_port) in
let* port := py_int py port in
let config :=
  [ (u "name", VStr remarks);
    (u "protocol", VStr (u "vless"));
    (u "serverr", VStr server);
    (u "port", VInt port);
    (u "uuid", VStr uuid);
    (u "enctyption", param params (u "enctyption") (u "none"));
    (u "flow", param params (u "flow") (u ""));
    (u "network", param params (u "network") (u "tcp"));
    (u "security", param params (u "security") (u "none")) ] in
let* network := getitem config (u "network") in
let config :=
  if eq_str network (u "tcp") then
    dict_set (u "tcp")
      (VDict [(u "header_type", param params (u "headerType") (u "none"))]) config
  else if eq_str network (u "ws") then
    dict_set (u "ws")
      (VDict [ (u "path", param params (u "path") (u "/"));
               (u "host", param_or_none params (u "host")) ]) config
  else if eq_str network (u "grpc") then
    dict_set (u "grpc")
      (VDict [(u "service_name", param params (u "serviceName") (u ""))]) config
  else config in
let* security := getitem config (u "security") in
let config :=
  if in_strs security [u "tls"; u "reality"] then
    let config :=
      dict_set (u "tls")
        (VDict [ (u "server_name", param params (u "sni") server);
                 (u "fingerprint", param params (u "fp") (u "chrome"));
                 (u "alpn",
                   if truthy (param_or_none params (u "alpn"))
                   then VList (map VStr
                          (split (ord ",") (dict_get_default (u "alpn") (u "") params)))
                   else VList []) ]) config in
    if eq_str security (u "reality") then
      dict_set (u "reality")
        (VDict [ (u "public_key", param params (u "pbk") (u ""));
                 (u "short_id", param params (u "sid") (u ""));
                 (u "spider_x", param params (u "spx") (u "")) ]) config
    else config
  else config in
Ok config.

(** [parse]: [None] for a text that does not start with the scheme. *)
Definition parse (url : ustring) : result value :=
let url := strip url in
if startswith (u "vless://") url then
  let* config := _parse_vless url in
  Ok (VDict config)
else Ok VNone.
End WithInterp.

(** [outbound["streamSettings"][k] = v] *)
Definition stream_set (k : ustring) (v : value) (outbound : list (ustring * value))
  : result (list (ustring * value)) :=
  let* stream := getitem outbound (u "streamSettings") in
  match stream with
  | VDict ss => Ok (dict_set (u "streamSettings") (VDict (dict_set k v ss)) outbound)
  | _ => Raise TypeError
  end.

Definition _build_vless (config : list (ustring * value)) : result value :=
  let* address := getitem config (u "server") in
  let* port := getitem config (u "port") in
  let* id := getitem config (u "uuid") in
  let* encryption := getitem config (u "encryption") in
  let flow := dict_get_default (u "flow") (VStr (u "")) config in
  let* network := getitem config (u "network") in
  let* security := getitem config (u "security") in
  let outbound :=
    [ (u "protocol", VStr (u "vless"));
      (u "settings",
        VDict [ (u "vnext",
          VList [ VDict [ (u "address", address);
                          (u "port", port);
                          (u "users",
                            VList [ VDict [ (u "id", id);
                                            (u "encryption", encryption);
                                            (u "flow", flow) ] ]) ] ]) ]);
      (u "streamSettings",
        VDict [ (u "network", network); (u "security", security) ]) ] in
  let* network := getitem config (u "network") in
  let* outbound :=
    if eq_str network (u "tcp") then
      let* header_type :=
        value_get (dict_get_default (u "tcp") (VDict []) config)
          (u "header_type") (VStr (u "none")) in
      stream_set (u "tcpSettings")
        (VDict [(u "header", VDict [(u "type", header_type)])]) outbound
    else if eq_str network (u "ws") then
      let ws_config := dict_get_default (u "ws") (VDict []) config in
      let* path := value_get ws_config (u "path") (VStr (u "/")) in
      let* host := value_get ws_config (u "host") VNone in
      let* headers :=
        if truthy host then
          let* host := value_get ws_config (u "host") (VStr (u "")) in
          Ok (VDict [(u "Host", host)])
        else Ok (VDict []) in
      stream_set (u "wsSettings")
        (VDict [(u "path", path); (u "headers", headers)]) outbound
    else if eq_str network (u "grpc") then
      let grpc_config := dict_get_default (u "grpc") (VDict []) config in
      let* service_name := value_get grpc_config (u "service_name") (VStr (u "")) in
      stream_set (u "grpcSettings")
        (VDict [(u "serviceName", service_name)]) outbound
    else Ok outbound in
  let* security := getitem config (u "security") in
  let* outbound :=
    if in_strs security [u "tls"; u "reality"] then
      let tls_config := dict_get_default (u "tls") (VDict []) config in
      if eq_str security (u "tls") then
        let* server := getitem config (u "server") in
        let* server_name := value_get tls_config (u "server_name") server in
        let* fingerprint := value_get tls_config (u "fingerprint") (VStr (u "chrome")) in
        let* alpn := value_get tls_config (u "alpn") (VList []) in
        stream_set (u "tlsSettings")
          (VDict [ (u "serverName", server_name);
                   (u "fingerprint", fingerprint);
                   (u "alpn", alpn) ]) outbound
      else if eq_str security (u "reality") then
        let reality_config := dict_get_default (u "reality") (VDict []) config in
        let* server := getitem config (u "server") in
        let* server_name := value_get tls_config (u "server_name") server in
        let* fingerprint := value_get tls_config (u "fingerprint") (VStr (u "chrome")) in
        let* public_key := value_get reality_config (u "public_key") (VStr (u "")) in
        let* short_id := value_get reality_config (u "short_id") (VStr (u "")) in
        let* spider_x := value_get reality_config (u "spider_x") (VStr (u "")) in
        stream_set (u "realitySettings")
          (VDict [ (u "serverName", server_name);
                   (u "fingerprint", fingerprint);
                   (u "publicKey", public_key);
                   (u "shortId", short_id);
                   (u "spiderX", spider_x) ]) outbound
      else Ok outbound
    else Ok outbound in
  Ok (VDict outbound).

Definition build_config (parsed_config : list (ustring * value)) (inbound_port : Z)
  : result value :=
  let* protocol := getitem parsed_config (u "protocol") in
  let* outbound :=
    if eq_str protocol (u "vless")
    then let* outbound := _build_vless parsed_config in Ok (Some outbound)
    else Ok None in
  let* outbound :=
    match outbound with
    | Some o => Ok o
    | None => Raise UnboundLocalError
    end in
  Ok (VDict
    [ (u "log", VDict [(u "loglevel", VStr (u "warning"))]);
      (u "inbounds",
        VList [ VDict [ (u "port", VInt inbound_port);
                        (u "protocol", VStr (u "socks"));
                        (u "settings",
                          VDict [ (u "auth", VStr (u "noauth")); (u "udp", VBool true) ]);
                        (u "sniffing",
                          VDict [ (u "enabled", VBool true);
                                  (u "destOverride",
                                    VList [VStr (u "http"); VStr (u "tls")]) ]) ] ]);
      (u "outbounds",
        VList [ outbound;
                VDict [(u "protocol", VStr (u "freedom")); (u "tag", VStr (u "direct"))];
                VDict [(u "protocol", VStr (u "blackhole")); (u "tag", VStr (u "block"))] ]);
      (u "routing",
        VDict [ (u "rules",
          VList [ VDict [ (u "type", VStr (u "field"));
                          (u "ip", VList [VStr (u "geoip:private")]);
                          (u "outboundTag", VStr (u "direct")) ] ]) ]) ]).
End V2rayParser.

(** * The decoder, piece by piece *)

(** ** The pieces of a link

    The pieces of a link, cut the way [_parse_vless] cuts them, and the
    dictionary it builds from them. *)

Definition link_body (url : ustring) : ustring := replace (u "vless://") (u "") url.

Definition before_fragment (url : ustring) : ustring :=
  match cut (ord "#") (link_body url) with
  | Some (a, _) => a
  | None => link_body url
  end.

Definition display_name (url : ustring) : ustring :=
  match cut (ord "#") (link_body url) with
  | Some (_, b) => unquote b
  | None => u "VLESS"
  end.

(** The authority segment: what is left once the scheme, the fragment and
    the query are removed. *)
Definition authority (url : ustring) : ustring :=
  match cut (ord "?") (before_fragment url) with
  | Some (a, _) => a
  | None => before_fragment url
  end.

(** The text of the query, and the pairs [parse_qsl] reads from it. *)
Definition query_text (url : ustring) : ustring :=
  match cut (ord "?") (before_fragment url) with
  | Some (_, q) => q
  | None => []
  end.

Definition query_pairs (url : ustring) : list (ustring * ustring) :=
  parse_qsl (query_text url).

Definition query_params (url : ustring) : list (ustring * ustring) :=
  dict_of_pairs (query_pairs url).

Import V2rayParser.

Definition endpoint (remarks server : ustring) (port : Z) (uuid : ustring)
    (params : list (ustring * ustring)) : list (ustring * value) :=
  let network := param params (u "network") (u "tcp") in
  let security := param params (u "security") (u "none") in
  let config :=
    [ (u "name", VStr remarks);
      (u "protocol", VStr (u "vless"));
      (u "serverr", VStr server);
      (u "port", VInt port);
      (u "uuid", VStr uuid);
      (u "enctyption", param params (u "enctyption") (u "none"));
      (u "flow", param params (u "flow") (u ""));
      (u "network", network);
      (u "security", security) ] in
  let config :=
    if eq_str network (u "tcp") then
      dict_set (u "tcp")
        (VDict [(u "header_type", param params (u "headerType") (u "none"))]) config
    else if eq_str network (u "ws") then
      dict_set (u "ws")
        (VDict [ (u "path", param params (u "path") (u "/"));
                 (u "host", param_or_none params (u "host")) ]) config
    else if eq_str network (u "grpc") then
      dict_set (u "grpc")
        (VDict [(u "service_name", param params (u "serviceName") (u ""))]) config
    else config in
  if in_strs security [u "tls"; u "reality"] then
    let config :=
      dict_set (u "tls")
        (VDict [ (u "server_name", param params (u "sni") server);
                 (u "fingerprint", param params (u "fp") (u "chrome"));
                 (u "alpn",
                   if truthy (param_or_none params (u "alpn"))
                   then VList (map VStr
                          (split (ord ",") (dict_get_default (u "alpn") (u "") params)))
                   else VList []) ]) config in
    if eq_str security (u "reality") then
      dict_set (u "reality")
        (VDict [ (u "public_key", param params (u "pbk") (u ""));
                 (u "short_id", param params (u "sid") (u ""));
                 (u "spider_x", param params (u "spx") (u "")) ]) config
    else config
  else config.

(** ** The records of a decoded link *)

(** The network kind and the security mode of a query: the parameter, or
    its default. *)
Definition network_of (params : list (ustring * ustring)) : ustring :=
  dict_get_default (u "network") (u "tcp") params.

Definition security_of (params : list (ustring * ustring)) : ustring :=
  dict_get_default (u "security") (u "none") params.

Definition tcp_record (params : list (ustring * ustring)) : value :=
  VDict [(u "header_type", param params (u "headerType") (u "none"))].

Definition ws_record (params : list (ustring * ustring)) : value :=
  VDict [ (u "path", param params (u "path") (u "/"));
          (u "host", param_or_none params (u "host")) ].

Definition grpc_record (params : list (ustring * ustring)) : value :=
  VDict [(u "service_name", param params (u "serviceName") (u ""))].

Definition alpn_list (params : list (ustring * ustring)) : value :=
  match dict_get (u "alpn") params with
  | Some ((_ :: _) as a) => VList (map VStr (split (ord ",") a))
  | _ => VList []
  end.

Definition tls_record (server : ustring) (params : list (ustring * ustring)) : value :=
  VDict [ (u "server_name", param params (u "sni") server);
          (u "fingerprint", param params (u "fp") (u "chrome"));
          (u "alpn", alpn_list params) ].

Definition reality_record (params : list (ustring * ustring)) : value :=
  VDict [ (u "public_key", param params (u "pbk") (u ""));
          (u "short_id", param params (u "sid") (u ""));
          (u "spider_x", param params (u "spx") (u "")) ].

(** The entries of the decoded dictionary, in order: the nine fixed keys,
    then the transport record, then the security records. *)
Definition base_entries (remarks server : ustring) (port : Z) (uuid : ustring)
    (params : list (ustring * ustring)) : list (ustring * value) :=
  [ (u "name", VStr remarks);
    (u "protocol", VStr (u "vless"));
    (u "serverr", VStr server);
    (u "port", VInt port);
    (u "uuid", VStr uuid);
    (u "enctyption", param params (u "enctyption") (u "none"));
    (u "flow", param params (u "flow") (u ""));
    (u "network", VStr (network_of params));
    (u "security", VStr (security_of params)) ].

Definition transport_entries (params : list (ustring * ustring)) : list (ustring * value) :=
  if ustring_eqb (network_of params) (u "tcp") then [(u "tcp", tcp_record params)]
  else if ustring_eqb (network_of params) (u "ws") then [(u "ws", ws_record params)]
  else if ustring_eqb (network_of params) (u "grpc") then [(u "grpc", grpc_record params)]
  else [].

Definition security_entries (server : ustring) (params : list (ustring * ustring))
  : list (ustring * value) :=
  if ustring_eqb (security_of params) (u "tls")
     || ustring_eqb (security_of params) (u "reality")
  then (u "tls", tls_record server params)
       :: (if ustring_eqb (security_of params) (u "reality")
           then [(u "reality", reality_record params)] else [])
  else [].

(** * Notions the claims are stated with *)

(** The transport records a decoded dictionary holds, among the three the
    decoder knows. *)
Definition transport_kinds : list ustring := [u "tcp"; u "ws"; u "grpc"].

Definition transport_records (cfg : list (ustring * value)) : list ustring :=
  List.filter (fun k => dict_has k cfg) transport_kinds.

(** The link of the specification's scenario. *)
Definition scenario_uri : ustring :=
  u "vless://11111111-2222-3333-4444-555555555555@example.com:443?security=tls&sni=cdn.example.com&fp=chrome&alpn=h2,http/1.1#MyServer".


(** The query as a multimap of decoded names and values: every
    [name=value] field of its text, fields with nothing after the [=]
    included, in the order they are written. *)
Definition decode_component (s : ustring) : ustring :=
  unquote (replace (u "+") (u " ") s).

Definition query_field (field : ustring) : list (ustring * ustring) :=
  match cut (ord "=") field with
  | Some (name, val) => [(decode_component name, decode_component val)]
  | None => []
  end.

Definition query_fields (url : ustring) : list (ustring * ustring) :=
  flat_map query_field (split (ord "&") (query_text url)).

(** The values a multimap gives to a name, in order. *)
Definition values_of (k : ustring) (fields : list (ustring * ustring)) : list ustring :=
  map snd (List.filter (fun kv => ustring_eqb kv.1 k) fields).

Definition nonblank (s : ustring) : bool :=
  match s with [] => false | _ :: _ => true end.

(** The ALPN field of a decoded dictionary: it lives in the security
    record. *)
Definition alpn_field (cfg : list (ustring * value)) : option value :=
  match dict_get (u "tls") cfg with
  | Some (VDict tls) => dict_get (u "alpn") tls
  | _ => None
  end.

(** ** The builder's view of an endpoint *)

Definition is_dict (v : value) : bool :=
  match v with VDict _ => true | _ => false end.

(** A sub-record, when the endpoint has it, is a dictionary. *)
Definition record_ok (k : ustring) (cfg : list (ustring * value)) : bool :=
  match dict_get k cfg with Some v => is_dict v | None => true end.

(** An endpoint [_build_vless] can read: it has the keys the builder
    indexes, and its sub-records are dictionaries. *)
Definition assemblable (cfg : list (ustring * value)) : bool :=
  dict_has (u "server") cfg && dict_has (u "port") cfg && dict_has (u "uuid") cfg
  && dict_has (u "encryption") cfg && dict_has (u "network") cfg
  && dict_has (u "security") cfg
  && record_ok (u "tcp") cfg && record_ok (u "ws") cfg && record_ok (u "grpc") cfg
  && record_ok (u "tls") cfg && record_ok (u "reality") cfg.

(** [cfg.get(record, {}).get(k, default)] *)
Definition sub_field (cfg : list (ustring * value)) (record k : ustring) (default : value)
  : value :=
  match dict_get record cfg with
  | Some (VDict d) => dict_get_default k default d
  | _ => default
  end.

(** The transport and the security block of the stream settings. *)
Definition transport_block (cfg : list (ustring * value)) (network : value)
  : list (ustring * value) :=
  if eq_str network (u "tcp") then
    [ (u "tcpSettings",
        VDict [(u "header",
          VDict [(u "type", sub_field cfg (u "tcp") (u "header_type") (VStr (u "none")))])]) ]
  else if eq_str network (u "ws") then
    [ (u "wsSettings",
        VDict [ (u "path", sub_field cfg (u "ws") (u "path") (VStr (u "/")));
                (u "headers",
                  if truthy (sub_field cfg (u "ws") (u "host") VNone)
                  then VDict [(u "Host", sub_field cfg (u "ws") (u "host") (VStr (u "")))]
                  else VDict []) ]) ]
  else if eq_str network (u "grpc") then
    [ (u "grpcSettings",
        VDict [(u "serviceName",
          sub_field cfg (u "grpc") (u "service_name") (VStr (u "")))]) ]
  else [].

Definition security_block (cfg : list (ustring * value)) (security server : value)
  : list (ustring * value) :=
  if eq_str security (u "tls") then
    [ (u "tlsSettings",
        VDict [ (u "serverName", sub_field cfg (u "tls") (u "server_name") server);
                (u "fingerprint",
                  sub_field cfg (u "tls") (u "fingerprint") (VStr (u "chrome")));
                (u "alpn", sub_field cfg (u "tls") (u "alpn") (VList [])) ]) ]
  else if eq_str security (u "reality") then
    [ (u "realitySettings",
        VDict [ (u "serverName", sub_field cfg (u "tls") (u "server_name") server);
                (u "fingerprint",
                  sub_field cfg (u "tls") (u "fingerprint") (VStr (u "chrome")));
                (u "publicKey", sub_field cfg (u "reality") (u "public_key") (VStr (u "")));
                (u "shortId", sub_field cfg (u "reality") (u "short_id") (VStr (u "")));
                (u "spiderX", sub_field cfg (u "reality") (u "spider_x") (VStr (u ""))) ]) ]
  else [].

(** The stream settings of an assembled outbound. *)
Definition stream_of (outbound : value) : option (list (ustring * value)) :=
  match outbound with
  | VDict o =>
      match dict_get (u "streamSettings") o with
      | Some (VDict stream) => Some stream
      | _ => None
      end
  | _ => None
  end.

(** * The configuration builder ([config.py]) *)

(** ** [dataclasses]

    What the [dataclass] decorator checks when the class statement runs: a
    field whose default is of an unhashable class (a list, a dict, a set) is
    refused, and so is a field without a default after one that has a
    default. *)
Inductive pyclass : Type :=
| Cint | Cstr | Cenum | CNoneType | Clist | Cdict | Cset.

Definition unhashable (c : pyclass) : bool :=
  match c with
  | Clist | Cdict | Cset => true
  | _ => false
  end.

(** A field: its name and the class of its default, if it has one. *)
Definition field : Type := string * option pyclass.

Definition class_repr (c : pyclass) : string :=
  match c with
  | Cint => "<class 'int'>"
  | Cstr => "<class 'str'>"
  | Cenum => "<enum>"
  | CNoneType => "<class 'NoneType'>"
  | Clist => "<class 'list'>"
  | Cdict => "<class 'dict'>"
  | Cset => "<class 'set'>"
  end.

Definition mutable_default (c : pyclass) (name : string) : exn :=
  ValueError ("mutable default " ++ class_repr c ++ " for field " ++ name
              ++ " is not allowed: use default_factory").

Fixpoint check_fields (seen_default : bool) (fields : list field) : result unit :=
  match fields with
  | [] => Ok tt
  | (name, Some c) :: fields' =>
      if unhashable c then Raise (mutable_default c name)
      else check_fields true fields'
  | (name, None) :: fields' =>
      if seen_default then Raise TypeError else check_fields false fields'
  end.

(** The outcome of a class statement under [@dataclass]. *)
Definition dataclass (fields : list field) : result unit := check_fields false fields.

(** ** The enumerations *)

Inductive InboundProtocol : Type := SOCKS | HTTP.

Definition InboundProtocol_value (p : InboundProtocol) : ustring :=
  match p with SOCKS => u "socks" | HTTP => u "http" end.

Inductive OutboundProtocol : Type := VLESS.

Definition OutboundProtocol_value (p : OutboundProtocol) : ustring :=
  match p with VLESS => u "vless" end.

Inductive LogLevel : Type := DEBUG | INFO | WARNING | ERROR | CRITICAL.

Definition LogLevel_value (l : LogLevel) : ustring :=
  match l with
  | DEBUG => u "debug"
  | INFO => u "info"
  | WARNING => u "warning"
  | ERROR => u "error"
  | CRITICAL => u "critical"
  end.

(** [LogLevel(s)]: the member with that value. *)
Definition LogLevel_of_value (s : ustring) : result LogLevel :=
  if ustring_eqb s (u "debug") then Ok DEBUG
  else if ustring_eqb s (u "info") then Ok INFO
  else if ustring_eqb s (u "warning") then Ok WARNING
  else if ustring_eqb s (u "error") then Ok ERROR
  else if ustring_eqb s (u "critical") then Ok CRITICAL
  else Raise (ValueError "is not a valid LogLevel").

(** ** Objects and references

    An [InboundConfig] instance and the dictionary in its [settings] field
    are objects with an identity: the caller keeps its references to them
    after handing them to the builder. They live in a store, addressed by
    location. *)
Abbreviation loc := positive.

Module InboundConfig.

Record t : Type := mk {
  port : Z;
  protocol : InboundProtocol;
  listen : ustring;
  settings : loc;
}.

Definition fields : list field :=
  [ ("port"%string, Some Cint);
    ("protocol"%string, Some Cenum);
    ("listen"%string, Some Cstr);
    ("settings"%string, Some Cdict) ].

(** The class statement [@dataclass class InboundConfig: ...]. *)
Definition class_statement : result unit := dataclass fields.

Definition __post_init__ (self_port : Z) : result unit :=
  if negb ((1024 <? self_port)%Z && (self_port <? 65535)%Z)
  then Raise (ValueError "Port must be between 1025 and 65534")
  else Ok tt.

(** [InboundConfig(port, protocol, listen, settings)]: the class has to
    exist, then the generated [__init__] stores the fields and calls
    [__post_init__]. *)
Definition new (port : Z) (protocol : InboundProtocol) (listen : ustring)
    (settings : loc) : result t :=
  let* _ := class_statement in
  let* _ := __post_init__ port in
  Ok (mk port protocol listen settings).

End InboundConfig.

Module OutboundConfig.

Record t : Type := mk {
  protocol : OutboundProtocol;
  settings : list (ustring * value);
  stream_settings : option (list (ustring * value));
}.

Definition fields : list field :=
  [ ("protocol"%string, None);
    ("settings"%string, None);
    ("stream_settings"%string, Some CNoneType) ].

Definition class_statement : result unit := dataclass fields.

End OutboundConfig.

(** ** The world a builder runs in: the store of dictionaries and of inbound
    descriptors, the builder's own attributes, and the files, each modelled
    by the text it holds. *)
Record world : Type := mkWorld {
  dicts : gmap loc (list (ustring * value));
  inbounds : gmap loc InboundConfig.t;
  config_path : ustring;
  inbound_configs : list loc;
  outbound_configs : list OutboundConfig.t;
  log_level : LogLevel;
  files : gmap ustring ustring;
}.

(** A computation that reads and updates the world and may raise; what was
    updated before a raise stays updated. *)
Definition M (A : Type) : Type := world -> result A * world.

Definition ret {A} (a : A) : M A := fun w => (Ok a, w).

Definition raise {A} (e : exn) : M A := fun w => (Raise e, w).

Definition bind {A B} (m : M A) (k : A -> M B) : M B :=
  fun w =>
    match m w with
    | (Ok a, w') => k a w'
    | (Raise e, w') => (Raise e, w')
    end.

Notation "'let!' x ':=' m 'in' k" := (bind m (fun x => k))
  (at level 10, x pattern, m at level 100, k at level 200).

Definition lift {A} (r : result A) : M A := fun w => (r, w).

Definition gets {A} (f : world -> A) : M A := fun w => (Ok (f w), w).

Definition modify (f : world -> world) : M unit := fun w => (Ok tt, f w).

(** The exception standing for a reference that names no object. No Python
    program holds such a reference. *)
Definition dangling : exn := ValueError "reference to no object".

Definition read_inbound (l : loc) : M InboundConfig.t :=
  fun w =>
    match inbounds w !! l with
    | Some ic => (Ok ic, w)
    | None => (Raise dangling, w)
    end.

Definition read_dict (l : loc) : M (list (ustring * value)) :=
  fun w =>
    match dicts w !! l with
    | Some d => (Ok d, w)
    | None => (Raise dangling, w)
    end.

Definition set_dicts (ds : gmap loc (list (ustring * value))) (w : world) : world :=
  mkWorld ds (inbounds w) (config_path w) (inbound_configs w) (outbound_configs w)
    (log_level w) (files w).

Definition set_inbound_configs (l : list loc) (w : world) : world :=
  mkWorld (dicts w) (inbounds w) (config_path w) l (outbound_configs w)
    (log_level w) (files w).

Definition set_outbound_configs (l : list OutboundConfig.t) (w : world) : world :=
  mkWorld (dicts w) (inbounds w) (config_path w) (inbound_configs w) l
    (log_level w) (files w).

Definition set_log_level_field (lv : LogLevel) (w : world) : world :=
  mkWorld (dicts w) (inbounds w) (config_path w) (inbound_configs w)
    (outbound_configs w) lv (files w).

Definition set_files (fs : gmap ustring ustring) (w : world) : world :=
  mkWorld (dicts w) (inbounds w) (config_path w) (inbound_configs w)
    (outbound_configs w) (log_level w) fs.

(** [d.update(pairs)] on the dictionary object at [l], in place. *)
Definition update_dict (l : loc) (pairs : list (ustring * value)) : M unit :=
  let! d := read_dict l in
  modify (fun w => set_dicts (<[l := dict_update d pairs]> (dicts w)) w).

(** A [for] loop over a list. *)
Fixpoint for_each {A} (l : list A) (body : A -> M unit) : M unit :=
  match l with
  | [] => ret tt
  | x :: l' => let! _ := body x in for_each l' body
  end.

(** A list built by a [for] loop that appends one item for each element. *)
Fixpoint collect {A B} (l : list A) (item : A -> M B) : M (list B) :=
  match l with
  | [] => ret []
  | x :: l' =>
      let! y := item x in
      let! ys := collect l' item in
      ret (y :: ys)
  end.

(** ** [ClientConfig] *)

Module ClientConfig.

(** [ClientConfig(config_path)], in a store that holds [dicts], [inbounds]
    and [files] already. *)
Definition __init__ (config_path : ustring) (w : world) : world :=
  mkWorld (dicts w) (inbounds w) config_path [] [] WARNING (files w).

(** [set_log_level]: the argument is a [LogLevel] or a [str]. *)
Definition set_log_level (log_level : LogLevel + ustring) : M unit :=
  let! log_level :=
    match log_level with
    | inl lv => ret lv
    | inr s =>
        match LogLevel_of_value s with
        | Ok lv => ret lv
        | Raise _ => raise (ValueError "Unknown log level")
        end
    end in
  modify (set_log_level_field log_level).

Definition add_inbound (inbound_config : loc) : M unit :=
  let! ic := read_inbound inbound_config in
  let! _ :=
    match InboundConfig.protocol ic with
    | SOCKS =>
        update_dict (InboundConfig.settings ic)
          [ (u "auth", VStr (u "noauth"));
            (u "udp", VBool true);
            (u "ip", VStr (InboundConfig.listen ic)) ]
    | HTTP =>
        update_dict (InboundConfig.settings ic)
          [ (u "timeout", VInt 0);
            (u "allowTransparent", VBool false) ]
    end in
  modify (fun w => set_inbound_configs (inbound_configs w ++ [inbound_config]) w).

Definition add_inbounds (inbound_configs : list loc) : M unit :=
  for_each inbound_configs add_inbound.

Definition add_vless_outbound (address : ustring) (port : Z) (uuid flow security : ustring)
  : M unit :=
  let outbound_config :=
    OutboundConfig.mk VLESS
      [ (u "vnext",
          VList [ VDict [ (u "address", VStr address);
                          (u "port", VInt port);
                          (u "users",
                            VList [ VDict [ (u "id", VStr uuid);
                                            (u "flow", VStr flow);
                                            (u "encryption", VStr security) ] ]) ] ]) ]
      None in
  let outbound_config :=
    if ustring_eqb security (u "tls") then
      OutboundConfig.mk (OutboundConfig.protocol outbound_config)
        (OutboundConfig.settings outbound_config)
        (Some [ (u "network", VStr (u "tcp"));
                (u "security", VStr (u "tls"));
                (u "tlsSettings",
                  VDict [ (u "allowInsecure", VBool false);
                          (u "serverName", VStr address) ]) ])
    else outbound_config in
  modify (fun w => set_outbound_configs (outbound_configs w ++ [outbound_config]) w).

Definition validate : M unit :=
  let! ins := gets inbound_configs in
  let! _ :=
    match ins with
    | [] => raise (ValueError "Inbound configuration is not set")
    | _ :: _ => ret tt
    end in
  let! outs := gets outbound_configs in
  match outs with
  | [] => raise (ValueError "Outbound configuration is not set")
  | _ :: _ => ret tt
  end.

(** The dictionary appended for one inbound. Its [settings] entry is the
    descriptor's own dictionary object; the document is given here with the
    content that object has when [build_config] returns. *)
Definition inbound_dict (inbound : loc) : M value :=
  let! ic := read_inbound inbound in
  let! settings := read_dict (InboundConfig.settings ic) in
  ret (VDict [ (u "port", VInt (InboundConfig.port ic));
               (u "listen", VStr (InboundConfig.listen ic));
               (u "protocol", VStr (InboundProtocol_value (InboundConfig.protocol ic)));
               (u "settings", VDict settings) ]).

Definition outbound_dict (outbound : OutboundConfig.t) : M value :=
  let outbound_dict :=
    [ (u "protocol", VStr (OutboundProtocol_value (OutboundConfig.protocol outbound)));
      (u "settings", VDict (OutboundConfig.settings outbound)) ] in
  ret (VDict
    match OutboundConfig.stream_settings outbound with
    | Some ((_ :: _) as stream_settings) =>
        dict_set (u "streamSettings") (VDict stream_settings) outbound_dict
    | _ => outbound_dict
    end).

Definition build_config : M value :=
  let! _ := validate in
  let! level := gets log_level in
  let! ins := gets inbound_configs in
  let! inbound_dicts := collect ins inbound_dict in
  let! outs := gets outbound_configs in
  let! outbound_dicts := collect outs outbound_dict in
  ret (VDict
    [ (u "log", VDict [(u "loglevel", VStr (LogLevel_value level))]);
      (u "inbounds", VList inbound_dicts);
      (u "outbounds", VList outbound_dicts);
      (u "routing",
        VDict [ (u "domainStrategy", VStr (u "IPIfNonMatch"));
                (u "rules",
                  VList [ VDict [ (u "type", VStr (u "field"));
                                  (u "outboundTag", VStr (u "direct"));
                                  (u "ip", VList [VStr (u "geoip:private")]) ] ]) ]) ]).

End ClientConfig.

(** A computation that leaves the world as it found it. *)
Definition reads {A} (m : M A) : Prop := forall w, snd (m w) = w.

(** The settings [add_inbound] writes for a protocol. *)
Definition protocol_defaults (ic : InboundConfig.t) : list (ustring * value) :=
  match InboundConfig.protocol ic with
  | SOCKS =>
      [ (u "auth", VStr (u "noauth"));
        (u "udp", VBool true);
        (u "ip", VStr (InboundConfig.listen ic)) ]
  | HTTP =>
      [ (u "timeout", VInt 0);
        (u "allowTransparent", VBool false) ]
  end.

(** * [json] *)

(** ** The encoder ([json.dump] with [indent=4], ASCII output) *)

Definition hex_digit (n : N) : N := if n <? 10 then 48 + n else 87 + n.

(** ['\\u{0:04x}'.format(n)] for [n] below 65536. *)
Definition u_escape (n : N) : ustring :=
  [ ord "\"; ord "u";
    hex_digit (n / 4096 mod 16); hex_digit (n / 256 mod 16);
    hex_digit (n / 16 mod 16); hex_digit (n mod 16) ].

(** The replacement of one character by [encode_basestring_ascii]. *)
Definition escape_char (c : N) : ustring :=
  if c =? ord "\" then [ord "\"; ord "\"]
  else if c =? 34 then [ord "\"; 34]
  else if c =? 8 then [ord "\"; ord "b"]
  else if c =? 12 then [ord "\"; ord "f"]
  else if c =? 10 then [ord "\"; ord "n"]
  else if c =? 13 then [ord "\"; ord "r"]
  else if c =? 9 then [ord "\"; ord "t"]
  else if (32 <=? c) && (c <=? 126) then [c]
  else if c <? 0x10000 then u_escape c
  else
    let n := c - 0x10000 in
    u_escape (N.lor 0xd800 (N.land (N.shiftr n 10) 0x3ff))
    ++ u_escape (N.lor 0xdc00 (N.land n 0x3ff)).

Definition encode_basestring_ascii (s : ustring) : ustring :=
  34 :: flat_map escape_char s ++ [34].

(** The decimal digits of a natural number, most significant first. *)
Fixpoint digits_of_pos (fuel : nat) (n : N) (acc : ustring) : ustring :=
  match fuel with
  | O => acc
  | S fuel' =>
      let acc' := (48 + n mod 10) :: acc in
      if n <? 10 then acc' else digits_of_pos fuel' (n / 10) acc'
  end.

Definition decimal (n : N) : ustring := digits_of_pos (S (N.to_nat (N.log2 n))) n [].

Section Json.
Variable py : interp.

(** [int.__repr__]: refused beyond the digit limit. *)
Definition int_repr (z : Z) : result ustring :=
  let digits := decimal (Z.abs_N z) in
  let text := if (z <? 0)%Z then ord "-" :: digits else digits in
  if ((640 <? length text) && (0 <? int_max_str_digits py)
      && (int_max_str_digits py <? length digits))%nat
  then Raise exceeds_limit
  else Ok text.

Definition newline_indent (level : nat) : ustring :=
  10 :: repeat (ord " ") (4 * level).

(** The chunk of a value that is not a list or a dictionary. *)
Definition scalar_chunk (v : value) : result ustring :=
  match v with
  | VStr s => Ok (encode_basestring_ascii s)
  | VNone => Ok (u "null")
  | VBool true => Ok (u "true")
  | VBool false => Ok (u "false")
  | VInt z => int_repr z
  | VList _ | VDict _ => Raise TypeError
  end.

Definition with_prefix (buf : ustring) (chunk : result ustring) : result ustring :=
  let* text := chunk in Ok (buf ++ text).

(** The loop of [_iterencode_list] over the items: the first chunk of an
    item starts with the opening bracket and the indentation, or with the
    separator. [enc] encodes a nested list or dictionary. *)
Fixpoint iterencode_items (enc : value -> list (result ustring))
    (opening separator : ustring) (first : bool) (l : list value)
  : list (result ustring) :=
  match l with
  | [] => []
  | x :: l' =>
      let buf := if first then opening else separator in
      match x with
      | VList _ | VDict _ => Ok buf :: enc x
      | _ => [with_prefix buf (scalar_chunk x)]
      end ++ iterencode_items enc opening separator false l'
  end.

(** The loop of [_iterencode_dict] over the items. *)
Fixpoint iterencode_pairs (enc : value -> list (result ustring))
    (item_separator : ustring) (first : bool) (d : list (ustring * value))
  : list (result ustring) :=
  match d with
  | [] => []
  | (k, x) :: d' =>
      (if first then [] else [Ok item_separator])
      ++ Ok (encode_basestring_ascii k) :: Ok (u ": ")
      :: enc x ++ iterencode_pairs enc item_separator false d'
  end.

(** [_iterencode]: the chunks the encoder yields, in order; a chunk whose
    computation raises ends the iteration. *)
Fixpoint iterencode (v : value) (level : nat) {struct v} : list (result ustring) :=
  match v with
  | VList [] => [Ok (u "[]")]
  | VList ((_ :: _) as l) =>
      iterencode_items (fun x => iterencode x (S level))
        (ord "[" :: newline_indent (S level))
        (ord "," :: newline_indent (S level)) true l
      ++ [Ok (newline_indent level); Ok (u "]")]
  | VDict [] => [Ok (u "{}")]
  | VDict ((_ :: _) as d) =>
      Ok (u "{") :: Ok (newline_indent (S level))
      :: iterencode_pairs (fun x => iterencode x (S level))
           (ord "," :: newline_indent (S level)) true d
      ++ [Ok (newline_indent level); Ok (u "}")]
  | _ => [scalar_chunk v]
  end.

(** [for chunk in iterable: fp.write(chunk)]: the text written, and the
    exception that ended the loop, if any. *)
Fixpoint write_chunks (chunks : list (result ustring)) (written : ustring)
  : ustring * option exn :=
  match chunks with
  | [] => (written, None)
  | Ok text :: chunks' => write_chunks chunks' (written ++ text)
  | Raise e :: _ => (written, Some e)
  end.

(** ** The decoder ([json.load]) *)

Definition json_ws (c : N) : bool :=
  (c =? 32) || (c =? 9) || (c =? 10) || (c =? 13).

Fixpoint skip_ws (s : ustring) : ustring :=
  match s with
  | c :: s' => if json_ws c then skip_ws s' else s
  | [] => []
  end.

(** Four hexadecimal digits. *)
Definition hex4 (h1 h2 h3 h4 : N) : option N :=
  if is_hexdig h1 && is_hexdig h2 && is_hexdig h3 && is_hexdig h4
  then Some (4096 * hexval h1 + 256 * hexval h2 + 16 * hexval h3 + hexval h4)
  else None.

Definition is_high_surrogate (c : N) : bool := (0xd800 <=? c) && (c <=? 0xdbff).
Definition is_low_surrogate (c : N) : bool := (0xdc00 <=? c) && (c <=? 0xdfff).

Definition join_surrogates (hi lo : N) : N :=
  0x10000 + N.lor (N.shiftl (hi - 0xd800) 10) (lo - 0xdc00).

Definition simple_escape (c : N) : option N :=
  if c =? 34 then Some 34
  else if c =? ord "\" then Some (ord "\")
  else if c =? ord "/" then Some (ord "/")
  else if c =? ord "b" then Some 8
  else if c =? ord "f" then Some 12
  else if c =? ord "n" then Some 10
  else if c =? ord "r" then Some 13
  else if c =? ord "t" then Some 9
  else None.

(** After the escape of [c1]: when [c1] is a high surrogate and the escape
    of a low surrogate follows, with at least one more character after it,
    the two make one character, read from twelve characters of text;
    otherwise [c1] stands alone, read from six. *)
Definition surrogate_item (c1 : N) (s3 : ustring) : result (option (N * nat)) :=
  match s3 with
  | b :: v :: g1 :: g2 :: g3 :: g4 :: _ :: _ =>
      if is_high_surrogate c1 && (b =? ord "\") && (v =? ord "u") then
        match hex4 g1 g2 g3 g4 with
        | None => Raise JSONDecodeError
        | Some c2 =>
            if is_low_surrogate c2
            then Ok (Some (join_surrogates c1 c2, 12%nat))
            else Ok (Some (c1, 6%nat))
        end
      else Ok (Some (c1, 6%nat))
  | _ => Ok (Some (c1, 6%nat))
  end.

(** One step of [scanstring]: at the closing quote [None]; otherwise the
    character that the head of the text stands for and the number of
    characters of text it takes: one for a plain character, two for a short
    escape, six or twelve for a [\u] escape, which must have a character
    after it. *)
Definition string_item (s : ustring) : result (option (N * nat)) :=
  match s with
  | [] => Raise JSONDecodeError
  | c :: s1 =>
      if c =? 34 then Ok None
      else if c =? ord "\" then
        match s1 with
        | [] => Raise JSONDecodeError
        | e :: s2 =>
            if e =? ord "u" then
              match s2 with
              | h1 :: h2 :: h3 :: h4 :: ((_ :: _) as s3) =>
                  match hex4 h1 h2 h3 h4 with
                  | None => Raise JSONDecodeError
                  | Some c1 => surrogate_item c1 s3
                  end
              | _ => Raise JSONDecodeError
              end
            else
              match simple_escape e with
              | None => Raise JSONDecodeError
              | Some c' => Ok (Some (c', 2%nat))
              end
        end
      else if c <=? 0x1f then Raise JSONDecodeError
      else Ok (Some (c, 1%nat))
  end.

(** The loop of [scanstring]; [skip] counts the characters of the current
    item still to be passed. *)
Fixpoint scan_chars (skip : nat) (s : ustring) : result (ustring * ustring) :=
  match s with
  | [] => Raise JSONDecodeError
  | _ :: s' =>
      match skip with
      | S k => scan_chars k s'
      | O =>
          let* item := string_item s in
          match item with
          | None => Ok ([], s')
          | Some (c, n) =>
              let* (str, rest) := scan_chars (n - 1) s' in
              Ok (c :: str, rest)
          end
      end
  end.

(** [scanstring], from the character after the opening quote: the string
    and the text after its closing quote. *)
Definition scanstring (s : ustring) : result (ustring * ustring) := scan_chars 0 s.

Fixpoint span_digits (s : ustring) : ustring * ustring :=
  match s with
  | c :: s' =>
      if is_digit c then let (ds, rest) := span_digits s' in (c :: ds, rest)
      else ([], s)
  | [] => ([], [])
  end.

(** The outcome for a value the embedding has no object for: a float. *)
Definition float_not_modelled : exn := ValueError "float: outside this model".

(** Whether the text after the integer digits makes the number a float: a
    fraction, or an exponent. *)
Definition float_tail (s : ustring) : bool :=
  match s with
  | c :: d :: s' =>
      if (c =? ord ".") && is_digit d then true
      else if (c =? ord "e") || (c =? ord "E") then
        if is_digit d then true
        else if (d =? ord "+") || (d =? ord "-") then
          match s' with
          | d' :: _ => is_digit d'
          | [] => false
          end
        else false
      else false
  | _ => false
  end.

(** [_match_number]: an optional minus sign, then [0] or a digit from 1 to 9
    followed by digits. *)
Definition match_number (s : ustring) : result (value * ustring) :=
  let '(sign, s1) :=
    match s with
    | c :: s' => if c =? ord "-" then ([c], s') else ([], s)
    | [] => ([], s)
    end in
  match s1 with
  | c :: s2 =>
      let '(digits, rest) :=
        if c =? ord "0" then ([c], s2)
        else if is_digit c then let (ds, rest) := span_digits s2 in (c :: ds, rest)
        else ([], s1) in
      match digits with
      | [] => Raise JSONDecodeError
      | _ :: _ =>
          if float_tail rest then Raise float_not_modelled
          else
            let* z := py_int py (sign ++ digits) in
            Ok (VInt z, rest)
      end
  | [] => Raise JSONDecodeError
  end.

(** The exception for a nesting deeper than the decoder goes. *)
Definition RecursionError : exn := ValueError "maximum recursion depth exceeded".

(** The loop of [_parse_object] over the members, from the quote that
    opens a key; [scan] reads one value, [n] bounds the number of members. *)
Fixpoint parse_members (scan : ustring -> result (value * ustring)) (n : nat)
    (s : ustring) (acc : list (ustring * value)) {struct n}
  : result (value * ustring) :=
  match n with
  | O => Raise RecursionError
  | S n' =>
      match s with
      | q :: s1 =>
          if q =? 34 then
            let* (key, s2) := scanstring s1 in
            match skip_ws s2 with
            | colon :: s3 =>
                if colon =? ord ":" then
                  let* (val, s4) := scan (skip_ws s3) in
                  let acc' := dict_set key val acc in
                  match skip_ws s4 with
                  | d :: s5 =>
                      if d =? ord "}" then Ok (VDict acc', s5)
                      else if d =? ord "," then
                        parse_members scan n' (skip_ws s5) acc'
                      else Raise JSONDecodeError
                  | [] => Raise JSONDecodeError
                  end
                else Raise JSONDecodeError
            | [] => Raise JSONDecodeError
            end
          else Raise JSONDecodeError
      | [] => Raise JSONDecodeError
      end
  end.

(** The loop of [_parse_array] over the elements. *)
Fixpoint parse_elements (scan : ustring -> result (value * ustring)) (n : nat)
    (s : ustring) (acc : list value) {struct n} : result (value * ustring) :=
  match n with
  | O => Raise RecursionError
  | S n' =>
      let* (val, s1) := scan s in
      let acc' := acc ++ [val] in
      match skip_ws s1 with
      | d :: s2 =>
          if d =? ord "]" then Ok (VList acc', s2)
          else if d =? ord "," then parse_elements scan n' (skip_ws s2) acc'
          else Raise JSONDecodeError
      | [] => Raise JSONDecodeError
      end
  end.

(** [scan_once]: the value at the head of the text and the text after
    it. [fuel] bounds the nesting and the length of lists and dictionaries;
    [json_loads] gives more than any text can use. *)
Fixpoint scan_once (fuel : nat) (s : ustring) {struct fuel} : result (value * ustring) :=
  match fuel with
  | O => Raise RecursionError
  | S fuel' =>
      match s with
      | [] => Raise JSONDecodeError
      | c :: s' =>
          if c =? 34 then
            let* (str, rest) := scanstring s' in
            Ok (VStr str, rest)
          else if c =? ord "{" then
            match skip_ws s' with
            | c1 :: rest1 =>
                if c1 =? ord "}" then Ok (VDict [], rest1)
                else parse_members (scan_once fuel') fuel' (c1 :: rest1) []
            | [] => Raise JSONDecodeError
            end
          else if c =? ord "[" then
            match skip_ws s' with
            | c1 :: rest1 =>
                if c1 =? ord "]" then Ok (VList [], rest1)
                else parse_elements (scan_once fuel') fuel' (c1 :: rest1) []
            | [] => Raise JSONDecodeError
            end
          else if startswith (u "null") s then Ok (VNone, skipn 4 s)
          else if startswith (u "true") s then Ok (VBool true, skipn 4 s)
          else if startswith (u "false") s then Ok (VBool false, skipn 5 s)
          else if startswith (u "NaN") s || startswith (u "Infinity") s
                  || startswith (u "-Infinity") s
          then Raise float_not_modelled
          else match_number s
      end
  end.

(** [json.loads]: one value, with blanks around it and nothing else. *)
Definition json_loads (s : ustring) : result value :=
  if startswith [0xfeff] s then Raise JSONDecodeError
  else
    let* (v, rest) := scan_once (S (length s)) (skip_ws s) in
    match skip_ws rest with
    | [] => Ok v
    | _ :: _ => Raise JSONDecodeError
    end.

(** ** [ClientConfig.save] and [ClientConfig.load] *)

Definition write_file (path text : ustring) : M unit :=
  modify (fun w => set_files (<[path := text]> (files w)) w).

(** [save]: the file is created or emptied when it is opened, and holds
    what was written when the [with] block is left, by the end of the dump
    or by an exception. Opening is taken to succeed. *)
Definition save : M unit :=
  let! config_dict := ClientConfig.build_config in
  let! path := gets config_path in
  let! _ := write_file path [] in
  let '(text, err) := write_chunks (iterencode config_dict 0) [] in
  let! _ := write_file path text in
  match err with
  | Some e => raise e
  | None => ret tt
  end.

Definition load : M value :=
  let! path := gets config_path in
  let! fs := gets files in
  match fs !! path with
  | Some text => lift (json_loads text)
  | None => raise FileNotFoundError
  end.
End Json.

(** ** What a document must be like to come back from its file *)

(** The text starts with a [\u] escape that [scanstring] would take for the
    low half of a surrogate pair. *)
Definition low_follows (s : ustring) : bool :=
  match s with
  | b :: v :: g1 :: g2 :: g3 :: g4 :: _ :: _ =>
      (b =? ord "\") && (v =? ord "u")
      && match hex4 g1 g2 g3 g4 with
         | Some c2 => is_low_surrogate c2
         | None => true
         end
  | _ => false
  end.

(** Text of Unicode code points in which no high surrogate stands directly
    before a low surrogate. *)
Fixpoint str_ok (s : ustring) : bool :=
  match s with
  | [] => true
  | c :: s' =>
      (c <? 0x110000)
      && negb (is_high_surrogate c
               && match s' with c' :: _ => is_low_surrogate c' | [] => false end)
      && str_ok s'
  end.

(** The decimal text of an integer. *)
Definition int_text (z : Z) : ustring :=
  if (z <? 0)%Z then ord "-" :: decimal (Z.abs_N z) else decimal (Z.abs_N z).

(** An integer [int.__repr__] accepts. *)
Definition int_ok (py : interp) (z : Z) : bool :=
  negb ((640 <? length (int_text z)) && (0 <? int_max_str_digits py)
        && (int_max_str_digits py <? length (decimal (Z.abs_N z))))%nat.

Fixpoint unique_keys (ks : list ustring) : bool :=
  match ks with
  | [] => true
  | k :: ks' => negb (existsb (ustring_eqb k) ks') && unique_keys ks'
  end.

(** An object whose strings and integers are as above and whose
    dictionaries hold each key once. *)
Fixpoint value_ok (py : interp) (v : value) : bool :=
  match v with
  | VNone | VBool _ => true
  | VInt z => int_ok py z
  | VStr s => str_ok s
  | VList l => forallb (value_ok py) l
  | VDict d =>
      forallb (fun kv => str_ok kv.1 && value_ok py kv.2) d
      && unique_keys (map fst d)
  end.

(** The text [json.dump] writes for an object, at a nesting level. *)
Fixpoint items_text (text : value -> ustring) (separator : ustring) (first : bool)
    (l : list value) : ustring :=
  match l with
  | [] => []
  | x :: l' =>
      (if first then [] else separator) ++ text x ++ items_text text separator false l'
  end.

Fixpoint pairs_text (text : value -> ustring) (separator : ustring) (first : bool)
    (d : list (ustring * value)) : ustring :=
  match d with
  | [] => []
  | (k, x) :: d' =>
      (if first then [] else separator) ++ encode_basestring_ascii k ++ u ": "
      ++ text x ++ pairs_text text separator false d'
  end.

Fixpoint json_text (v : value) (level : nat) {struct v} : ustring :=
  match v with
  | VNone => u "null"
  | VBool true => u "true"
  | VBool false => u "false"
  | VInt z => int_text z
  | VStr s => encode_basestring_ascii s
  | VList [] => u "[]"
  | VList ((_ :: _) as l) =>
      ord "[" :: newline_indent (S level)
      ++ items_text (fun x => json_text x (S level))
           (ord "," :: newline_indent (S level)) true l
      ++ newline_indent level ++ u "]"
  | VDict [] => u "{}"
  | VDict ((_ :: _) as d) =>
      ord "{" :: newline_indent (S level)
      ++ pairs_text (fun x => json_text x (S level))
           (ord "," :: newline_indent (S level)) true d
      ++ newline_indent level ++ u "}"
  end.

(** The number of objects in an object, itself included. *)
Fixpoint size (v : value) : nat :=
  match v with
  | VList l => S (list_sum (map size l))
  | VDict d => S (list_sum (map (fun kv => size kv.2) d))
  | _ => 1
  end.

(** What may follow a value in a text: nothing, a comma or a line feed. *)
Definition value_end (rest : ustring) : bool :=
  match rest with
  | [] => true
  | c :: _ => (c =? ord ",") || (c =? 10)
  end.

(** ** Notions for the round trip through a file *)

(** The first character of the text of an object: it is not a blank and it
    closes neither a list nor a dictionary. *)
Definition opens_value (s : ustring) : Prop :=
  match s with
  | c :: _ => json_ws c = false /\ c <> ord "]" /\ c <> ord "}"
  | [] => False
  end.

(** An object that is not a list or a dictionary. *)
Definition is_scalar (v : value) : bool :=
  match v with VList _ | VDict _ => false | _ => true end.

(** A store with one inbound descriptor, and the builder that has added it
    and an outbound to the given address. *)
Definition example_store : world :=
  mkWorld {[ 2%positive := [] ]}
    {[ 1%positive := InboundConfig.mk 1080 SOCKS (u "127.0.0.1") 2%positive ]}
    [] [] [] WARNING ∅.

Definition example_builder (address : ustring) : M unit :=
  let! _ := ClientConfig.add_inbound 1%positive in
  ClientConfig.add_vless_outbound address 443 (u "id") (u "xtls-rprx-vision") (u "none").

(** The builder of [example_builder] for an ordinary address, and the
    document it builds. *)
Definition example_world : world :=
  snd (example_builder (u "example.com")
         (ClientConfig.__init__ (u "config.json") example_store)).

Definition example_document : value :=
  Eval vm_compute in
    match fst (ClientConfig.build_config example_world) with
    | Ok d => d
    | Raise _ => VNone
    end.

(** * Notions the further properties are stated with *)

(** [p in s] for two texts. *)
Fixpoint occurs (p s : ustring) : bool :=
  startswith p s || match s with [] => false | _ :: s' => occurs p s' end.

(** A link written from its parts: the user identifier, the host, the text
    of the port and, when there are any, the query and the fragment. *)
Definition vless_link (uuid server port : ustring) (query fragment : option ustring)
  : ustring :=
  u "vless://" ++ uuid ++ ord "@" :: server ++ ord ":" :: port
  ++ match query with Some q => ord "?" :: q | None => [] end
  ++ match fragment with Some f => ord "#" :: f | None => [] end.

(** The value the query gives an option: the last value of the name that is
    not empty, or the default. *)
Definition query_option (url k default : ustring) : ustring :=
  match last (List.filter nonblank (values_of k (query_fields url))) with
  | Some v => v
  | None => default
  end.

(** The names the decoder looks up in the query. *)
Definition query_names : list ustring :=
  [ u "enctyption"; u "flow"; u "network"; u "security"; u "headerType"; u "path";
    u "host"; u "serviceName"; u "sni"; u "fp"; u "alpn"; u "pbk"; u "sid"; u "spx" ].

(** The keys [_build_vless] indexes, in the order it does, and the first of
    them a dictionary lacks. *)
Definition required_keys : list ustring :=
  [ u "server"; u "port"; u "uuid"; u "encryption"; u "network"; u "security" ].

Definition first_missing (cfg : list (ustring * value)) : option ustring :=
  List.find (fun k => negb (dict_has k cfg)) required_keys.
(** ** The builder's store and document *)

(** A reference to an inbound descriptor is good in a world when it names a
    descriptor of the store whose [settings] names a dictionary of the
    store. The references of a running program are. *)
Definition ref_ok (w : world) (l : loc) : Prop :=
  exists ic d, inbounds w !! l = Some ic /\ dicts w !! InboundConfig.settings ic = Some d.

(** The entry of the document for an inbound descriptor whose settings
    dictionary holds [settings], and for an outbound descriptor. *)
Definition inbound_entry (ic : InboundConfig.t) (settings : list (ustring * value))
  : value :=
  VDict [ (u "port", VInt (InboundConfig.port ic));
          (u "listen", VStr (InboundConfig.listen ic));
          (u "protocol", VStr (InboundProtocol_value (InboundConfig.protocol ic)));
          (u "settings", VDict settings) ].

Definition outbound_entry (o : OutboundConfig.t) : value :=
  VDict ([ (u "protocol", VStr (OutboundProtocol_value (OutboundConfig.protocol o)));
           (u "settings", VDict (OutboundConfig.settings o)) ]
         ++ match OutboundConfig.stream_settings o with
            | Some ((_ :: _) as stream) => [(u "streamSettings", VDict stream)]
            | _ => []
            end).

(** The entry of a good reference. *)
Definition entry_of (w : world) (l : loc) (v : value) : Prop :=
  exists ic d,
    inbounds w !! l = Some ic /\ dicts w !! InboundConfig.settings ic = Some d /\
    v = inbound_entry ic d.

(** The document with given entries. *)
Definition document (level : LogLevel) (ins outs : list value) : value :=
  VDict
    [ (u "log", VDict [(u "loglevel", VStr (LogLevel_value level))]);
      (u "inbounds", VList ins);
      (u "outbounds", VList outs);
      (u "routing",
        VDict [ (u "domainStrategy", VStr (u "IPIfNonMatch"));
                (u "rules",
                  VList [ VDict [ (u "type", VStr (u "field"));
                                  (u "outboundTag", VStr (u "direct"));
                                  (u "ip", VList [VStr (u "geoip:private")]) ] ]) ]) ].

(** The outbound [add_vless_outbound] appends. *)
Definition vless_outbound (address : ustring) (port : Z) (uuid flow security : ustring)
  : OutboundConfig.t :=
  OutboundConfig.mk VLESS
    [ (u "vnext",
        VList [ VDict [ (u "address", VStr address);
                        (u "port", VInt port);
                        (u "users",
                          VList [ VDict [ (u "id", VStr uuid);
                                          (u "flow", VStr flow);
                                          (u "encryption", VStr security) ] ]) ] ]) ]
    (if ustring_eqb security (u "tls") then
       Some [ (u "network", VStr (u "tcp"));
              (u "security", VStr (u "tls"));
              (u "tlsSettings",
                VDict [ (u "allowInsecure", VBool false);
                        (u "serverName", VStr address) ]) ]
     else None).
(** A reference to a descriptor whose port, address and settings the
    encoder and the decoder of [json] take back and forth, and an outbound
    of that kind. *)
Definition inbound_ok (py : interp) (w : world) (l : loc) : Prop :=
  exists ic d,
    inbounds w !! l = Some ic /\ dicts w !! InboundConfig.settings ic = Some d /\
    int_ok py (InboundConfig.port ic) = true /\
    str_ok (InboundConfig.listen ic) = true /\
    value_ok py (VDict d) = true.

Definition outbound_ok (py : interp) (o : OutboundConfig.t) : bool :=
  value_ok py (VDict (OutboundConfig.settings o))
  && match OutboundConfig.stream_settings o with
     | Some stream => value_ok py (VDict stream)
     | None => true
     end.
(** A text that is empty or starts with a blank of [json]. *)
Definition blank_end (rest : ustring) : bool :=
  match rest with
  | [] => true
  | c :: _ => json_ws c
  end.

(** * Properties *)

(** ** Strings and dictionaries *)

Lemma ustring_eqb_eq (a b : ustring) : ustring_eqb a b = true <-> a = b.
Proof.
  revert b. induction a as [|x a IH]; intros [|y b]; simpl; try (split; congruence).
  rewrite andb_true_iff, N.eqb_eq, IH. split.
  - intros [-> ->]. reflexivity.
  - intros [= -> ->]. split; reflexivity.
Qed.

Lemma ustring_eqb_refl (a : ustring) : ustring_eqb a a = true.
Proof. apply ustring_eqb_eq. reflexivity. Qed.

Lemma ustring_eqb_neq (a b : ustring) : ustring_eqb a b = false <-> a <> b.
Proof.
  rewrite <- ustring_eqb_eq. destruct (ustring_eqb a b); split; congruence.
Qed.

Lemma ustring_eqb_sym (a b : ustring) : ustring_eqb a b = ustring_eqb b a.
Proof.
  destruct (ustring_eqb a b) eqn:E; symmetry.
  - apply ustring_eqb_eq. symmetry. apply ustring_eqb_eq. exact E.
  - apply ustring_eqb_neq. apply ustring_eqb_neq in E. congruence.
Qed.

Section DictFacts.
Context {V : Type}.
Implicit Types (d : list (ustring * V)) (k : ustring) (v : V).

Lemma dict_get_set_eq d k v : dict_get k (dict_set k v d) = Some v.
Proof.
  induction d as [|[k' v'] d IH]; simpl.
  - rewrite ustring_eqb_refl. reflexivity.
  - destruct (ustring_eqb k' k) eqn:E; simpl; rewrite E; auto.
Qed.

Lemma dict_get_set_ne d k k' v :
  k <> k' -> dict_get k (dict_set k' v d) = dict_get k d.
Proof.
  intros Hne. induction d as [|[k0 v0] d IH]; simpl.
  - replace (ustring_eqb k' k) with false; [reflexivity|].
    symmetry. apply ustring_eqb_neq. congruence.
  - destruct (ustring_eqb k0 k') eqn:E; simpl.
    + apply ustring_eqb_eq in E. subst k0.
      replace (ustring_eqb k' k) with false; [reflexivity|].
      symmetry. apply ustring_eqb_neq. congruence.
    + destruct (ustring_eqb k0 k); auto.
Qed.

Lemma dict_get_app d1 d2 k :
  dict_get k (d1 ++ d2) =
  match dict_get k d1 with Some v => Some v | None => dict_get k d2 end.
Proof.
  induction d1 as [|[k' v'] d1 IH]; simpl; [reflexivity|].
  destruct (ustring_eqb k' k); auto.
Qed.
End DictFacts.

Lemma contains_In (c : N) (s : ustring) : contains c s = true <-> In c s.
Proof.
  unfold contains. rewrite existsb_exists. split.
  - intros (x & Hx & E). apply N.eqb_eq in E. subst. exact Hx.
  - intros H. exists c. split; [exact H | apply N.eqb_refl].
Qed.

Lemma cut_None (c : N) (s : ustring) : cut c s = None <-> ~ In c s.
Proof.
  induction s as [|x s IH]; simpl.
  - split; auto.
  - destruct (N.eqb_spec x c) as [->|Hne].
    + split; [discriminate | intros H; exfalso; apply H; left; reflexivity].
    + destruct (cut c s) as [[a b]|].
      * split; [discriminate|]. intros H. exfalso.
        destruct IH as [_ IH]. assert (~ In c s) as Hs by (intros Hin; apply H; right; exact Hin).
        specialize (IH Hs). discriminate.
      * split; [|reflexivity]. intros _ [E|Hin]; [congruence|].
        destruct IH as [IH _]. apply (IH eq_refl Hin).
  Qed.

Lemma cut_Some (c : N) (s a b : ustring) :
  cut c s = Some (a, b) <-> s = a ++ c :: b /\ ~ In c a.
Proof.
  revert a. induction s as [|x s IH]; intros a; simpl.
  - split; [discriminate|]. intros [E _]. destruct a; discriminate.
  - destruct (N.eqb_spec x c) as [->|Hne].
    + split.
      * intros [= <- <-]. split; [reflexivity | intros []].
      * intros [E Hn]. destruct a as [|y a]; simpl in E.
        -- congruence.
        -- exfalso. apply Hn. left. congruence.
    + destruct (cut c s) as [[a' b']|] eqn:Ec.
      * split.
        -- intros [= <- <-]. destruct (IH a') as [IH1 _].
           destruct (IH1 eq_refl) as [-> Hn]. split; [reflexivity|].
           intros [E|Hin]; [congruence | exact (Hn Hin)].
        -- intros [E Hn]. destruct a as [|y a]; simpl in E; [congruence|].
           injection E as <- E. destruct (IH a) as [_ IH2].
           assert (Some (a', b') = Some (a, b)) as [= -> ->]; [|reflexivity].
           apply IH2. split; [exact E|].
           intros Hin. apply Hn. right. exact Hin.
      * split; [discriminate|]. intros [E Hn]. exfalso.
        destruct a as [|y a]; simpl in E; [congruence|].
        injection E as <- E. apply cut_None in Ec. apply Ec. rewrite E.
        apply in_or_app. right. left. reflexivity.
Qed.

Lemma contains_cut (c : N) (s : ustring) :
  contains c s = match cut c s with Some _ => true | None => false end.
Proof.
  destruct (cut c s) as [[a b]|] eqn:E.
  - apply contains_In. apply cut_Some in E as [-> _].
    apply in_or_app. right. left. reflexivity.
  - apply cut_None in E. destruct (contains c s) eqn:Ec; [|reflexivity].
    apply contains_In in Ec. contradiction.
Qed.

Lemma rcut_None (c : N) (s : ustring) : rcut c s = None <-> ~ In c s.
Proof.
  unfold rcut. destruct (cut c (rev s)) as [[a b]|] eqn:E.
  - split; [discriminate|]. intros H. exfalso. apply H.
    apply cut_Some in E as [E _]. apply in_rev. rewrite E.
    apply in_or_app. right. left. reflexivity.
  - split; [|reflexivity]. intros _. apply cut_None in E.
    intros Hin. apply E. apply in_rev in Hin. exact Hin.
Qed.

Lemma rcut_Some (c : N) (s a b : ustring) :
  rcut c s = Some (a, b) <-> s = a ++ c :: b /\ ~ In c b.
Proof.
  unfold rcut. split.
  - destruct (cut c (rev s)) as [[a' b']|] eqn:E; [|discriminate].
    intros [= <- <-]. apply cut_Some in E as [E Hn]. split.
    + rewrite <- (rev_involutive s), E, rev_app_distr. simpl.
      rewrite <- app_assoc. reflexivity.
    + intros Hin. apply Hn. apply in_rev. exact Hin.
  - intros [-> Hn].
    assert (cut c (rev (a ++ c :: b)) = Some (rev b, rev a)) as ->.
    { apply cut_Some. split.
      - rewrite rev_app_distr. simpl. rewrite <- app_assoc. reflexivity.
      - intros Hin. apply Hn. apply in_rev. exact Hin. }
    rewrite !rev_involutive. reflexivity.
Qed.

(** ** The decoder in normal form *)

Section DecoderFacts.
Variable py : interp.

Lemma _parse_vless_eq (url : ustring) :
  _parse_vless py url =
  let* (uuid, server_and_port) := unpack2 (split1 (ord "@") (authority url)) in
  let* (server, port) := unpack2 (rsplit1 (ord ":") server_and_port) in
  let* port := py_int py port in
  Ok (endpoint (display_name url) server port uuid (query_params url)).
Proof.
  assert (forall auth remarks params,
    (let* (uuid, server_and_port) := unpack2 (split1 (ord "@") auth) in
     let* (server, port) := unpack2 (rsplit1 (ord ":") server_and_port) in
     let* port := py_int py port in
     let config :=
       [ (u "name", VStr remarks);
         (u "protocol", VStr (u "vless"));
         (u "serverr", VStr server);
         (u "port", VInt port);
         (u "uuid", VStr uuid);
         (u "enctyption", param params (u "enctyption") (u "none"));
         (u "flow", param params (u "flow") (u ""));
         (u "network", param params (u "network") (u "tcp"));
         (u "security", param params (u "security") (u "none")) ] in
     let* network := getitem config (u "network") in
     let config :=
       if eq_str network (u "tcp") then
         dict_set (u "tcp")
           (VDict [(u "header_type", param params (u "headerType") (u "none"))]) config
       else if eq_str network (u "ws") then
         dict_set (u "ws")
           (VDict [ (u "path", param params (u "path") (u "/"));
                    (u "host", param_or_none params (u "host")) ]) config
       else if eq_str network (u "grpc") then
         dict_set (u "grpc")
           (VDict [(u "service_name", param params (u "serviceName") (u ""))]) config
       else config in
     let* security := getitem config (u "security") in
     let config :=
       if in_strs security [u "tls"; u "reality"] then
         let config :=
           dict_set (u "tls")
             (VDict [ (u "server_name", param params (u "sni") server);
                      (u "fingerprint", param params (u "fp") (u "chrome"));
                      (u "alpn",
                        if truthy (param_or_none params (u "alpn"))
                        then VList (map VStr
                               (split (ord ",") (dict_get_default (u "alpn") (u "") params)))
                        else VList []) ]) config in
         if eq_str security (u "reality") then
           dict_set (u "reality")
             (VDict [ (u "public_key", param params (u "pbk") (u ""));
                      (u "short_id", param params (u "sid") (u ""));
                      (u "spider_x", param params (u "spx") (u "")) ]) config
         else config
       else config in
     Ok config) =
    (let* (uuid, server_and_port) := unpack2 (split1 (ord "@") auth) in
     let* (server, port) := unpack2 (rsplit1 (ord ":") server_and_port) in
     let* port := py_int py port in
     Ok (endpoint remarks server port uuid params))) as Htail.
  { intros auth remarks params.
    destruct (unpack2 (split1 (ord "@") auth)) as [[uuid sap]|e]; [|reflexivity].
    cbn [rbind].
    destruct (unpack2 (rsplit1 (ord ":") sap)) as [[server port]|e]; [|reflexivity].
    cbn [rbind].
    destruct (py_int py port) as [n|e]; [|reflexivity].
    cbn [rbind].
    unfold endpoint.
    generalize (param params (u "network") (u "tcp")) as network.
    generalize (param params (u "security") (u "none")) as security.
    intros security network.
    cbv beta zeta.
    match goal with
    | |- context [getitem ?c (u "network")] =>
        change (getitem c (u "network")) with (Ok network)
    end.
    cbn [rbind].
    destruct (eq_str network (u "tcp")) eqn:E1;
      [|destruct (eq_str network (u "ws")) eqn:E2;
        [|destruct (eq_str network (u "grpc")) eqn:E3]];
      match goal with
      | |- context [getitem ?c (u "security")] =>
          change (getitem c (u "security")) with (Ok security)
      end; reflexivity. }
  unfold _parse_vless, authority, query_params, query_pairs, query_text,
    display_name, before_fragment.
  fold (link_body url). generalize (link_body url) as body. intros body.
  rewrite (contains_cut (ord "#") body). unfold split1 at 1.
  destruct (cut (ord "#") body) as [[body' frag]|]; cbn [rbind unpack2].
  - rewrite (contains_cut (ord "?") body'). unfold split1 at 1.
    destruct (cut (ord "?") body') as [[auth q]|]; cbn [rbind unpack2]; apply Htail.
  - rewrite (contains_cut (ord "?") body). unfold split1 at 1.
    destruct (cut (ord "?") body) as [[auth q]|]; cbn [rbind unpack2]; apply Htail.
Qed.
End DecoderFacts.

(** ** What the decoded dictionary holds *)

Lemma alpn_list_eq (params : list (ustring * ustring)) :
  (if truthy (param_or_none params (u "alpn"))
   then VList (map VStr (split (ord ",") (dict_get_default (u "alpn") (u "") params)))
   else VList []) = alpn_list params.
Proof.
  unfold alpn_list, param_or_none, dict_get_default.
  destruct (dict_get (u "alpn") params) as [[|c a]|]; reflexivity.
Qed.

Lemma endpoint_entries remarks server port uuid params :
  endpoint remarks server port uuid params =
  base_entries remarks server port uuid params
  ++ transport_entries params ++ security_entries server params.
Proof.
  unfold endpoint. rewrite alpn_list_eq.
  change (param params (u "network") (u "tcp")) with (VStr (network_of params)).
  change (param params (u "security") (u "none")) with (VStr (security_of params)).
  fold (tls_record server params) (reality_record params) (tcp_record params)
    (ws_record params) (grpc_record params).
  unfold base_entries, transport_entries, security_entries.
  generalize (tls_record server params) (reality_record params) (tcp_record params)
    (ws_record params) (grpc_record params) (network_of params) (security_of params).
  intros tls reality tcp ws grpc nw sec.
  cbv beta zeta. cbn [eq_str in_strs existsb].
  rewrite orb_false_r.
  destruct (ustring_eqb nw (u "tcp"));
    [|destruct (ustring_eqb nw (u "ws")); [|destruct (ustring_eqb nw (u "grpc"))]];
    (destruct (ustring_eqb sec (u "tls")); destruct (ustring_eqb sec (u "reality")));
    reflexivity.
Qed.

Section EndpointFacts.
Variables (remarks server : ustring) (port : Z) (uuid : ustring).
Variable params : list (ustring * ustring).

Let e := endpoint remarks server port uuid params.

Lemma endpoint_get (k : ustring) :
  dict_get k e =
  match dict_get k (base_entries remarks server port uuid params) with
  | Some v => Some v
  | None =>
      match dict_get k (transport_entries params) with
      | Some v => Some v
      | None => dict_get k (security_entries server params)
      end
  end.
Proof. subst e. rewrite endpoint_entries, !dict_get_app. reflexivity. Qed.

Lemma endpoint_name : dict_get (u "name") e = Some (VStr remarks).
Proof. rewrite endpoint_get. reflexivity. Qed.

Lemma endpoint_serverr : dict_get (u "serverr") e = Some (VStr server).
Proof. rewrite endpoint_get. reflexivity. Qed.

Lemma endpoint_port : dict_get (u "port") e = Some (VInt port).
Proof. rewrite endpoint_get. reflexivity. Qed.

Lemma endpoint_uuid : dict_get (u "uuid") e = Some (VStr uuid).
Proof. rewrite endpoint_get. reflexivity. Qed.

Lemma endpoint_protocol : dict_get (u "protocol") e = Some (VStr (u "vless")).
Proof. rewrite endpoint_get. reflexivity. Qed.

Lemma endpoint_network : dict_get (u "network") e = Some (VStr (network_of params)).
Proof. rewrite endpoint_get. reflexivity. Qed.

Lemma endpoint_security : dict_get (u "security") e = Some (VStr (security_of params)).
Proof. rewrite endpoint_get. reflexivity. Qed.

Ltac open_entries :=
  rewrite endpoint_get;
  change (dict_get _ (base_entries _ _ _ _ _)) with (@None value);
  unfold transport_entries, security_entries;
  generalize (network_of params) (security_of params); intros nw sec.

Ltac absurd_tests :=
  exfalso;
  repeat match goal with
         | H : ustring_eqb ?x _ = true |- _ =>
             is_var x; apply ustring_eqb_eq in H; subst x
         | H : ustring_eqb (u _) (u _) = _ |- _ =>
             vm_compute in H; discriminate H
         end.

Ltac entries_cases nw sec :=
  destruct (ustring_eqb nw (u "tcp")) eqn:?Ntcp;
  destruct (ustring_eqb nw (u "ws")) eqn:?Nws;
  destruct (ustring_eqb nw (u "grpc")) eqn:?Ngrpc;
  destruct (ustring_eqb sec (u "tls")) eqn:?Stls;
  destruct (ustring_eqb sec (u "reality")) eqn:?Sreality;
  first [reflexivity | absurd_tests].

(** The builder's names for the host and the encryption are not keys of
    the decoded dictionary. *)
Lemma endpoint_no_server : dict_get (u "server") e = None.
Proof. open_entries. entries_cases nw sec. Qed.

Lemma endpoint_no_encryption : dict_get (u "encryption") e = None.
Proof. open_entries. entries_cases nw sec. Qed.

Lemma endpoint_tcp :
  dict_get (u "tcp") e =
  if ustring_eqb (network_of params) (u "tcp") then Some (tcp_record params) else None.
Proof. open_entries. entries_cases nw sec. Qed.

Lemma endpoint_ws :
  dict_get (u "ws") e =
  if ustring_eqb (network_of params) (u "ws") then Some (ws_record params) else None.
Proof. open_entries. entries_cases nw sec. Qed.

Lemma endpoint_grpc :
  dict_get (u "grpc") e =
  if ustring_eqb (network_of params) (u "grpc") then Some (grpc_record params) else None.
Proof. open_entries. entries_cases nw sec. Qed.

Lemma endpoint_tls :
  dict_get (u "tls") e =
  if ustring_eqb (security_of params) (u "tls")
     || ustring_eqb (security_of params) (u "reality")
  then Some (tls_record server params) else None.
Proof. open_entries. entries_cases nw sec. Qed.

Lemma endpoint_reality :
  dict_get (u "reality") e =
  if ustring_eqb (security_of params) (u "reality")
  then Some (reality_record params) else None.
Proof. open_entries. entries_cases nw sec. Qed.
End EndpointFacts.

(** ** [parse] on a link *)

Lemma py_int_raises_ValueError (py : interp) (s : ustring) (e : exn) :
  py_int py s = Raise e -> exists msg, e = ValueError msg.
Proof.
  unfold py_int, invalid_literal, exceeds_limit.
  repeat match goal with
         | |- context [match ?x with _ => _ end] => destruct x
         end;
    intros [= <-]; eexists; reflexivity.
Qed.

Section ParseFacts.
Variable py : interp.

Lemma parse_other_scheme (url : ustring) :
  startswith (u "vless://") (strip url) = false -> parse py url = Ok VNone.
Proof. unfold parse. intros ->. reflexivity. Qed.

Lemma parse_vless_scheme (url : ustring) :
  startswith (u "vless://") (strip url) = true ->
  parse py url =
  let* (uuid, server_and_port) := unpack2 (split1 (ord "@") (authority (strip url))) in
  let* (server, port) := unpack2 (rsplit1 (ord ":") server_and_port) in
  let* port := py_int py port in
  Ok (VDict (endpoint (display_name (strip url)) server port uuid
               (query_params (strip url)))).
Proof.
  unfold parse. intros ->. rewrite _parse_vless_eq.
  destruct (unpack2 (split1 (ord "@") (authority (strip url)))) as [[uuid sap]|];
    [|reflexivity]; cbn [rbind].
  destruct (unpack2 (rsplit1 (ord ":") sap)) as [[server port]|];
    [|reflexivity]; cbn [rbind].
  destruct (py_int py port); reflexivity.
Qed.

(** A decoded link is a link with the scheme whose authority reads
    [uuid@server:port]; the dictionary is the one built from its pieces. *)
Lemma parse_Ok_inv (url : ustring) (cfg : list (ustring * value)) :
  parse py url = Ok (VDict cfg) ->
  exists uuid server port n,
    startswith (u "vless://") (strip url) = true /\
    authority (strip url) = uuid ++ ord "@" :: server ++ ord ":" :: port /\
    ~ In (ord "@") uuid /\ ~ In (ord ":") port /\
    py_int py port = Ok n /\
    cfg = endpoint (display_name (strip url)) server n uuid (query_params (strip url)).
Proof.
  destruct (startswith (u "vless://") (strip url)) eqn:Hs.
  2:{ rewrite parse_other_scheme by exact Hs. discriminate. }
  rewrite parse_vless_scheme by exact Hs.
  unfold split1, rsplit1.
  destruct (cut (ord "@") (authority (strip url))) as [[uuid sap]|] eqn:Ha;
    [|discriminate]; cbn [unpack2 rbind].
  destruct (rcut (ord ":") sap) as [[server port]|] eqn:Hc;
    [|discriminate]; cbn [unpack2 rbind].
  destruct (py_int py port) as [n|] eqn:Hp; [|discriminate]; cbn [rbind].
  intros [= <-].
  apply cut_Some in Ha as [Ha Hu]. apply rcut_Some in Hc as [-> Hc].
  exists uuid, server, port, n. repeat split; assumption.
Qed.

Lemma parse_no_at (url : ustring) :
  startswith (u "vless://") (strip url) = true ->
  ~ In (ord "@") (authority (strip url)) ->
  parse py url = Raise (ValueError "not enough values to unpack").
Proof.
  intros Hs Hn. rewrite parse_vless_scheme by exact Hs.
  apply cut_None in Hn. unfold split1. rewrite Hn. reflexivity.
Qed.

Lemma parse_no_colon (url uuid rest : ustring) :
  startswith (u "vless://") (strip url) = true ->
  authority (strip url) = uuid ++ ord "@" :: rest ->
  ~ In (ord "@") uuid -> ~ In (ord ":") rest ->
  parse py url = Raise (ValueError "not enough values to unpack").
Proof.
  intros Hs Ha Hu Hr. rewrite parse_vless_scheme by exact Hs.
  unfold split1, rsplit1.
  assert (cut (ord "@") (authority (strip url)) = Some (uuid, rest)) as ->
    by (apply cut_Some; auto).
  cbn [unpack2 rbind]. apply rcut_None in Hr. rewrite Hr. reflexivity.
Qed.

Lemma parse_authority (url uuid server port : ustring) :
  startswith (u "vless://") (strip url) = true ->
  authority (strip url) = uuid ++ ord "@" :: server ++ ord ":" :: port ->
  ~ In (ord "@") uuid -> ~ In (ord ":") port ->
  parse py url =
  let* n := py_int py port in
  Ok (VDict (endpoint (display_name (strip url)) server n uuid
               (query_params (strip url)))).
Proof.
  intros Hs Ha Hu Hp. rewrite parse_vless_scheme by exact Hs.
  unfold split1, rsplit1.
  assert (cut (ord "@") (authority (strip url))
          = Some (uuid, server ++ ord ":" :: port)) as ->
    by (apply cut_Some; auto).
  cbn [unpack2 rbind].
  assert (rcut (ord ":") (server ++ ord ":" :: port) = Some (server, port)) as ->
    by (apply rcut_Some; auto).
  reflexivity.
Qed.

(** No dictionary the decoder returns can be assembled: the builder asks
    for the key [server], the decoder stores the host under [serverr]. *)
Lemma decoded_never_assembles (url : ustring) (cfg : list (ustring * value))
    (inbound_port : Z) :
  parse py url = Ok (VDict cfg) ->
  build_config cfg inbound_port = Raise (KeyError (u "server")).
Proof.
  intros H. apply parse_Ok_inv in H as (uuid & server & port & n & _ & _ & _ & _ & _ & ->).
  unfold build_config, getitem. rewrite endpoint_protocol. cbn [rbind].
  change (eq_str (VStr (u "vless")) (u "vless")) with true. cbv iota.
  unfold _build_vless, getitem. rewrite endpoint_no_server. reflexivity.
Qed.
End ParseFacts.

(** * The claims about the decoder *)

(** C1 (scenario). Decoding the scenario link gives the display name
    [MyServer], the host [example.com] (stored under the key [serverr]), the
    port 443, the security mode [tls] and the ALPN list [h2], [http/1.1];
    handing that dictionary to [build_config] produces no document: it
    raises [KeyError] on the key [server]. *)
Theorem C1_scenario_decoded_not_assembled (py : interp) :
  exists cfg tls,
    parse py scenario_uri = Ok (VDict cfg) /\
    dict_get (u "name") cfg = Some (VStr (u "MyServer")) /\
    dict_get (u "serverr") cfg = Some (VStr (u "example.com")) /\
    dict_get (u "port") cfg = Some (VInt 443) /\
    dict_get (u "security") cfg = Some (VStr (u "tls")) /\
    dict_get (u "tls") cfg = Some (VDict tls) /\
    dict_get (u "alpn") tls = Some (VList [VStr (u "h2"); VStr (u "http/1.1")]) /\
    build_config cfg 1080 = Raise (KeyError (u "server")).
Proof.
  destruct py as [limit table]. vm_compute.
  do 2 eexists. repeat split.
Qed.

(** The decoder attaches the transport record its network kind names, and
    no other; a network kind it does not know gets none. *)
Lemma decoded_transport (py : interp) (url : ustring) (cfg : list (ustring * value)) :
  parse py url = Ok (VDict cfg) ->
  exists network,
    dict_get (u "network") cfg = Some (VStr network) /\
    dict_has (u "tcp") cfg = ustring_eqb network (u "tcp") /\
    dict_has (u "ws") cfg = ustring_eqb network (u "ws") /\
    dict_has (u "grpc") cfg = ustring_eqb network (u "grpc").
Proof.
  intros H. apply parse_Ok_inv in H as (uuid & server & port & n & _ & _ & _ & _ & _ & ->).
  exists (network_of (query_params (strip url))).
  unfold dict_has. rewrite endpoint_network, endpoint_tcp, endpoint_ws, endpoint_grpc.
  repeat split;
    match goal with |- context [ustring_eqb ?a ?b] => destruct (ustring_eqb a b) end;
    reflexivity.
Qed.




(** The decoder attaches the security record exactly for [tls] and
    [reality], and the reality record exactly for [reality]. *)
Lemma decoded_security (py : interp) (url : ustring) (cfg : list (ustring * value)) :
  parse py url = Ok (VDict cfg) ->
  exists security,
    dict_get (u "security") cfg = Some (VStr security) /\
    (dict_has (u "tls") cfg = true <-> security = u "tls" \/ security = u "reality") /\
    (dict_has (u "reality") cfg = true <-> security = u "reality").
Proof.
  intros H. apply parse_Ok_inv in H as (uuid & server & port & n & _ & _ & _ & _ & _ & ->).
  exists (security_of (query_params (strip url))).
  unfold dict_has. rewrite endpoint_security, endpoint_tls, endpoint_reality.
  rewrite <- !ustring_eqb_eq.
  destruct (ustring_eqb _ (u "tls")), (ustring_eqb _ (u "reality")); cbn [orb];
    intuition congruence.
Qed.

(** C6 (at a link with an unknown security mode). The link is decoded
    without error and gets neither a security nor a reality record, but no
    outbound is assembled from it: [build_config] raises [KeyError] on the
    key [server]. *)
Theorem C6_unknown_security_decoded_not_assembled (py : interp) :
  exists cfg,
    parse py (u "vless://u@h:1?security=foo") = Ok (VDict cfg) /\
    dict_get (u "security") cfg = Some (VStr (u "foo")) /\
    dict_has (u "tls") cfg = false /\
    dict_has (u "reality") cfg = false /\
    build_config cfg 1080 = Raise (KeyError (u "server")).
Proof.
  destruct py as [limit table]. vm_compute. eexists. repeat split.
Qed.

(** C9. For a text with the scheme: an authority without [@], or without
    [:] after the first [@], or whose text after the last [:] is refused by
    [int()], makes [parse] raise [ValueError]; otherwise the user identifier
    is the text before the first [@], the host the text between that [@] and
    the last [:], and the port the integer read after it. *)
Theorem C9_authority_split (py : interp) (url : ustring) :
  startswith (u "vless://") (strip url) = true ->
  (~ In (ord "@") (authority (strip url)) -> is_ValueError (parse py url)) /\
  (forall uuid rest,
     authority (strip url) = uuid ++ ord "@" :: rest ->
     ~ In (ord "@") uuid -> ~ In (ord ":") rest ->
     is_ValueError (parse py url)) /\
  (forall uuid server port,
     authority (strip url) = uuid ++ ord "@" :: server ++ ord ":" :: port ->
     ~ In (ord "@") uuid -> ~ In (ord ":") port ->
     match py_int py port with
     | Raise _ => is_ValueError (parse py url)
     | Ok n =>
         exists cfg,
           parse py url = Ok (VDict cfg) /\
           dict_get (u "uuid") cfg = Some (VStr uuid) /\
           dict_get (u "serverr") cfg = Some (VStr server) /\
           dict_get (u "port") cfg = Some (VInt n)
     end).
Proof.
  intros Hs. repeat split.
  - intros Hn. rewrite parse_no_at by assumption. exact I.
  - intros uuid rest Ha Hu Hr. rewrite (parse_no_colon py url uuid rest) by assumption.
    exact I.
  - intros uuid server port Ha Hu Hp.
    rewrite (parse_authority py url uuid server port) by assumption.
    destruct (py_int py port) as [n|e] eqn:Hi; cbn [rbind].
    + eexists. split; [reflexivity|].
      rewrite endpoint_uuid, endpoint_serverr, endpoint_port. auto.
    + apply py_int_raises_ValueError in Hi as [msg ->]. exact I.
Qed.

Lemma C9_witness :
  startswith (u "vless://") (strip (u " vless://user@host:443 ")) = true /\
  is_ValueError (parse default_interp (u "vless://host:443")) /\
  is_ValueError (parse default_interp (u "vless://user@host")) /\
  is_ValueError (parse default_interp (u "vless://user@host:https")) /\
  exists cfg,
    parse default_interp (u " vless://user@host:443 ") = Ok (VDict cfg) /\
    dict_get (u "uuid") cfg = Some (VStr (u "user")) /\
    dict_get (u "serverr") cfg = Some (VStr (u "host")) /\
    dict_get (u "port") cfg = Some (VInt 443).
Proof.
  split; [vm_compute; reflexivity|]. split; [|split; [|split]].
  - assert (startswith (u "vless://") (strip (u "vless://host:443")) = true) as Hs
      by (vm_compute; reflexivity).
    assert (~ In (ord "@") (authority (strip (u "vless://host:443")))) as Hn
      by (vm_compute; intuition discriminate).
    exact (proj1 (C9_authority_split default_interp _ Hs) Hn).
  - assert (startswith (u "vless://") (strip (u "vless://user@host")) = true) as Hs
      by (vm_compute; reflexivity).
    assert (authority (strip (u "vless://user@host")) = u "user" ++ ord "@" :: u "host")
      as Ha by (vm_compute; reflexivity).
    assert (~ In (ord "@") (u "user")) as Hu by (vm_compute; intuition discriminate).
    assert (~ In (ord ":") (u "host")) as Hr by (vm_compute; intuition discriminate).
    exact (proj1 (proj2 (C9_authority_split default_interp _ Hs)) _ _ Ha Hu Hr).
  - assert (startswith (u "vless://") (strip (u "vless://user@host:https")) = true) as Hs
      by (vm_compute; reflexivity).
    assert (authority (strip (u "vless://user@host:https"))
            = u "user" ++ ord "@" :: u "host" ++ ord ":" :: u "https")
      as Ha by (vm_compute; reflexivity).
    assert (~ In (ord "@") (u "user")) as Hu by (vm_compute; intuition discriminate).
    assert (~ In (ord ":") (u "https")) as Hp by (vm_compute; intuition discriminate).
    pose proof (proj2 (proj2 (C9_authority_split default_interp _ Hs)) _ _ _ Ha Hu Hp) as H.
    vm_compute in H |- *. exact H.
  - assert (startswith (u "vless://") (strip (u " vless://user@host:443 ")) = true) as Hs
      by (vm_compute; reflexivity).
    assert (authority (strip (u " vless://user@host:443 "))
            = u "user" ++ ord "@" :: u "host" ++ ord ":" :: u "443")
      as Ha by (vm_compute; reflexivity).
    assert (~ In (ord "@") (u "user")) as Hu by (vm_compute; intuition discriminate).
    assert (~ In (ord ":") (u "443")) as Hp by (vm_compute; intuition discriminate).
    pose proof (proj2 (proj2 (C9_authority_split default_interp _ Hs)) _ _ _ Ha Hu Hp) as H.
    vm_compute in H |- *. exact H.
Defined.

(** * The builder of the decoder path *)

Lemma value_get_sub_field (cfg : list (ustring * value)) (record k : ustring)
    (default : value) :
  record_ok record cfg = true ->
  value_get (dict_get_default record (VDict []) cfg) k default
  = Ok (sub_field cfg record k default).
Proof.
  unfold record_ok, sub_field, dict_get_default.
  destruct (dict_get record cfg) as [[]|]; try discriminate; reflexivity.
Qed.

(** On an endpoint it can read, [_build_vless] returns the outbound whose
    stream settings are the network and security entries followed by the
    transport block and the security block. *)
Lemma _build_vless_assemblable (cfg : list (ustring * value)) :
  assemblable cfg = true ->
  exists address port id encryption network security,
    dict_get (u "server") cfg = Some address /\
    dict_get (u "network") cfg = Some network /\
    dict_get (u "security") cfg = Some security /\
    _build_vless cfg =
    Ok (VDict
      [ (u "protocol", VStr (u "vless"));
        (u "settings",
          VDict [ (u "vnext",
            VList [ VDict [ (u "address", address);
                            (u "port", port);
                            (u "users",
                              VList [ VDict [ (u "id", id);
                                              (u "encryption", encryption);
                                              (u "flow",
                                                dict_get_default (u "flow")
                                                  (VStr (u "")) cfg) ] ]) ] ]) ]);
        (u "streamSettings",
          VDict ([ (u "network", network); (u "security", security) ]
                 ++ transport_block cfg network
                 ++ security_block cfg security address)) ]).
Proof.
  unfold assemblable, dict_has. rewrite !andb_true_iff.
  intros [[[[[[[[[[Hsrv Hport] Huuid] Henc] Hnw] Hsec] Rtcp] Rws] Rgrpc] Rtls] Rreal].
  destruct (dict_get (u "server") cfg) as [address|] eqn:Esrv; [|discriminate].
  destruct (dict_get (u "port") cfg) as [port|] eqn:Eport; [|discriminate].
  destruct (dict_get (u "uuid") cfg) as [id|] eqn:Euuid; [|discriminate].
  destruct (dict_get (u "encryption") cfg) as [encryption|] eqn:Eenc; [|discriminate].
  destruct (dict_get (u "network") cfg) as [network|] eqn:Enw; [|discriminate].
  destruct (dict_get (u "security") cfg) as [security|] eqn:Esec; [|discriminate].
  exists address, port, id, encryption, network, security.
  repeat (split; [reflexivity|]).
  unfold _build_vless, getitem. rewrite Esrv, Eport, Euuid, Eenc, Enw, Esec.
  cbn [rbind]. rewrite !value_get_sub_field by assumption.
  unfold transport_block, security_block. cbn [in_strs existsb]. rewrite orb_false_r.
  generalize (dict_get_default (u "flow") (VStr (u "")) cfg) as flow. intros flow.
  generalize (sub_field cfg). intros field.
  destruct (eq_str network (u "tcp"));
    [|destruct (eq_str network (u "ws")); [|destruct (eq_str network (u "grpc"))]];
    cbn [rbind];
    try (destruct (truthy (field (u "ws") (u "host") VNone)); cbn [rbind]);
    (destruct (eq_str security (u "tls")); [|destruct (eq_str security (u "reality"))]);
    reflexivity.
Qed.

(** A security mode other than [tls] and [reality] puts no TLS and no
    reality block in the stream settings. *)
Lemma assembled_without_security_block (cfg : list (ustring * value)) :
  assemblable cfg = true ->
  exists outbound stream security,
    _build_vless cfg = Ok outbound /\ stream_of outbound = Some stream /\
    dict_get (u "security") cfg = Some security /\
    (eq_str security (u "tls") = false -> eq_str security (u "reality") = false ->
     dict_has (u "tlsSettings") stream = false /\
     dict_has (u "realitySettings") stream = false).
Proof.
  intros H.
  destruct (_build_vless_assemblable cfg H)
    as (address & port & id & enc & network & security & _ & _ & Hs & ->).
  do 3 eexists. split; [reflexivity|]. split; [reflexivity|]. split; [exact Hs|].
  intros E1 E2. unfold transport_block, security_block. rewrite E1, E2.
  destruct (eq_str network (u "tcp"));
    [|destruct (eq_str network (u "ws")); [|destruct (eq_str network (u "grpc"))]];
    split; reflexivity.
Qed.



(** * The query of a link *)

Lemma replace_char (a b : N) (s : ustring) :
  replace [a] [b] s = map (fun c => if c =? a then b else c) s.
Proof.
  unfold replace. induction s as [|c s IH]; [reflexivity|].
  cbn [replace_from startswith length Nat.sub map app].
  rewrite andb_true_r, (N.eqb_sym a c), IH.
  destruct (c =? a); reflexivity.
Qed.

Lemma utf8_step_progress (st : utf8_state) (b : N) :
  utf8_step st b <> ([], U8Start).
Proof.
  assert (forall b, utf8_lead b <> ([], U8Start)) as Hlead.
  { intros c. unfold utf8_lead.
    repeat match goal with
           | |- context [if ?x then _ else _] => destruct x
           end; discriminate. }
  assert (forall b, exists o s, utf8_lead b = (o, s)) as Hex
    by (intros c; destruct (utf8_lead c); eauto).
  destruct st as [|need acc lo hi]; cbn [utf8_step]; [apply Hlead|].
  destruct ((lo <=? b) && (b <=? hi)).
  - destruct need; discriminate.
  - destruct (Hex b) as (o & s & ->). discriminate.
Qed.

Lemma utf8_decode_from_nil (st : utf8_state) (bs : list N) :
  utf8_decode_from st bs = [] -> st = U8Start /\ bs = [].
Proof.
  revert st. induction bs as [|b bs IH]; intros st; cbn [utf8_decode_from].
  - destruct st; [auto | discriminate].
  - destruct (utf8_step st b) as [out st'] eqn:E. intros H.
    apply app_eq_nil in H as [-> H]. apply IH in H as [-> _].
    exfalso. exact (utf8_step_progress st b E).
Qed.

Lemma unquote_to_bytes_nonblank (s : ustring) :
  nonblank (unquote_to_bytes s) = nonblank s.
Proof.
  destruct s as [|c s]; [reflexivity|]. cbn [unquote_to_bytes].
  destruct (c =? ord "%"); [|reflexivity].
  destruct s as [|h1 [|h2 s]]; try reflexivity.
  destruct (is_hexdig h1 && is_hexdig h2); reflexivity.
Qed.

Lemma unquote_runs_nil (run s : ustring) :
  unquote_runs run s = [] -> run = [] /\ s = [].
Proof.
  revert run. induction s as [|c s IH]; intros run; cbn [unquote_runs].
  - destruct run as [|r run]; [auto|]. intros H.
    apply utf8_decode_from_nil in H as [_ H].
    assert (nonblank (unquote_to_bytes (rev (r :: run))) = true) as Hn.
    { rewrite unquote_to_bytes_nonblank. cbn [rev].
      destruct (rev run); reflexivity. }
    rewrite H in Hn. discriminate.
  - destruct (c <? 128).
    + intros H. apply IH in H as [H _]. discriminate.
    + destruct run; [discriminate|]. intros H.
      apply app_eq_nil in H as [_ H]. discriminate.
Qed.

Lemma unquote_nonblank (s : ustring) : nonblank (unquote s) = nonblank s.
Proof.
  unfold unquote. destruct (contains (ord "%") s); [|reflexivity].
  destruct s as [|c s]; [reflexivity|].
  destruct (unquote_runs [] (c :: s)) eqn:E; [|reflexivity].
  apply unquote_runs_nil in E as [_ E]. discriminate.
Qed.

Lemma decode_component_nonblank (s : ustring) :
  nonblank (decode_component s) = nonblank s.
Proof.
  unfold decode_component. rewrite unquote_nonblank.
  change (u "+") with [ord "+"]. change (u " ") with [ord " "].
  rewrite replace_char. destruct s; reflexivity.
Qed.

(** [parse_qsl] keeps the fields of the query whose value is not blank. *)
Lemma parse_qsl_field_eq (field : ustring) :
  parse_qsl_field field = List.filter (fun kv => nonblank kv.2) (query_field field).
Proof.
  unfold parse_qsl_field, query_field, split1.
  destruct field as [|c field]; [reflexivity|].
  destruct (cut (ord "=") (c :: field)) as [[name val]|]; [|reflexivity].
  cbn [List.filter snd]. rewrite decode_component_nonblank.
  destruct val; reflexivity.
Qed.

Lemma filter_flat_map {A B} (p : B -> bool) (f : A -> list B) (l : list A) :
  List.filter p (flat_map f l) = flat_map (fun x => List.filter p (f x)) l.
Proof.
  induction l as [|x l IH]; [reflexivity|].
  cbn [flat_map]. rewrite List.filter_app, IH. reflexivity.
Qed.

Lemma query_pairs_eq (url : ustring) :
  query_pairs url = List.filter (fun kv => nonblank kv.2) (query_fields url).
Proof.
  unfold query_pairs, query_fields, parse_qsl.
  rewrite filter_flat_map.
  destruct (query_text url) as [|c q]; [reflexivity|].
  apply flat_map_ext. intros field. apply parse_qsl_field_eq.
Qed.

(** In [dict(pairs)] a name has the last value the pairs give it. *)
Lemma dict_update_get (k : ustring) (pairs d : list (ustring * ustring)) :
  dict_get k (dict_update d pairs) =
  match last (values_of k pairs) with
  | Some v => Some v
  | None => dict_get k d
  end.
Proof.
  revert d. induction pairs as [|[k' v'] pairs IH]; intros d; [reflexivity|].
  unfold dict_update in *. cbn [fold_left fst snd]. rewrite IH.
  unfold values_of. cbn [List.filter fst].
  destruct (ustring_eqb k' k) eqn:E.
  - apply ustring_eqb_eq in E. subst k'. cbn [map snd].
    rewrite dict_get_set_eq.
    destruct (map snd (List.filter (fun kv => ustring_eqb kv.1 k) pairs)) as [|w ws];
      [reflexivity|].
    change (last (v' :: w :: ws)) with (last (w :: ws)).
    destruct (last (w :: ws)) eqn:El; [reflexivity|].
    apply last_None in El. discriminate.
  - apply ustring_eqb_neq in E.
    destruct (last _); [reflexivity|]. apply dict_get_set_ne. congruence.
Qed.

Lemma values_of_filter (k : ustring) (p : ustring -> bool)
    (fields : list (ustring * ustring)) :
  values_of k (List.filter (fun kv => p kv.2) fields) = List.filter p (values_of k fields).
Proof.
  unfold values_of. induction fields as [|[n v] fields IH]; [reflexivity|].
  cbn [List.filter fst snd].
  destruct (p v) eqn:Ep, (ustring_eqb n k) eqn:Ek; cbn [List.filter map fst snd];
    rewrite ?Ep, ?Ek; cbn [map snd]; rewrite IH; reflexivity.
Qed.

Lemma query_params_get (k : ustring) (url : ustring) :
  dict_get k (query_params url)
  = last (List.filter nonblank (values_of k (query_fields url))).
Proof.
  unfold query_params, dict_of_pairs. rewrite dict_update_get, query_pairs_eq.
  rewrite (values_of_filter k nonblank). destruct (last _); reflexivity.
Qed.

(** C8, refuted as stated: with [alpn=h2&alpn=] the query has [alpn] with an
    empty value and the ALPN list is [h2], not empty; and without a security
    mode of [tls] or [reality] the decoded dictionary has no ALPN field,
    whatever the query gives [alpn]. *)
Lemma C8_counterexample :
  (exists cfg,
     parse default_interp (u "vless://u@h:1?security=tls&alpn=h2&alpn=") = Ok (VDict cfg) /\
     In (u "alpn", []) (query_fields (u "vless://u@h:1?security=tls&alpn=h2&alpn=")) /\
     alpn_field cfg = Some (VList [VStr (u "h2")])) /\
  (exists cfg,
     parse default_interp (u "vless://u@h:1?alpn=h2,h3") = Ok (VDict cfg) /\
     values_of (u "alpn") (query_fields (u "vless://u@h:1?alpn=h2,h3")) = [u "h2,h3"] /\
     alpn_field cfg = None).
Proof.
  split; vm_compute; eexists; repeat split. right. right. left. reflexivity.
Qed.

(** C8, amended. A decoded link has an ALPN field exactly when its security
    mode is [tls] or [reality]. The field is then the empty list when no
    [alpn] field of the query has a non-empty value, and otherwise the last
    non-empty [alpn] value split on commas. *)
Theorem C8_alpn_list (py : interp) (url : ustring) (cfg : list (ustring * value)) :
  parse py url = Ok (VDict cfg) ->
  exists security,
    dict_get (u "security") cfg = Some (VStr security) /\
    alpn_field cfg =
    if ustring_eqb security (u "tls") || ustring_eqb security (u "reality") then
      Some (match last (List.filter nonblank
                          (values_of (u "alpn") (query_fields (strip url)))) with
            | Some v => VList (map VStr (split (ord ",") v))
            | None => VList []
            end)
    else None.
Proof.
  intros H. apply parse_Ok_inv in H as (uuid & server & port & n & _ & _ & _ & _ & _ & ->).
  exists (security_of (query_params (strip url))).
  split; [apply endpoint_security|].
  unfold alpn_field. rewrite endpoint_tls.
  destruct (ustring_eqb _ (u "tls") || ustring_eqb _ (u "reality")); [|reflexivity].
  cbn [tls_record dict_get]. change (ustring_eqb (u "server_name") (u "alpn")) with false.
  change (ustring_eqb (u "fingerprint") (u "alpn")) with false.
  change (ustring_eqb (u "alpn") (u "alpn")) with true. cbv iota.
  unfold alpn_list. rewrite query_params_get.
  destruct (last _) as [[|c v]|] eqn:El; try reflexivity.
  exfalso. apply last_Some in El as [l' El].
  assert (In [] (List.filter nonblank
                   (values_of (u "alpn") (query_fields (strip url))))) as Hin.
  { rewrite El. apply in_or_app. right. left. reflexivity. }
  apply List.filter_In in Hin as [_ Hin]. discriminate.
Qed.

Lemma C8_witness :
  parse default_interp (u "vless://u@h:1?security=reality&alpn=&alpn=h2,h3&alpn=")
  = Ok (VDict (endpoint (u "VLESS") (u "h") 1 (u "u")
                 [(u "security", u "reality"); (u "alpn", u "h2,h3")])) /\
  alpn_field (endpoint (u "VLESS") (u "h") 1 (u "u")
                [(u "security", u "reality"); (u "alpn", u "h2,h3")])
  = Some (VList [VStr (u "h2"); VStr (u "h3")]).
Proof.
  assert (parse default_interp (u "vless://u@h:1?security=reality&alpn=&alpn=h2,h3&alpn=")
          = Ok (VDict (endpoint (u "VLESS") (u "h") 1 (u "u")
                         [(u "security", u "reality"); (u "alpn", u "h2,h3")]))) as H
    by (vm_compute; reflexivity).
  split; [exact H|].
  destruct (C8_alpn_list _ _ _ H) as (security & Hs & Ha).
  rewrite Ha. vm_compute in Hs. injection Hs as <-. vm_compute. reflexivity.
Defined.

(** * The claims about the builder *)

Lemma __post_init___range (p : Z) :
  InboundConfig.__post_init__ p = Ok tt <-> (1024 < p < 65535)%Z.
Proof.
  unfold InboundConfig.__post_init__.
  destruct (1024 <? p)%Z eqn:E1, (p <? 65535)%Z eqn:E2; cbn [andb negb];
    try apply Z.ltb_lt in E1; try apply Z.ltb_lt in E2;
    try apply Z.ltb_ge in E1; try apply Z.ltb_ge in E2;
    (split; [intros H; try discriminate; lia | intros H; try reflexivity; lia]).
Qed.

Lemma __post_init___out_of_range (p : Z) :
  (p <= 1024 \/ 65535 <= p)%Z ->
  InboundConfig.__post_init__ p = Raise (ValueError "Port must be between 1025 and 65534").
Proof.
  intros H. unfold InboundConfig.__post_init__.
  destruct (1024 <? p)%Z eqn:E1, (p <? 65535)%Z eqn:E2; cbn [andb negb];
    try reflexivity.
  apply Z.ltb_lt in E1. apply Z.ltb_lt in E2. lia.
Qed.

(** C4 (at every port). The check in [__post_init__] accepts exactly the
    ports with 1024 < p < 65535 and raises [ValueError] on the others, but no
    descriptor is ever constructed: the class statement itself raises
    [ValueError], because the field [settings] has the mutable default
    [{}]. *)
Theorem C4_descriptor_never_constructed (p : Z) (protocol : InboundProtocol)
    (listen : ustring) (settings : loc) :
  InboundConfig.new p protocol listen settings
  = Raise (mutable_default Cdict "settings") /\
  (InboundConfig.__post_init__ p = Ok tt <-> (1024 < p < 65535)%Z).
Proof.
  split; [reflexivity | apply __post_init___range].
Qed.

Section BuilderFacts.
Import ClientConfig.

Lemma reads_ret {A} (a : A) : reads (ret a).
Proof. intros w. reflexivity. Qed.

Lemma reads_raise {A} (e : exn) : reads (@raise A e).
Proof. intros w. reflexivity. Qed.

Lemma reads_gets {A} (f : world -> A) : reads (gets f).
Proof. intros w. reflexivity. Qed.

Lemma reads_bind {A B} (m : M A) (k : A -> M B) :
  reads m -> (forall a, reads (k a)) -> reads (bind m k).
Proof.
  intros Hm Hk w. unfold bind. specialize (Hm w).
  destruct (m w) as [[a|e] w1]; cbn [snd] in Hm; subst w1; [apply Hk | reflexivity].
Qed.

Lemma reads_read_inbound (l : loc) : reads (read_inbound l).
Proof. intros w. unfold read_inbound. destruct (inbounds w !! l); reflexivity. Qed.

Lemma reads_read_dict (l : loc) : reads (read_dict l).
Proof. intros w. unfold read_dict. destruct (dicts w !! l); reflexivity. Qed.

Lemma reads_collect {A B} (item : A -> M B) (l : list A) :
  (forall x, reads (item x)) -> reads (collect l item).
Proof.
  intros Hitem. induction l as [|x l IH]; cbn [collect]; [apply reads_ret|].
  apply reads_bind; [apply Hitem|]. intros y.
  apply reads_bind; [exact IH|]. intros ys. apply reads_ret.
Qed.

Lemma reads_validate : reads validate.
Proof.
  unfold validate. apply reads_bind; [apply reads_gets|]. intros ins.
  apply reads_bind; [destruct ins; [apply reads_raise | apply reads_ret]|].
  intros _. apply reads_bind; [apply reads_gets|]. intros outs.
  destruct outs; [apply reads_raise | apply reads_ret].
Qed.

(** [build_config] reads the world and leaves it as it is. *)
Lemma build_config_reads : reads build_config.
Proof.
  unfold build_config.
  apply reads_bind; [apply reads_validate|]. intros _.
  apply reads_bind; [apply reads_gets|]. intros level.
  apply reads_bind; [apply reads_gets|]. intros ins.
  apply reads_bind.
  { apply reads_collect. intros l. unfold inbound_dict.
    apply reads_bind; [apply reads_read_inbound|]. intros ic.
    apply reads_bind; [apply reads_read_dict|]. intros d. apply reads_ret. }
  intros ds. apply reads_bind; [apply reads_gets|]. intros outs.
  apply reads_bind; [|intros os; apply reads_ret].
  apply reads_collect. intros o. apply reads_ret.
Qed.

(** C3. With an empty inbound list or an empty outbound list,
    [build_config] raises [ValueError], returns no document and leaves the
    world as it was; and whenever it raises, the world is left as it was. *)
Theorem C3_empty_lists_rejected (w : world) :
  inbound_configs w = [] \/ outbound_configs w = [] ->
  (exists msg, build_config w = (Raise (ValueError msg), w)) /\
  (forall w0 e w', build_config w0 = (Raise e, w') -> w' = w0).
Proof.
  intros H. split.
  - unfold build_config, validate, bind, gets, ret, raise.
    destruct (inbound_configs w) as [|i ins]; [eexists; reflexivity|].
    destruct H as [H|H]; [discriminate|]. rewrite H. eexists. reflexivity.
  - intros w0 e w' Hb. pose proof (build_config_reads w0) as Hr.
    rewrite Hb in Hr. exact Hr.
Qed.

Lemma C3_witness :
  exists msg,
    build_config (__init__ (u "config.json") (mkWorld ∅ ∅ [] [] [] WARNING ∅))
    = (Raise (ValueError msg), __init__ (u "config.json") (mkWorld ∅ ∅ [] [] [] WARNING ∅)).
Proof.
  exact (proj1 (C3_empty_lists_rejected
                  (__init__ (u "config.json") (mkWorld ∅ ∅ [] [] [] WARNING ∅))
                  (or_introl eq_refl))).
Defined.

Lemma dict_update_cons {V} (d : list (ustring * V)) (k : ustring) (v : V)
    (pairs : list (ustring * V)) :
  dict_update d ((k, v) :: pairs) = dict_update (dict_set k v d) pairs.
Proof. reflexivity. Qed.

(** C10. [add_inbound] on a descriptor in the store: the dictionary object
    its [settings] field refers to is updated where it is, with the settings
    of the protocol, every other key of it keeping its value; no descriptor
    is changed, so the port, protocol, listen address and settings reference
    of the one passed are as before; the reference passed is the one appended
    to the inbound list; no other dictionary and nothing else of the builder
    changes. *)
Theorem C10_add_inbound_in_place (w : world) (l : loc) (ic : InboundConfig.t)
    (d : list (ustring * value)) :
  inbounds w !! l = Some ic ->
  dicts w !! InboundConfig.settings ic = Some d ->
  exists w' d',
    add_inbound l w = (Ok tt, w') /\
    inbounds w' = inbounds w /\
    dicts w' = <[InboundConfig.settings ic := d']> (dicts w) /\
    d' = dict_update d (protocol_defaults ic) /\
    (forall k v, In (k, v) (protocol_defaults ic) -> dict_get k d' = Some v) /\
    (forall k, ~ In k (map fst (protocol_defaults ic)) -> dict_get k d' = dict_get k d) /\
    inbound_configs w' = inbound_configs w ++ [l] /\
    outbound_configs w' = outbound_configs w /\
    log_level w' = log_level w /\
    config_path w' = config_path w /\
    files w' = files w.
Proof.
  intros Hl Hd.
  exists (set_inbound_configs (inbound_configs w ++ [l])
            (set_dicts (<[InboundConfig.settings ic := dict_update d (protocol_defaults ic)]>
                          (dicts w)) w)),
         (dict_update d (protocol_defaults ic)).
  split.
  { unfold add_inbound, bind, read_inbound. rewrite Hl.
    unfold protocol_defaults.
    destruct (InboundConfig.protocol ic);
      unfold update_dict, bind, read_dict; rewrite Hd; reflexivity. }
  repeat split.
  - intros k v Hin. unfold protocol_defaults in *.
    destruct (InboundConfig.protocol ic); cbn [In] in Hin;
      rewrite !dict_update_cons;
      repeat (destruct Hin as [[= <- <-]|Hin]; [|]); try contradiction;
      cbn [dict_update fold_left fst snd];
      rewrite ?dict_get_set_eq; try reflexivity;
      repeat (rewrite dict_get_set_ne by (vm_compute; discriminate));
      rewrite ?dict_get_set_eq; reflexivity.
  - intros k Hk. unfold protocol_defaults in *.
    destruct (InboundConfig.protocol ic); cbn [map fst In] in Hk;
      cbn [dict_update fold_left fst snd];
      repeat (rewrite dict_get_set_ne by (intros ->; apply Hk; auto 6));
      reflexivity.
Qed.

Lemma C10_witness :
  exists w' d',
    add_inbound 1%positive
      (mkWorld {[ 2%positive := [(u "auth", VStr (u "password")); (u "userLevel", VInt 0)] ]}
         {[ 1%positive := InboundConfig.mk 1080 SOCKS (u "127.0.0.1") 2%positive ]}
         (u "config.json") [] [] WARNING ∅)
    = (Ok tt, w') /\
    inbounds w' !! 1%positive = Some (InboundConfig.mk 1080 SOCKS (u "127.0.0.1") 2%positive) /\
    dicts w' !! 2%positive = Some d' /\
    d' = [ (u "auth", VStr (u "noauth")); (u "userLevel", VInt 0);
           (u "udp", VBool true); (u "ip", VStr (u "127.0.0.1")) ] /\
    inbound_configs w' = [1%positive].
Proof.
  destruct (C10_add_inbound_in_place
    (mkWorld {[ 2%positive := [(u "auth", VStr (u "password")); (u "userLevel", VInt 0)] ]}
       {[ 1%positive := InboundConfig.mk 1080 SOCKS (u "127.0.0.1") 2%positive ]}
       (u "config.json") [] [] WARNING ∅)
    1%positive (InboundConfig.mk 1080 SOCKS (u "127.0.0.1") 2%positive)
    [(u "auth", VStr (u "password")); (u "userLevel", VInt 0)]
    (lookup_singleton_eq _ _) (lookup_singleton_eq _ _))
    as (w' & d' & Ha & Hi & Hd & Hd' & _ & _ & Hl & _).
  exists w', d'. split; [exact Ha|]. split; [rewrite Hi; apply lookup_singleton_eq|].
  split; [rewrite Hd; apply lookup_insert_eq|].
  split; [rewrite Hd'; reflexivity | rewrite Hl; reflexivity].
Defined.
End BuilderFacts.

(** * The round trip through the file *)

(** ** Strings *)

Lemma hex_digit_ok (d : N) :
  d < 16 -> is_hexdig (hex_digit d) = true /\ hexval (hex_digit d) = d.
Proof.
  intros H.
  assert (d = 0 \/ d = 1 \/ d = 2 \/ d = 3 \/ d = 4 \/ d = 5 \/ d = 6 \/ d = 7 \/
          d = 8 \/ d = 9 \/ d = 10 \/ d = 11 \/ d = 12 \/ d = 13 \/ d = 14 \/ d = 15)
    as Hd by lia.
  repeat (destruct Hd as [->|Hd]; [split; reflexivity|]). subst d. split; reflexivity.
Qed.

Lemma hex4_u_escape (n : N) :
  n < 65536 ->
  hex4 (hex_digit (n / 4096 mod 16)) (hex_digit (n / 256 mod 16))
       (hex_digit (n / 16 mod 16)) (hex_digit (n mod 16)) = Some n.
Proof.
  intros H. unfold hex4.
  destruct (hex_digit_ok (n / 4096 mod 16)) as [-> ->]; [apply N.mod_lt; lia|].
  destruct (hex_digit_ok (n / 256 mod 16)) as [-> ->]; [apply N.mod_lt; lia|].
  destruct (hex_digit_ok (n / 16 mod 16)) as [-> ->]; [apply N.mod_lt; lia|].
  destruct (hex_digit_ok (n mod 16)) as [-> ->]; [apply N.mod_lt; lia|].
  cbn [andb]. f_equal. zify. Z.to_euclidean_division_equations. lia.
Qed.

(** [k * 1024 | x] is [k * 1024 + x] for [x] below 1024. *)
Lemma lor_low_bits (k x : N) : x < 1024 -> N.lor (k * 1024) x = k * 1024 + x.
Proof.
  intros H.
  assert (N.land (k * 1024) x = 0) as Hland.
  { apply N.bits_inj. intros i. rewrite N.land_spec, N.bits_0.
    destruct (N.lt_ge_cases i 10) as [Hi|Hi].
    - change 1024 with (2 ^ 10). rewrite N.mul_pow2_bits_low by exact Hi. reflexivity.
    - rewrite <- (N.mod_small x (2 ^ 10)) by exact H.
      rewrite N.mod_pow2_bits_high by exact Hi. apply andb_false_r. }
  rewrite <- N.lxor_lor by exact Hland. symmetry. apply N.add_nocarry_lxor. exact Hland.
Qed.

Lemma surrogate_pair (c : N) :
  0x10000 <= c -> c < 0x110000 ->
  let hi := N.lor 0xd800 (N.land (N.shiftr (c - 0x10000) 10) 0x3ff) in
  let lo := N.lor 0xdc00 (N.land (c - 0x10000) 0x3ff) in
  hi < 65536 /\ lo < 65536 /\
  is_high_surrogate hi = true /\ is_low_surrogate lo = true /\
  join_surrogates hi lo = c.
Proof.
  intros Hlo Hhi. cbv zeta.
  assert ((c - 65536) / 1024 < 1024) as H1.
  { apply N.Div0.div_lt_upper_bound. change (1024 * 1024) with 1048576. lia. }
  assert ((c - 65536) mod 1024 < 1024) as H2 by (apply N.mod_lt; discriminate).
  change 0x3ff with (N.ones 10). rewrite !N.land_ones, N.shiftr_div_pow2.
  change (2 ^ 10) with 1024.
  rewrite (N.mod_small _ _ H1).
  change 0xd800 with (54 * 1024). change 0xdc00 with (55 * 1024).
  rewrite !lor_low_bits by assumption.
  pose proof (N.div_mod (c - 65536) 1024 ltac:(discriminate)) as Hdm.
  unfold is_high_surrogate, is_low_surrogate, join_surrogates.
  change (54 * 1024) with 55296. change (55 * 1024) with 56320.
  generalize dependent ((c - 65536) / 1024). intros q Hq Hdm.
  generalize dependent ((c - 65536) mod 1024). intros r Hr Hdm.
  repeat split; try lia.
  - apply andb_true_iff. split; apply N.leb_le; lia.
  - apply andb_true_iff. split; apply N.leb_le; lia.
  - replace (55296 + q - 55296) with q by lia.
    replace (56320 + r - 56320) with r by lia.
    rewrite N.shiftl_mul_pow2. change (2 ^ 10) with 1024.
    rewrite lor_low_bits by exact Hr. lia.
Qed.


Lemma surrogate_item_alone (c1 : N) (s3 : ustring) :
  (is_high_surrogate c1 = true -> low_follows s3 = false) ->
  surrogate_item c1 s3 = Ok (Some (c1, 6%nat)).
Proof.
  unfold surrogate_item, low_follows. intros H.
  destruct s3 as [|b [|v [|g1 [|g2 [|g3 [|g4 [|x s4]]]]]]]; try reflexivity.
  destruct (is_high_surrogate c1); [|reflexivity].
  specialize (H eq_refl). cbn [andb].
  destruct (b =? ord "\"); [|reflexivity].
  destruct (v =? ord "u"); [|reflexivity].
  cbn [andb] in *. destruct (hex4 g1 g2 g3 g4); [|discriminate].
  rewrite H. reflexivity.
Qed.

Lemma u_escape_eq (n : N) :
  u_escape n = [ ord "\"; ord "u";
                 hex_digit (n / 4096 mod 16); hex_digit (n / 256 mod 16);
                 hex_digit (n / 16 mod 16); hex_digit (n mod 16) ].
Proof. reflexivity. Qed.

Lemma string_item_u (h1 h2 h3 h4 t0 : N) (tl : ustring) :
  string_item (ord "\" :: ord "u" :: h1 :: h2 :: h3 :: h4 :: t0 :: tl) =
  match hex4 h1 h2 h3 h4 with
  | None => Raise JSONDecodeError
  | Some c1 => surrogate_item c1 (t0 :: tl)
  end.
Proof. reflexivity. Qed.

(** The escape of a character is read back as that character. *)
Lemma string_item_escape (c : N) (tail : ustring) :
  c < 0x110000 -> tail <> [] ->
  (is_high_surrogate c = true -> low_follows tail = false) ->
  string_item (escape_char c ++ tail) = Ok (Some (c, length (escape_char c))).
Proof.
  intros Hc Htail Hlow. unfold escape_char.
  destruct (N.eqb_spec c (ord "\")) as [->|N1]; [reflexivity|].
  destruct (N.eqb_spec c 34) as [->|N2]; [reflexivity|].
  destruct (N.eqb_spec c 8) as [->|N3]; [reflexivity|].
  destruct (N.eqb_spec c 12) as [->|N4]; [reflexivity|].
  destruct (N.eqb_spec c 10) as [->|N5]; [reflexivity|].
  destruct (N.eqb_spec c 13) as [->|N6]; [reflexivity|].
  destruct (N.eqb_spec c 9) as [->|N7]; [reflexivity|].
  destruct ((32 <=? c) && (c <=? 126)) eqn:Eprint.
  { apply andb_true_iff in Eprint as [E1 E2]. apply N.leb_le in E1.
    cbn [app string_item].
    destruct (N.eqb_spec c 34); [contradiction|].
    destruct (N.eqb_spec c (ord "\")); [contradiction|].
    destruct (N.leb_spec c 31); [lia | reflexivity]. }
  destruct tail as [|t0 tl]; [contradiction|].
  destruct (N.ltb_spec c 65536) as [Hbmp|Hbig].
  - rewrite u_escape_eq. cbn [app]. rewrite string_item_u, hex4_u_escape by exact Hbmp.
    apply surrogate_item_alone. exact Hlow.
  - destruct (surrogate_pair c Hbig Hc) as (Hhi & Hlo & Ehi & Elo & Ejoin).
    rewrite !u_escape_eq. cbn [app].
    rewrite string_item_u, hex4_u_escape by exact Hhi.
    unfold surrogate_item. rewrite Ehi.
    change (ord "\" =? ord "\") with true. change (ord "u" =? ord "u") with true.
    cbn [andb]. rewrite hex4_u_escape by exact Hlo. rewrite Elo, Ejoin. reflexivity.
Qed.

Lemma escape_char_nonempty (c : N) : escape_char c <> [].
Proof.
  unfold escape_char, u_escape.
  repeat match goal with |- context [if ?x then _ else _] => destruct x end;
    discriminate.
Qed.

Lemma scan_chars_skip (pre tail : ustring) :
  tail <> [] -> scan_chars (length pre) (pre ++ tail) = scan_chars 0 tail.
Proof.
  intros H. induction pre as [|x pre IH]; [reflexivity|].
  cbn [length app scan_chars]. exact IH.
Qed.

Lemma scan_chars_item (c ch : N) (pre tail : ustring) :
  tail <> [] ->
  string_item (c :: pre ++ tail) = Ok (Some (ch, S (length pre))) ->
  scan_chars 0 (c :: pre ++ tail) =
  let* (str, rest) := scan_chars 0 tail in Ok (ch :: str, rest).
Proof.
  intros Htail Hitem. cbn [scan_chars]. rewrite Hitem. cbn [rbind].
  replace (S (length pre) - 1)%nat with (length pre) by lia.
  rewrite scan_chars_skip by exact Htail. reflexivity.
Qed.

(** The text after an encoded string starts with the escape of a low
    surrogate only when the string starts with a low surrogate. *)
Lemma low_follows_encoded (s rest : ustring) :
  str_ok s = true ->
  low_follows (flat_map escape_char s ++ 34 :: rest) =
  match s with c :: _ => is_low_surrogate c | [] => false end.
Proof.
  destruct s as [|c s]; intros Hok.
  - cbn [flat_map app]. unfold low_follows.
    destruct rest as [|v [|g1 [|g2 [|g3 [|g4 [|x s4]]]]]]; reflexivity.
  - cbn [str_ok] in Hok. apply andb_true_iff in Hok as [Hok _].
    apply andb_true_iff in Hok as [Hc _]. apply N.ltb_lt in Hc.
    cbn [flat_map]. rewrite <- app_assoc.
    set (tail := flat_map escape_char s ++ 34 :: rest).
    assert (tail <> []) as Htail by (subst tail; destruct (flat_map escape_char s); discriminate).
    destruct tail as [|t0 tl]; [contradiction|]. clear Htail.
    unfold escape_char.
    destruct (N.eqb_spec c (ord "\")) as [->|N1].
    { cbn [app]. unfold low_follows. destruct tl as [|g2 [|g3 [|g4 [|x [|y s4]]]]]; reflexivity. }
    destruct (N.eqb_spec c 34) as [->|N2].
    { cbn [app]. unfold low_follows. destruct tl as [|g2 [|g3 [|g4 [|x [|y s4]]]]]; reflexivity. }
    destruct (N.eqb_spec c 8) as [->|N3].
    { cbn [app]. unfold low_follows. destruct tl as [|g2 [|g3 [|g4 [|x [|y s4]]]]]; reflexivity. }
    destruct (N.eqb_spec c 12) as [->|N4].
    { cbn [app]. unfold low_follows. destruct tl as [|g2 [|g3 [|g4 [|x [|y s4]]]]]; reflexivity. }
    destruct (N.eqb_spec c 10) as [->|N5].
    { cbn [app]. unfold low_follows. destruct tl as [|g2 [|g3 [|g4 [|x [|y s4]]]]]; reflexivity. }
    destruct (N.eqb_spec c 13) as [->|N6].
    { cbn [app]. unfold low_follows. destruct tl as [|g2 [|g3 [|g4 [|x [|y s4]]]]]; reflexivity. }
    destruct (N.eqb_spec c 9) as [->|N7].
    { cbn [app]. unfold low_follows. destruct tl as [|g2 [|g3 [|g4 [|x [|y s4]]]]]; reflexivity. }
    destruct ((32 <=? c) && (c <=? 126)) eqn:Eprint.
    { apply andb_true_iff in Eprint as [E1 E2]. apply N.leb_le in E1, E2.
      assert (is_low_surrogate c = false) as ->.
      { unfold is_low_surrogate. destruct (N.leb_spec 56320 c); [lia | reflexivity]. }
      cbn [app]. unfold low_follows.
      destruct tl as [|g1 [|g2 [|g3 [|g4 [|x s4]]]]]; try reflexivity.
      destruct (N.eqb_spec c (ord "\")); [contradiction | reflexivity]. }
    destruct (N.ltb_spec c 65536) as [Hbmp|Hbig].
    + rewrite u_escape_eq. cbn [app]. unfold low_follows.
      rewrite hex4_u_escape by exact Hbmp. reflexivity.
    + destruct (surrogate_pair c Hbig Hc) as (Hhi & Hlo & Ehi & Elo & Ejoin).
      rewrite !u_escape_eq. cbn [app]. unfold low_follows.
      rewrite hex4_u_escape by exact Hhi.
      change (ord "\" =? ord "\") with true. change (ord "u" =? ord "u") with true.
      cbn [andb].
      transitivity false.
      * unfold is_high_surrogate, is_low_surrogate in *.
        apply andb_true_iff in Ehi as [_ Ehi]. apply N.leb_le in Ehi.
        destruct (N.leb_spec 56320 (N.lor 55296 (N.land (N.shiftr (c - 65536) 10) 1023)));
          [lia | reflexivity].
      * unfold is_low_surrogate. symmetry.
        destruct (N.leb_spec c 57343); [lia|]. apply andb_false_r.
Qed.

(** An encoded string is read back as it was. *)
Lemma scanstring_encoded (s rest : ustring) :
  str_ok s = true ->
  scanstring (flat_map escape_char s ++ 34 :: rest) = Ok (s, rest).
Proof.
  unfold scanstring. induction s as [|c s IH]; intros Hok; [reflexivity|].
  pose proof Hok as Hok'.
  cbn [str_ok] in Hok. apply andb_true_iff in Hok as [Hok Hs].
  apply andb_true_iff in Hok as [Hc Hpair]. apply N.ltb_lt in Hc.
  cbn [flat_map]. rewrite <- app_assoc.
  assert (flat_map escape_char s ++ 34 :: rest <> []) as Htail
    by (destruct (flat_map escape_char s); discriminate).
  pose proof (string_item_escape c (flat_map escape_char s ++ 34 :: rest) Hc Htail) as Hitem.
  destruct (escape_char c) as [|e pre] eqn:Ee; [exfalso; exact (escape_char_nonempty c Ee)|].
  cbn [app] in *.
  rewrite (scan_chars_item e c pre _ Htail).
  - rewrite IH by exact Hs. reflexivity.
  - apply Hitem. intros Hhigh. rewrite low_follows_encoded by exact Hs.
    rewrite Hhigh in Hpair. cbn [andb] in Hpair.
    destruct s; [reflexivity|]. apply negb_true_iff in Hpair. exact Hpair.
Qed.


(** ** Integers *)

Lemma is_digit_spec (c : N) : is_digit c = true <-> 48 <= c <= 57.
Proof.
  unfold is_digit. rewrite andb_true_iff, !N.leb_le. reflexivity.
Qed.

Lemma digit_char (d : N) : d < 10 -> is_digit (48 + d) = true.
Proof. intros H. apply is_digit_spec. lia. Qed.

(** The digits [digits_of_pos] puts before [acc]: they are digits, at least
    one, they spell [n], and the first is [0] only for [n = 0]. *)
Lemma digits_of_pos_spec (fuel : nat) :
  forall (n : N) (acc : ustring),
    n < 2 ^ N.of_nat (S fuel) ->
    exists ds,
      digits_of_pos (S fuel) n acc = ds ++ acc /\
      ds <> [] /\
      Forall (fun c => is_digit c = true) ds /\
      fold_left (fun a c => (10 * a + Z.of_N (c - 48))%Z) ds 0%Z = Z.of_N n /\
      (hd 0 ds = 48 -> ds = [48] /\ n = 0).
Proof.
  induction fuel as [|fuel IH]; intros n acc Hn.
  - change (2 ^ N.of_nat 1) with 2 in Hn.
    exists [48 + n mod 10]. cbn [digits_of_pos].
    assert (n mod 10 = n) as Hmod by (apply N.mod_small; lia).
    destruct (N.ltb_spec n 10); [|lia]. rewrite Hmod.
    split; [reflexivity|]. split; [discriminate|]. split.
    { constructor; [|constructor]. apply is_digit_spec. lia. }
    split; [cbn [fold_left]; lia|]. cbn [hd]. intros H0.
    assert (n = 0) as -> by lia. auto.
  - remember (S fuel) as f eqn:Ef. cbn [digits_of_pos].
    assert (n mod 10 < 10) as Hmod by (apply N.mod_lt; discriminate).
    destruct (N.ltb_spec n 10) as [Hsmall|Hbig].
    + exists [48 + n mod 10]. rewrite (N.mod_small n 10) by exact Hsmall.
      split; [reflexivity|]. split; [discriminate|]. split.
      { constructor; [|constructor]. apply is_digit_spec. lia. }
      split; [cbn [fold_left]; lia|]. cbn [hd]. intros H0.
      assert (n = 0) as -> by lia. auto.
    + assert (n / 10 < 2 ^ N.of_nat f) as Hdiv.
      { apply N.Div0.div_lt_upper_bound.
        replace (N.of_nat (S f)) with (N.succ (N.of_nat f)) in Hn by lia.
        rewrite N.pow_succ_r' in Hn. lia. }
      subst f. destruct (IH (n / 10) ((48 + n mod 10) :: acc) Hdiv)
        as (ds & Heq & Hne & Hdig & Hval & Hhd).
      exists (ds ++ [48 + n mod 10]). rewrite Heq, <- app_assoc.
      split; [reflexivity|]. split; [destruct ds; discriminate|]. split.
      { apply Forall_app. split; [exact Hdig|].
        constructor; [|constructor]. apply digit_char. exact Hmod. }
      split.
      { rewrite fold_left_app. cbn [fold_left]. rewrite Hval.
        pose proof (N.div_mod n 10 ltac:(discriminate)) as Hdm.
        set (q := n / 10) in *. set (r := n mod 10) in *. clearbody q r. lia. }
      intros H0. exfalso. destruct ds as [|d ds]; [contradiction|].
      cbn [app hd] in H0. destruct (Hhd H0) as [_ Hq].
      pose proof (N.div_str_pos n 10 ltac:(lia)) as Hpos. lia.
Qed.

Lemma decimal_spec (n : N) :
  exists ds,
    decimal n = ds /\ ds <> [] /\
    Forall (fun c => is_digit c = true) ds /\
    fold_left (fun a c => (10 * a + Z.of_N (c - 48))%Z) ds 0%Z = Z.of_N n /\
    (hd 0 ds = 48 -> ds = [48] /\ n = 0).
Proof.
  unfold decimal.
  destruct (digits_of_pos_spec (N.to_nat (N.log2 n)) n []) as (ds & Heq & H).
  - destruct (N.eq_dec n 0) as [->|Hn]; [reflexivity|].
    replace (N.of_nat (S (N.to_nat (N.log2 n)))) with (N.succ (N.log2 n)) by lia.
    apply N.log2_spec. lia.
  - exists ds. rewrite Heq, app_nil_r. split; [reflexivity | exact H].
Qed.


Lemma transform_ascii (py : interp) (s : ustring) :
  Forall (fun c => c < 127) s -> transform_decimal_and_space py s = s.
Proof.
  induction 1 as [|c s Hc Hs IH]; [reflexivity|].
  cbn [transform_decimal_and_space]. destruct (N.ltb_spec c 127); [|lia].
  rewrite IH. reflexivity.
Qed.

Lemma scan_digits_digits (ds : ustring) :
  Forall (fun c => is_digit c = true) ds ->
  forall (acc : Z) (count : nat),
    scan_digits false acc count ds
    = Some (fold_left (fun a c => (10 * a + Z.of_N (c - 48))%Z) ds acc,
            (count + length ds)%nat, []).
Proof.
  induction 1 as [|c ds Hc Hds IH]; intros acc count.
  - cbn [scan_digits fold_left length]. rewrite Nat.add_0_r. reflexivity.
  - cbn [scan_digits fold_left length]. rewrite Hc, IH.
    replace (S count + length ds)%nat with (count + S (length ds))%nat by lia.
    reflexivity.
Qed.

Lemma digits_ascii (ds : ustring) :
  Forall (fun c => is_digit c = true) ds -> Forall (fun c => c < 127) ds.
Proof.
  induction 1 as [|c ds Hc Hds IH]; constructor; [|exact IH].
  apply is_digit_spec in Hc. lia.
Qed.

Lemma digit_is_not (d c : N) :
  is_digit d = true -> is_digit c = false -> (d =? c) = false.
Proof.
  intros Hd Hc. apply N.eqb_neq. intros ->. congruence.
Qed.

(** [int()] reads the decimal text of an integer back, within the digit
    limit. *)
Lemma py_int_int_text (py : interp) (z : Z) :
  int_ok py z = true -> py_int py (int_text z) = Ok z.
Proof.
  intros Hok. unfold int_ok in Hok. apply negb_true_iff in Hok.
  destruct (decimal_spec (Z.abs_N z)) as (ds & Hds & Hne & Hdig & Hval & _).
  assert (length ds <= length (int_text z))%nat as Hlen.
  { unfold int_text. rewrite Hds. destruct (z <? 0)%Z; cbn [length]; lia. }
  rewrite Hds in Hok.
  assert (((640 <? length ds) && (0 <? int_max_str_digits py)
           && (int_max_str_digits py <? length ds))%nat = false) as Hlimit.
  { destruct (640 <? length ds)%nat eqn:E1; [|reflexivity].
    apply Nat.ltb_lt in E1.
    assert ((640 <? length (int_text z))%nat = true) as E2 by (apply Nat.ltb_lt; lia).
    rewrite E2 in Hok. exact Hok. }
  assert ((length ds =? 0)%nat = false) as Hzero
    by (destruct ds; [contradiction | reflexivity]).
  pose proof (scan_digits_digits ds Hdig 0%Z 0%nat) as Hscan.
  rewrite Hval in Hscan. cbn [Nat.add] in Hscan.
  destruct ds as [|d ds']; [contradiction|].
  pose proof (Forall_inv Hdig) as Hd.
  unfold py_int, int_text. rewrite Hds.
  destruct (Z.ltb_spec z 0) as [Hneg|Hpos].
  - rewrite transform_ascii.
    2:{ constructor; [reflexivity | apply digits_ascii; exact Hdig]. }
    cbn [skip_c_space]. change (c_isspace (ord "-")) with false. cbv iota.
    change (ord "-" =? ord "+") with false. change (ord "-" =? ord "-") with true.
    cbv iota. rewrite (digit_is_not d (ord "_") Hd eq_refl).
    rewrite Hscan, Hlimit, Hzero. cbn [skip_c_space]. f_equal. lia.
  - rewrite transform_ascii by (apply digits_ascii; exact Hdig).
    cbn [skip_c_space].
    assert (c_isspace d = false) as ->.
    { apply is_digit_spec in Hd. unfold c_isspace.
      destruct (N.leb_spec 9 d), (N.leb_spec d 13), (N.eqb_spec d 32);
        cbn [andb orb]; try reflexivity; lia. }
    rewrite (digit_is_not d (ord "+") Hd eq_refl), (digit_is_not d (ord "-") Hd eq_refl),
      (digit_is_not d (ord "_") Hd eq_refl).
    rewrite Hscan, Hlimit, Hzero. cbn [skip_c_space]. f_equal. lia.
Qed.

Lemma span_digits_digits (ds rest : ustring) :
  Forall (fun c => is_digit c = true) ds ->
  match rest with c :: _ => is_digit c = false | [] => True end ->
  span_digits (ds ++ rest) = (ds, rest).
Proof.
  intros Hds Hrest. induction Hds as [|c ds Hc Hds IH].
  - cbn [app]. destruct rest as [|c rest]; [reflexivity|].
    cbn [span_digits]. rewrite Hrest. reflexivity.
  - cbn [app span_digits]. rewrite Hc, IH. reflexivity.
Qed.

Lemma value_end_not_digit (rest : ustring) :
  value_end rest = true ->
  match rest with c :: _ => is_digit c = false | [] => True end.
Proof.
  destruct rest as [|c rest]; [auto|]. cbn [value_end].
  intros H. apply orb_true_iff in H as [H|H]; apply N.eqb_eq in H; subst c; reflexivity.
Qed.

Lemma value_end_float_tail (rest : ustring) :
  value_end rest = true -> float_tail rest = false.
Proof.
  destruct rest as [|c [|d rest]]; try reflexivity. cbn [value_end].
  intros H. apply orb_true_iff in H as [H|H]; apply N.eqb_eq in H; subst c; reflexivity.
Qed.

(** [_match_number] reads the decimal text of an integer back. *)
Lemma match_number_int_text (py : interp) (z : Z) (rest : ustring) :
  int_ok py z = true -> value_end rest = true ->
  match_number py (int_text z ++ rest) = Ok (VInt z, rest).
Proof.
  intros Hok Hrest. pose proof (py_int_int_text py z Hok) as Hint.
  unfold int_text in *.
  destruct (decimal_spec (Z.abs_N z)) as (ds & Hds & Hne & Hdig & _ & Hhd).
  rewrite Hds in *. destruct ds as [|d ds']; [contradiction|].
  pose proof (Forall_inv Hdig) as Hd. pose proof (Forall_inv_tail Hdig) as Hds'.
  pose proof (digit_is_not d (ord "-") Hd eq_refl) as Hminus.
  unfold match_number.
  assert (forall sign,
    (let '(digits, rest0) :=
       if d =? ord "0" then ([d], ds' ++ rest)
       else if is_digit d then let (ds0, rest0) := span_digits (ds' ++ rest) in (d :: ds0, rest0)
       else ([], d :: ds' ++ rest) in
     match digits with
     | [] => Raise JSONDecodeError
     | _ :: _ =>
         if float_tail rest0 then Raise float_not_modelled
         else let* z0 := py_int py (sign ++ digits) in Ok (VInt z0, rest0)
     end) = let* z0 := py_int py (sign ++ d :: ds') in Ok (VInt z0, rest)) as Hbody.
  { intros sign. destruct (N.eqb_spec d (ord "0")) as [E|_].
    - destruct (Hhd E) as [Heq _]. injection Heq as Heq. subst ds'. cbn [app].
      rewrite value_end_float_tail by exact Hrest. reflexivity.
    - rewrite Hd.
      rewrite (span_digits_digits ds' rest Hds' (value_end_not_digit rest Hrest)).
      rewrite value_end_float_tail by exact Hrest. reflexivity. }
  destruct (z <? 0)%Z.
  - cbn [app]. change (ord "-" =? ord "-") with true. cbv iota.
    rewrite (Hbody [ord "-"]). cbn [app]. rewrite Hint. reflexivity.
  - cbn [app]. rewrite Hminus. rewrite (Hbody []). cbn [app]. rewrite Hint. reflexivity.
Qed.


(** ** Objects *)

(** Induction on objects, with the property known of the members of a list
    and of the values of a dictionary. *)
Lemma value_ind2 (P : value -> Prop) :
  P VNone ->
  (forall b, P (VBool b)) ->
  (forall z, P (VInt z)) ->
  (forall s, P (VStr s)) ->
  (forall l, Forall P l -> P (VList l)) ->
  (forall d, Forall (fun kv => P kv.2) d -> P (VDict d)) ->
  forall v, P v.
Proof.
  intros HNone HBool HInt HStr HList HDict.
  fix IH 1. intros [| b | z | s | l | d].
  - exact HNone.
  - apply HBool.
  - apply HInt.
  - apply HStr.
  - apply HList. induction l as [|x l IHl]; constructor; [apply IH | exact IHl].
  - apply HDict. induction d as [|[k x] d IHd]; constructor; [apply IH | exact IHd].
Qed.

Lemma size_pos (v : value) : (1 <= size v)%nat.
Proof. destruct v; cbn [size]; lia. Qed.

Lemma skip_ws_indent (k : nat) (s : ustring) :
  skip_ws (repeat (ord " ") k ++ s) = skip_ws s.
Proof. induction k as [|k IH]; [reflexivity | exact IH]. Qed.

Lemma skip_ws_newline_indent (level : nat) (s : ustring) :
  skip_ws (newline_indent level ++ s) = skip_ws s.
Proof. unfold newline_indent. cbn [app skip_ws json_ws]. apply skip_ws_indent. Qed.

Lemma int_text_head (z : Z) :
  exists c t, int_text z = c :: t /\ (c = ord "-" \/ is_digit c = true) /\
              (c = ord "-" -> exists d t', t = d :: t' /\ is_digit d = true).
Proof.
  unfold int_text.
  destruct (decimal_spec (Z.abs_N z)) as (ds & -> & Hne & Hdig & _).
  destruct ds as [|d ds]; [contradiction|]. pose proof (Forall_inv Hdig) as Hd.
  destruct (z <? 0)%Z.
  - exists (ord "-"), (d :: ds). split; [reflexivity|]. split; [auto|].
    intros _. eauto.
  - exists d, ds. split; [reflexivity|]. split; [auto|].
    intros ->. discriminate.
Qed.

Lemma json_text_opens (v : value) (level : nat) (rest : ustring) :
  opens_value (json_text v level ++ rest).
Proof.
  destruct v as [| [|] | z | s | [|x l] | [|[k x] d]]; cbn [json_text];
    try (cbn; repeat split; discriminate).
  destruct (int_text_head z) as (c & t & -> & [->|Hc] & _); cbn [app opens_value].
  - repeat split; discriminate.
  - apply is_digit_spec in Hc. unfold json_ws.
    repeat split; try (intros ->; cbv in Hc; destruct Hc as [H1 H2]; congruence).
    destruct (N.eqb_spec c 32), (N.eqb_spec c 9), (N.eqb_spec c 10), (N.eqb_spec c 13);
      cbn [orb]; try reflexivity; lia.
Qed.

Lemma skip_ws_opens (s : ustring) : opens_value s -> skip_ws s = s.
Proof.
  destruct s as [|c s]; [contradiction|]. intros [H _]. cbn [skip_ws]. rewrite H.
  reflexivity.
Qed.


Lemma scan_once_eq (py : interp) (fuel' : nat) (c : N) (s' : ustring) :
  scan_once py (S fuel') (c :: s') =
  if c =? 34 then
    let* (str, rest) := scanstring s' in
    Ok (VStr str, rest)
  else if c =? ord "{" then
    match skip_ws s' with
    | c1 :: rest1 =>
        if c1 =? ord "}" then Ok (VDict [], rest1)
        else parse_members (scan_once py fuel') fuel' (c1 :: rest1) []
    | [] => Raise JSONDecodeError
    end
  else if c =? ord "[" then
    match skip_ws s' with
    | c1 :: rest1 =>
        if c1 =? ord "]" then Ok (VList [], rest1)
        else parse_elements (scan_once py fuel') fuel' (c1 :: rest1) []
    | [] => Raise JSONDecodeError
    end
  else if startswith (u "null") (c :: s') then Ok (VNone, skipn 4 (c :: s'))
  else if startswith (u "true") (c :: s') then Ok (VBool true, skipn 4 (c :: s'))
  else if startswith (u "false") (c :: s') then Ok (VBool false, skipn 5 (c :: s'))
  else if startswith (u "NaN") (c :: s') || startswith (u "Infinity") (c :: s')
          || startswith (u "-Infinity") (c :: s')
  then Raise float_not_modelled
  else match_number py (c :: s').
Proof. reflexivity. Qed.

Lemma startswith_mismatch (p : ustring) (c : N) (s : ustring) :
  match p with a :: _ => a =? c | [] => true end = false ->
  startswith p (c :: s) = false.
Proof.
  destruct p as [|a p]; [discriminate|]. intros H. cbn [startswith]. rewrite H.
  reflexivity.
Qed.

Lemma digit_is_not' (d c : N) :
  is_digit d = true -> is_digit c = false -> (c =? d) = false.
Proof. intros Hd Hc. rewrite N.eqb_sym. apply digit_is_not; assumption. Qed.

(** On the text of an integer [scan_once] goes to [_match_number]. *)
Lemma scan_once_int_text (py : interp) (fuel' : nat) (z : Z) (rest : ustring) :
  scan_once py (S fuel') (int_text z ++ rest) = match_number py (int_text z ++ rest).
Proof.
  destruct (int_text_head z) as (c & t & -> & Hc & Hminus). cbn [app].
  rewrite scan_once_eq. destruct Hc as [->|Hc].
  - destruct (Hminus eq_refl) as (d & t' & -> & Hd). cbn [app].
    change (ord "-" =? 34) with false. change (ord "-" =? ord "{") with false.
    change (ord "-" =? ord "[") with false. cbv iota.
    rewrite !startswith_mismatch by reflexivity. cbn [orb].
    assert (startswith (u "-Infinity") (ord "-" :: d :: t' ++ rest) = false) as ->.
    { change (u "-Infinity") with (ord "-" :: u "Infinity"). cbn [startswith].
      rewrite startswith_mismatch; [reflexivity|].
      apply digit_is_not'; [exact Hd | reflexivity]. }
    reflexivity.
  - rewrite (digit_is_not c 34 Hc eq_refl), (digit_is_not c (ord "{") Hc eq_refl),
      (digit_is_not c (ord "[") Hc eq_refl).
    rewrite !startswith_mismatch by (apply digit_is_not'; [exact Hc | reflexivity]).
    reflexivity.
Qed.

Lemma list_sum_ge_length (l : list value) :
  (length l <= list_sum (map size l))%nat.
Proof.
  induction l as [|x l IH]; [reflexivity|].
  change (list_sum (map size (x :: l))) with (size x + list_sum (map size l))%nat.
  cbn [length]. pose proof (size_pos x). lia.
Qed.

Lemma skip_ws_comma (s : ustring) : skip_ws (ord "," :: s) = ord "," :: s.
Proof. reflexivity. Qed.

(** The loop over the elements of a list, started on the text of the
    elements [x :: l] not yet read. *)
Lemma parse_elements_text (py : interp) (fuel level : nat) (rest : ustring) :
  forall (l : list value) (x : value) (n : nat) (acc : list value),
    (length l < n)%nat ->
    Forall (fun y => forall rest',
              value_end rest' = true ->
              scan_once py fuel (json_text y (S level) ++ rest') = Ok (y, rest'))
           (x :: l) ->
    parse_elements (scan_once py fuel) n
      (json_text x (S level)
       ++ items_text (fun y => json_text y (S level))
            (ord "," :: newline_indent (S level)) false l
       ++ newline_indent level ++ u "]" ++ rest) acc
    = Ok (VList (acc ++ x :: l), rest).
Proof.
  induction l as [|y l IH]; intros x n acc Hn Hall.
  - destruct n as [|n]; [cbn [length] in Hn; lia|].
    cbn [items_text app parse_elements].
    rewrite (Forall_inv Hall) by reflexivity. cbn [rbind].
    rewrite skip_ws_newline_indent. reflexivity.
  - destruct n as [|n]; [cbn [length] in Hn; lia|].
    cbn [items_text parse_elements]. rewrite <- !app_assoc.
    rewrite (Forall_inv Hall) by reflexivity. cbn [rbind app].
    rewrite skip_ws_comma. change (ord "," =? ord "]") with false.
    change (ord "," =? ord ",") with true. cbv iota.
    rewrite skip_ws_newline_indent, skip_ws_opens by apply json_text_opens.
    rewrite IH.
    + rewrite <- app_assoc. reflexivity.
    + cbn [length] in Hn. lia.
    + exact (Forall_inv_tail Hall).
Qed.


Lemma dict_set_fresh {V} (k : ustring) (v : V) (d : list (ustring * V)) :
  ~ In k (map fst d) -> dict_set k v d = d ++ [(k, v)].
Proof.
  induction d as [|[k' v'] d IH]; intros Hk; [reflexivity|].
  cbn [dict_set app]. cbn [map fst In] in Hk.
  destruct (ustring_eqb k' k) eqn:E.
  - apply ustring_eqb_eq in E. exfalso. apply Hk. left. exact E.
  - rewrite IH; [reflexivity|]. intros Hin. apply Hk. right. exact Hin.
Qed.

Lemma unique_keys_NoDup (ks : list ustring) : unique_keys ks = true -> List.NoDup ks.
Proof.
  induction ks as [|k ks IH]; intros H; constructor.
  - cbn [unique_keys] in H. apply andb_true_iff in H as [H _].
    apply negb_true_iff in H. intros Hin.
    assert (existsb (ustring_eqb k) ks = true) as Hex.
    { apply existsb_exists. exists k. split; [exact Hin | apply ustring_eqb_refl]. }
    congruence.
  - apply IH. cbn [unique_keys] in H. apply andb_true_iff in H as [_ H]. exact H.
Qed.

Lemma encode_basestring_ascii_eq (k : ustring) (s : ustring) :
  encode_basestring_ascii k ++ s = 34 :: flat_map escape_char k ++ 34 :: s.
Proof.
  unfold encode_basestring_ascii. cbn [app]. rewrite <- app_assoc. reflexivity.
Qed.

Lemma skip_ws_quote (s : ustring) : skip_ws (34 :: s) = 34 :: s.
Proof. reflexivity. Qed.

(** The loop over the members of a dictionary, started on the text of the
    members [(k, x) :: d] not yet read. *)
Lemma parse_members_text (py : interp) (fuel level : nat) (rest : ustring) :
  forall (d : list (ustring * value)) (k : ustring) (x : value) (n : nat)
         (acc : list (ustring * value)),
    (length d < n)%nat ->
    Forall (fun kv => str_ok kv.1 = true) ((k, x) :: d) ->
    Forall (fun kv => forall rest',
              value_end rest' = true ->
              scan_once py fuel (json_text kv.2 (S level) ++ rest') = Ok (kv.2, rest'))
           ((k, x) :: d) ->
    List.NoDup (map fst acc ++ k :: map fst d) ->
    parse_members (scan_once py fuel) n
      (encode_basestring_ascii k ++ u ": " ++ json_text x (S level)
       ++ pairs_text (fun y => json_text y (S level))
            (ord "," :: newline_indent (S level)) false d
       ++ newline_indent level ++ u "}" ++ rest) acc
    = Ok (VDict (acc ++ (k, x) :: d), rest).
Proof.
  induction d as [|[k' y] d IH]; intros k x n acc Hn Hkeys Hall Hnd.
  - destruct n as [|n]; [cbn [length] in Hn; lia|].
    rewrite encode_basestring_ascii_eq. cbn [pairs_text app parse_members].
    change (34 =? 34) with true. cbv iota.
    rewrite scanstring_encoded by exact (Forall_inv Hkeys). cbn [rbind].
    change (u ": " ++ json_text x (S level) ++ newline_indent level ++ u "}" ++ rest)
      with (ord ":" :: 32 :: json_text x (S level) ++ newline_indent level ++ u "}" ++ rest).
    change (skip_ws (ord ":" :: ?s)) with (ord ":" :: s).
    change (ord ":" =? ord ":") with true. cbv iota.
    change (skip_ws (32 :: ?s)) with (skip_ws s).
    rewrite skip_ws_opens by apply json_text_opens.
    rewrite (Forall_inv Hall) by reflexivity. cbn [rbind fst snd].
    rewrite skip_ws_newline_indent.
    rewrite dict_set_fresh.
    + reflexivity.
    + apply List.NoDup_remove_2 in Hnd. intros Hin. apply Hnd.
      apply in_or_app. left. exact Hin.
  - destruct n as [|n]; [cbn [length] in Hn; lia|].
    rewrite encode_basestring_ascii_eq. cbn [pairs_text app parse_members].
    change (34 =? 34) with true. cbv iota.
    rewrite scanstring_encoded by exact (Forall_inv Hkeys). cbn [rbind].
    rewrite <- !app_assoc.
    match goal with
    | |- context [skip_ws (u ": " ++ ?s)] =>
        change (skip_ws (u ": " ++ s)) with (ord ":" :: 32 :: s)
    end.
    change (ord ":" =? ord ":") with true. cbv iota.
    match goal with
    | |- context [skip_ws (32 :: ?s)] => change (skip_ws (32 :: s)) with (skip_ws s)
    end.
    rewrite skip_ws_opens by apply json_text_opens.
    rewrite (Forall_inv Hall) by reflexivity. cbn [rbind fst snd app].
    rewrite skip_ws_comma. change (ord "," =? ord "}") with false.
    change (ord "," =? ord ",") with true. cbv iota.
    rewrite skip_ws_newline_indent, encode_basestring_ascii_eq, skip_ws_quote.
    rewrite <- encode_basestring_ascii_eq.
    rewrite dict_set_fresh.
    2:{ apply List.NoDup_remove_2 in Hnd. intros Hin. apply Hnd.
        apply in_or_app. left. exact Hin. }
    rewrite IH.
    + rewrite <- app_assoc. reflexivity.
    + cbn [length] in Hn. lia.
    + exact (Forall_inv_tail Hkeys).
    + exact (Forall_inv_tail Hall).
    + rewrite map_app. cbn [map fst]. rewrite <- app_assoc. exact Hnd.
Qed.


Lemma size_In (y : value) (l : list value) :
  In y l -> (size y <= list_sum (map size l))%nat.
Proof.
  induction l as [|x l IH]; [contradiction|]. intros [<-|Hin];
    change (list_sum (map size (x :: l))) with (size x + list_sum (map size l))%nat.
  - lia.
  - specialize (IH Hin). lia.
Qed.

Lemma size_In_dict (kv : ustring * value) (d : list (ustring * value)) :
  In kv d -> (size kv.2 <= list_sum (map (fun kv => size kv.2) d))%nat.
Proof.
  induction d as [|x d IH]; [contradiction|]. intros [<-|Hin];
    change (list_sum (map (fun kv => size kv.2) (x :: d)))
      with (size x.2 + list_sum (map (fun kv => size kv.2) d))%nat.
  - lia.
  - specialize (IH Hin). lia.
Qed.

Lemma list_sum_ge_length_dict (d : list (ustring * value)) :
  (length d <= list_sum (map (fun kv => size kv.2) d))%nat.
Proof.
  induction d as [|x d IH]; [reflexivity|].
  change (list_sum (map (fun kv => size kv.2) (x :: d)))
    with (size x.2 + list_sum (map (fun kv => size kv.2) d))%nat.
  cbn [length]. pose proof (size_pos x.2). lia.
Qed.

Lemma opens_value_inv (s : ustring) :
  opens_value s ->
  exists c t, s = c :: t /\ (c =? ord "]") = false /\ (c =? ord "}") = false.
Proof.
  destruct s as [|c t]; [contradiction|]. intros (_ & H1 & H2).
  exists c, t. repeat split; apply N.eqb_neq; assumption.
Qed.

(** [scan_once] reads the text of an object back, whatever the nesting
    level it was written at, given fuel for the objects in it. *)
Lemma scan_once_json_text (py : interp) (v : value) :
  value_ok py v = true ->
  forall (level : nat) (rest : ustring) (fuel : nat),
    (size v <= fuel)%nat -> value_end rest = true ->
    scan_once py fuel (json_text v level ++ rest) = Ok (v, rest).
Proof.
  induction v as [| b | z | s | l IH | d IH] using value_ind2;
    intros Hok level rest fuel Hfuel Hrest;
    (destruct fuel as [|fuel']; [pose proof (size_pos VNone); cbn [size] in Hfuel; lia|]).
  - reflexivity.
  - destruct b; reflexivity.
  - cbn [json_text]. rewrite scan_once_int_text.
    apply match_number_int_text; assumption.
  - cbn [json_text]. rewrite encode_basestring_ascii_eq, scan_once_eq.
    change (34 =? 34) with true. cbv iota.
    rewrite scanstring_encoded by exact Hok. reflexivity.
  - destruct l as [|x l]; [reflexivity|].
    cbn [json_text items_text]. cbn [app]. rewrite scan_once_eq.
    change (ord "[" =? 34) with false. change (ord "[" =? ord "{") with false.
    change (ord "[" =? ord "[") with true. cbv iota.
    rewrite <- !app_assoc. rewrite skip_ws_newline_indent.
    rewrite skip_ws_opens by apply json_text_opens.
    match goal with
    | |- match ?s with _ => _ end = _ =>
        destruct (opens_value_inv s (json_text_opens _ _ _)) as (c & t & Hs & Hc & _);
        rewrite Hs, Hc, <- Hs
    end.
    cbn [size] in Hfuel. pose proof (list_sum_ge_length (x :: l)) as Hlen.
    cbn [length] in Hlen.
    apply (parse_elements_text py fuel' level rest l x fuel' []); [lia|].
    cbn [value_ok] in Hok. rewrite forallb_forall in Hok.
    rewrite List.Forall_forall in IH |- *. intros y Hy rest' Hrest'.
    apply IH; [exact Hy | apply Hok; exact Hy | | exact Hrest'].
    pose proof (size_In y (x :: l) Hy). lia.
  - destruct d as [|[k x] d]; [reflexivity|].
    cbn [json_text pairs_text]. cbn [app]. rewrite scan_once_eq.
    change (ord "{" =? 34) with false. change (ord "{" =? ord "{") with true. cbv iota.
    rewrite <- !app_assoc. rewrite skip_ws_newline_indent.
    rewrite encode_basestring_ascii_eq, skip_ws_quote.
    change (34 =? ord "}") with false. cbv iota.
    rewrite <- encode_basestring_ascii_eq.
    cbn [size] in Hfuel. pose proof (list_sum_ge_length_dict ((k, x) :: d)) as Hlen.
    cbn [length] in Hlen.
    cbn [value_ok] in Hok. apply andb_true_iff in Hok as [Hok Hkeys].
    rewrite forallb_forall in Hok.
    apply (parse_members_text py fuel' level rest d k x fuel' []); [lia| | |].
    + rewrite List.Forall_forall. intros kv Hkv.
      specialize (Hok kv Hkv). apply andb_true_iff in Hok as [Hok _]. exact Hok.
    + rewrite List.Forall_forall in IH |- *. intros kv Hkv rest' Hrest'.
      specialize (Hok kv Hkv). apply andb_true_iff in Hok as [_ Hok].
      apply IH; [exact Hkv | exact Hok | | exact Hrest'].
      pose proof (size_In_dict kv ((k, x) :: d) Hkv). lia.
    + apply unique_keys_NoDup in Hkeys. exact Hkeys.
Qed.


(** ** The encoder writes [json_text] *)

Lemma int_repr_int_text (py : interp) (z : Z) :
  int_ok py z = true -> int_repr py z = Ok (int_text z).
Proof.
  unfold int_ok, int_repr, int_text. intros H. apply negb_true_iff in H.
  rewrite H. reflexivity.
Qed.

Lemma scalar_chunk_json_text (py : interp) (v : value) (level : nat) :
  is_scalar v = true -> value_ok py v = true ->
  scalar_chunk py v = Ok (json_text v level).
Proof.
  destruct v as [| [|] | z | s | l | d]; intros Hs Hok; try discriminate Hs;
    try reflexivity.
  apply int_repr_int_text. exact Hok.
Qed.

Lemma write_chunks_items (py : interp) (level : nat) (opening separator : ustring) :
  forall (l : list value),
    Forall (fun x => forall tail acc,
              write_chunks (iterencode py x (S level) ++ tail) acc
              = write_chunks tail (acc ++ json_text x (S level))) l ->
    forallb (value_ok py) l = true ->
    forall (first : bool) (tail : list (result ustring)) (acc : ustring),
      write_chunks
        (iterencode_items py (fun x => iterencode py x (S level)) opening separator first l
         ++ tail) acc
      = write_chunks tail
          (acc ++ match l with
                  | [] => []
                  | x :: l' =>
                      (if first then opening else separator) ++ json_text x (S level)
                      ++ items_text (fun y => json_text y (S level)) separator false l'
                  end).
Proof.
  induction l as [|x l IH]; intros Hall Hok first tail acc.
  - cbn [iterencode_items app]. rewrite app_nil_r. reflexivity.
  - cbn [forallb] in Hok. apply andb_true_iff in Hok as [Hx Hl].
    cbn [iterencode_items]. rewrite <- app_assoc.
    set (buf := if first then opening else separator).
    assert (forall tl,
              write_chunks
                (match x with
                 | VList _ | VDict _ => Ok buf :: iterencode py x (S level)
                 | _ => [with_prefix buf (scalar_chunk py x)]
                 end ++ tl) acc
              = write_chunks tl (acc ++ buf ++ json_text x (S level))) as Hhead.
    { intros tl. destruct (is_scalar x) eqn:Es.
      - rewrite app_assoc.
        destruct x; try discriminate Es;
          rewrite (scalar_chunk_json_text py _ (S level) Es Hx);
          cbn [with_prefix rbind app write_chunks]; rewrite <- app_assoc; reflexivity.
      - destruct x; try discriminate Es; cbn [app write_chunks];
          rewrite (Forall_inv Hall), <- app_assoc; reflexivity. }
    rewrite Hhead, (IH (Forall_inv_tail Hall) Hl). f_equal.
    rewrite <- !app_assoc. destruct l; reflexivity.
Qed.

Lemma write_chunks_pairs (py : interp) (level : nat) (separator : ustring) :
  forall (d : list (ustring * value)),
    Forall (fun kv => forall tail acc,
              write_chunks (iterencode py kv.2 (S level) ++ tail) acc
              = write_chunks tail (acc ++ json_text kv.2 (S level))) d ->
    forall (first : bool) (tail : list (result ustring)) (acc : ustring),
      write_chunks
        (iterencode_pairs (fun x => iterencode py x (S level)) separator first d ++ tail)
        acc
      = write_chunks tail
          (acc ++ pairs_text (fun y => json_text y (S level)) separator first d).
Proof.
  induction d as [|[k x] d IH]; intros Hall first tail acc.
  - cbn [iterencode_pairs pairs_text app]. rewrite app_nil_r. reflexivity.
  - cbn [iterencode_pairs pairs_text].
    assert (forall tl,
              write_chunks ((if first then [] else [Ok separator]) ++ tl) acc
              = write_chunks tl (acc ++ (if first then [] else separator))) as Hsep.
    { intros tl. destruct first; cbn [app write_chunks]; [rewrite app_nil_r|];
        reflexivity. }
    rewrite <- app_assoc, Hsep. cbn [app write_chunks]. rewrite <- app_assoc.
    rewrite (Forall_inv Hall). cbn [snd]. rewrite (IH (Forall_inv_tail Hall)).
    f_equal. rewrite <- !app_assoc. reflexivity.
Qed.

(** The chunks of the encoder, written one after the other, are the text
    of the object. *)
Lemma write_chunks_iterencode (py : interp) (v : value) :
  value_ok py v = true ->
  forall (level : nat) (tail : list (result ustring)) (acc : ustring),
    write_chunks (iterencode py v level ++ tail) acc
    = write_chunks tail (acc ++ json_text v level).
Proof.
  induction v as [| b | z | s | l IH | d IH] using value_ind2;
    intros Hok level tail acc.
  - reflexivity.
  - destruct b; reflexivity.
  - cbn [iterencode scalar_chunk json_text]. rewrite int_repr_int_text by exact Hok.
    reflexivity.
  - reflexivity.
  - destruct l as [|x l]; [reflexivity|].
    cbn [iterencode json_text]. rewrite <- app_assoc.
    cbn [value_ok] in Hok.
    rewrite write_chunks_items.
    + cbn [app write_chunks items_text]. f_equal. rewrite <- !app_assoc.
      cbn [app]. rewrite <- ?app_assoc. reflexivity.
    + rewrite List.Forall_forall in IH |- *. intros y Hy tl a. apply IH; [exact Hy|].
      rewrite forallb_forall in Hok. apply Hok. exact Hy.
    + exact Hok.
  - destruct d as [|[k x] d]; [reflexivity|].
    cbn [iterencode json_text].
    cbn [value_ok] in Hok. apply andb_true_iff in Hok as [Hok _].
    rewrite forallb_forall in Hok.
    change (write_chunks ((Ok (u "{") :: Ok (newline_indent (S level)) :: ?c) ++ tail) acc)
      with (write_chunks (c ++ tail) ((acc ++ u "{") ++ newline_indent (S level))).
    rewrite <- app_assoc, write_chunks_pairs.
    + cbn [app write_chunks]. f_equal. rewrite <- !app_assoc.
      cbn [app]. rewrite <- ?app_assoc. reflexivity.
    + rewrite List.Forall_forall in IH |- *. intros kv Hkv tl a. apply IH; [exact Hkv|].
      specialize (Hok kv Hkv). apply andb_true_iff in Hok as [_ Hok]. exact Hok.
Qed.

Lemma write_chunks_json_text (py : interp) (v : value) :
  value_ok py v = true ->
  write_chunks (iterencode py v 0) [] = (json_text v 0, None).
Proof.
  intros Hok. rewrite <- (app_nil_r (iterencode py v 0)).
  rewrite write_chunks_iterencode by exact Hok. reflexivity.
Qed.


(** ** [json.loads] on the text of an object *)

Lemma items_text_length (level : nat) (separator : ustring) (l : list value) :
  Forall (fun x => forall level, (size x <= length (json_text x level))%nat) l ->
  forall first,
    (list_sum (map size l)
     <= length (items_text (fun y => json_text y level) separator first l))%nat.
Proof.
  induction 1 as [|x l Hx _ IH]; intros first; [cbn; lia|].
  change (list_sum (map size (x :: l))) with (size x + list_sum (map size l))%nat.
  cbn [items_text]. rewrite !length_app.
  specialize (Hx level). specialize (IH false). lia.
Qed.

Lemma pairs_text_length (level : nat) (separator : ustring) (d : list (ustring * value)) :
  Forall (fun kv => forall level, (size kv.2 <= length (json_text kv.2 level))%nat) d ->
  forall first,
    (list_sum (map (fun kv => size kv.2) d)
     <= length (pairs_text (fun y => json_text y level) separator first d))%nat.
Proof.
  induction 1 as [|[k x] d Hx _ IH]; intros first; [cbn; lia|].
  change (list_sum (map (fun kv => size kv.2) ((k, x) :: d)))
    with (size x + list_sum (map (fun kv => size kv.2) d))%nat.
  cbn [pairs_text]. rewrite !length_app.
  specialize (Hx level). cbn [snd] in Hx. specialize (IH false). lia.
Qed.

(** A text is at least as long as its object has objects in it. *)
Lemma size_le_length (v : value) :
  forall level, (size v <= length (json_text v level))%nat.
Proof.
  induction v as [| b | z | s | l IH | d IH] using value_ind2; intros level.
  - cbn. lia.
  - destruct b; cbn; lia.
  - cbn [json_text size]. destruct (int_text_head z) as (c & t & -> & _).
    cbn [length]. lia.
  - cbn [json_text size]. unfold encode_basestring_ascii. cbn [length]. lia.
  - destruct l as [|x l]; [cbn; lia|].
    cbn [json_text size]. cbn [length]. rewrite !length_app.
    pose proof (items_text_length (S level) (ord "," :: newline_indent (S level))
                  (x :: l) IH true). lia.
  - destruct d as [|kv d]; [cbn; lia|].
    cbn [json_text size]. cbn [length]. rewrite !length_app.
    pose proof (pairs_text_length (S level) (ord "," :: newline_indent (S level))
                  (kv :: d) IH true). lia.
Qed.

Lemma json_text_no_bom (v : value) (level : nat) :
  startswith [0xfeff] (json_text v level) = false.
Proof.
  destruct v as [| [|] | z | s | [|x l] | [|[k x] d]]; try reflexivity.
  cbn [json_text]. destruct (int_text_head z) as (c & t & -> & [->|Hc] & _);
    [reflexivity|].
  apply startswith_mismatch. apply digit_is_not'; [exact Hc | reflexivity].
Qed.

(** [json.loads] gives back the object whose text it reads. *)
Lemma json_loads_json_text (py : interp) (v : value) :
  value_ok py v = true -> json_loads py (json_text v 0) = Ok v.
Proof.
  intros Hok. unfold json_loads. rewrite json_text_no_bom.
  rewrite <- (app_nil_r (json_text v 0)) at 2.
  rewrite skip_ws_opens by apply json_text_opens.
  rewrite scan_once_json_text; [reflexivity | exact Hok | | reflexivity].
  pose proof (size_le_length v 0). lia.
Qed.

(** ** Saving and loading *)

Section SaveLoad.
Import ClientConfig.



End SaveLoad.

(** * Further properties of the decoder *)

(** ** [strip] *)

Lemma lstrip_blanks (l s : ustring) :
  forallb py_isspace l = true -> lstrip (l ++ s) = lstrip s.
Proof.
  induction l as [|c l IH]; intros H; [reflexivity|].
  cbn [forallb] in H. apply andb_true_iff in H as [Hc Hl].
  cbn [app lstrip]. rewrite Hc. apply IH. exact Hl.
Qed.

Lemma lstrip_all_blank (l : ustring) : forallb py_isspace l = true -> lstrip l = [].
Proof.
  intros H. rewrite <- (app_nil_r l). rewrite lstrip_blanks by exact H. reflexivity.
Qed.

Lemma lstrip_app (s r : ustring) :
  lstrip (s ++ r) = if forallb py_isspace s then lstrip r else lstrip s ++ r.
Proof.
  induction s as [|c s IH]; [reflexivity|].
  cbn [app lstrip forallb]. destruct (py_isspace c); [exact IH | reflexivity].
Qed.

Lemma forallb_rev {A} (p : A -> bool) (l : list A) : forallb p (rev l) = forallb p l.
Proof.
  induction l as [|x l IH]; [reflexivity|].
  cbn [rev forallb]. rewrite forallb_app, IH. cbn [forallb].
  rewrite andb_true_r. apply andb_comm.
Qed.

Lemma rstrip_blanks (s r : ustring) :
  forallb py_isspace r = true -> rstrip (s ++ r) = rstrip s.
Proof.
  intros H. unfold rstrip. rewrite rev_app_distr.
  rewrite lstrip_blanks by (rewrite forallb_rev; exact H). reflexivity.
Qed.

Lemma strip_blanks (l s r : ustring) :
  forallb py_isspace l = true -> forallb py_isspace r = true ->
  strip (l ++ s ++ r) = strip s.
Proof.
  intros Hl Hr. unfold strip. rewrite lstrip_blanks by exact Hl.
  rewrite lstrip_app. destruct (forallb py_isspace s) eqn:Hs.
  - rewrite (lstrip_all_blank r Hr), (lstrip_all_blank s Hs). reflexivity.
  - apply rstrip_blanks. exact Hr.
Qed.

Lemma rstrip_last (s : ustring) (c : N) :
  py_isspace c = false -> rstrip (s ++ [c]) = s ++ [c].
Proof.
  intros Hc. unfold rstrip. rewrite rev_app_distr. cbn [rev app lstrip].
  rewrite Hc. cbn [rev]. rewrite rev_involutive. reflexivity.
Qed.

(** X1. [parse] does not see the blanks around a link: with blank
    characters before and after it, a text is decoded, taken for no link or
    refused as it is without them. *)
Theorem X1_parse_ignores_surrounding_blanks (py : interp) (l url r : ustring) :
  forallb py_isspace l = true -> forallb py_isspace r = true ->
  parse py (l ++ url ++ r) = parse py url.
Proof.
  intros Hl Hr. unfold parse. rewrite (strip_blanks l url r Hl Hr). reflexivity.
Qed.

Lemma X1_witness :
  parse default_interp (u "  " ++ u "vless://id@example.com:443#home" ++ [9; 10; 0x3000])
  = parse default_interp (u "vless://id@example.com:443#home").
Proof.
  apply (X1_parse_ignores_surrounding_blanks default_interp (u "  ")
           (u "vless://id@example.com:443#home") [9; 10; 0x3000]); reflexivity.
Defined.

(** X2. [parse] returns [None] exactly for the texts that, once stripped,
    do not start with [vless://]; for the others it returns a dictionary or
    raises. The scheme is matched as written, in lower case. *)
Theorem X2_parse_None_iff_other_scheme (py : interp) (url : ustring) :
  (parse py url = Ok VNone <-> startswith (u "vless://") (strip url) = false) /\
  parse py (u "VLESS://id@example.com:443") = Ok VNone /\
  parse py [] = Ok VNone.
Proof.
  split; [|split; reflexivity]. split.
  - intros H. destruct (startswith (u "vless://") (strip url)) eqn:E; [|reflexivity].
    unfold parse in H. rewrite E in H.
    destruct (_parse_vless py (strip url)); discriminate H.
  - apply parse_other_scheme.
Qed.

(** ** A link and its parts *)

Lemma link_body_scheme (s : ustring) : link_body (u "vless://" ++ s) = link_body s.
Proof. reflexivity. Qed.

Lemma replace_from_absent (old new s : ustring) :
  occurs old s = false -> replace_from old new 0 s = s.
Proof.
  induction s as [|c s IH]; intros H; [reflexivity|].
  cbn [occurs] in H. apply orb_false_iff in H as [H1 H2].
  cbn [replace_from]. rewrite H1, (IH H2). reflexivity.
Qed.

Lemma link_body_absent (s : ustring) :
  occurs (u "vless://") s = false -> link_body s = s.
Proof. intros H. unfold link_body, replace. cbn [u]. apply replace_from_absent. exact H. Qed.

Lemma startswith_In (p s : ustring) (c : N) :
  startswith p s = true -> In c p -> In c s.
Proof.
  revert s. induction p as [|a p IH]; intros s H Hin; [contradiction|].
  destruct s as [|b s]; [discriminate|]. cbn [startswith] in H.
  apply andb_true_iff in H as [Hab Hp]. apply N.eqb_eq in Hab. subst b.
  destruct Hin as [->|Hin]; [left; reflexivity | right; apply (IH s Hp Hin)].
Qed.

(** A text that lacks one character of [p] does not hold [p]. *)
Lemma occurs_lacking (p s : ustring) (c : N) :
  In c p -> ~ In c s -> occurs p s = false.
Proof.
  intros Hp. induction s as [|b s IH]; intros Hs.
  - cbn [occurs]. destruct p; [contradiction | reflexivity].
  - cbn [occurs]. apply orb_false_iff. split.
    + destruct (startswith p (b :: s)) eqn:E; [|reflexivity].
      exfalso. apply Hs. apply (startswith_In p _ c E Hp).
    + apply IH. intros Hin. apply Hs. right. exact Hin.
Qed.

Lemma not_In_app {A} (x : A) (l1 l2 : list A) :
  ~ In x l1 -> ~ In x l2 -> ~ In x (l1 ++ l2).
Proof. intros H1 H2 H. apply in_app_or in H as [H|H]; auto. Qed.

Lemma not_In_cons {A} (x y : A) (l : list A) :
  x <> y -> ~ In x l -> ~ In x (y :: l).
Proof. intros Hxy Hl [H|H]; [apply Hxy; symmetry; exact H | apply Hl; exact H]. Qed.

(** The pieces [_parse_vless] cuts a written link into. *)
Lemma vless_link_pieces (uuid server port : ustring) (query fragment : option ustring) :
  ~ In (ord "?") uuid -> ~ In (ord "#") uuid ->
  ~ In (ord "?") server -> ~ In (ord "#") server ->
  ~ In (ord "?") port -> ~ In (ord "#") port ->
  match query with Some q => ~ In (ord "#") q | None => True end ->
  let url := vless_link uuid server port query fragment in
  occurs (u "vless://") (skipn 8 url) = false ->
  authority url = uuid ++ ord "@" :: server ++ ord ":" :: port /\
  query_text url = match query with Some q => q | None => [] end /\
  display_name url = match fragment with Some f => unquote f | None => u "VLESS" end.
Proof.
  intros Hu1 Hu2 Hs1 Hs2 Hp1 Hp2 Hq url Hocc.
  set (auth := uuid ++ ord "@" :: server ++ ord ":" :: port).
  assert (~ In (ord "?") auth) as Ha1.
  { apply not_In_app; [exact Hu1|]. apply not_In_cons; [discriminate|].
    apply not_In_app; [exact Hs1|]. apply not_In_cons; [discriminate | exact Hp1]. }
  assert (~ In (ord "#") auth) as Ha2.
  { apply not_In_app; [exact Hu2|]. apply not_In_cons; [discriminate|].
    apply not_In_app; [exact Hs2|]. apply not_In_cons; [discriminate | exact Hp2]. }
  set (front := auth ++ match query with Some q => ord "?" :: q | None => [] end).
  assert (~ In (ord "#") front) as Hf.
  { apply not_In_app; [exact Ha2|]. destruct query as [q|]; [|intros []].
    apply not_In_cons; [discriminate | exact Hq]. }
  assert (skipn 8 url
          = front ++ match fragment with Some f => ord "#" :: f | None => [] end) as Hbody.
  { subst url front auth. unfold vless_link. cbn [u skipn app list_ascii_of_string map].
    rewrite <- !app_assoc. cbn [app]. rewrite <- !app_assoc. reflexivity. }
  assert (link_body url = skipn 8 url) as Hlb.
  { transitivity (link_body (skipn 8 url)); [reflexivity | apply link_body_absent, Hocc]. }
  assert (before_fragment url = front) as Hbf.
  { unfold before_fragment. rewrite Hlb, Hbody. destruct fragment as [f|].
    - assert (cut (ord "#") (front ++ ord "#" :: f) = Some (front, f)) as ->; [|reflexivity].
      apply cut_Some. split; [reflexivity | exact Hf].
    - rewrite app_nil_r. apply cut_None in Hf. rewrite Hf. reflexivity. }
  assert (cut (ord "?") front
          = match query with Some q => Some (auth, q) | None => None end) as Hcut.
  { subst front. destruct query as [q|].
    - apply cut_Some. split; [reflexivity | exact Ha1].
    - rewrite app_nil_r. apply cut_None. exact Ha1. }
  split; [|split].
  - unfold authority. rewrite Hbf, Hcut. destruct query; [reflexivity|].
    subst front. apply app_nil_r.
  - unfold query_text. rewrite Hbf, Hcut. destruct query; reflexivity.
  - unfold display_name. rewrite Hlb, Hbody. destruct fragment as [f|].
    + assert (cut (ord "#") (front ++ ord "#" :: f) = Some (front, f)) as ->; [|reflexivity].
      apply cut_Some. split; [reflexivity | exact Hf].
    + rewrite app_nil_r. apply cut_None in Hf. rewrite Hf. reflexivity.
Qed.

(** X3. What a written link is decoded to. For a link
    [vless://uuid@server:port?query#fragment], query and fragment being
    optional, with no [@], [?] or [#] in the user identifier, no [?] or [#]
    in the host and in the port, no [:] in the port, no [#] in the query, no
    [vless://] after the scheme and no blank at its ends: [parse] raises
    what [int()] raises on the port text, and otherwise returns the
    dictionary of these parts, with the unquoted fragment, or [VLESS], as the
    name and the query read by [parse_qsl]. The host may hold [@] and [:]. *)
Theorem X3_parse_written_link (py : interp) (uuid server port : ustring)
    (query fragment : option ustring) :
  ~ In (ord "@") uuid -> ~ In (ord "?") uuid -> ~ In (ord "#") uuid ->
  ~ In (ord "?") server -> ~ In (ord "#") server ->
  ~ In (ord ":") port -> ~ In (ord "?") port -> ~ In (ord "#") port ->
  match query with Some q => ~ In (ord "#") q | None => True end ->
  occurs (u "vless://") (skipn 8 (vless_link uuid server port query fragment)) = false ->
  strip (vless_link uuid server port query fragment)
  = vless_link uuid server port query fragment ->
  parse py (vless_link uuid server port query fragment) =
  let* n := py_int py port in
  Ok (VDict (endpoint
               match fragment with Some f => unquote f | None => u "VLESS" end
               server n uuid
               (dict_of_pairs
                  (parse_qsl match query with Some q => q | None => [] end)))).
Proof.
  intros Hu0 Hu1 Hu2 Hs1 Hs2 Hp0 Hp1 Hp2 Hq Hocc Hstrip.
  destruct (vless_link_pieces uuid server port query fragment
              Hu1 Hu2 Hs1 Hs2 Hp1 Hp2 Hq Hocc) as (Ha & Hqt & Hn).
  rewrite (parse_authority py _ uuid server port).
  - rewrite Hstrip. unfold query_params, query_pairs. rewrite Hqt, Hn. reflexivity.
  - rewrite Hstrip. reflexivity.
  - rewrite Hstrip. exact Ha.
  - exact Hu0.
  - exact Hp0.
Qed.

Lemma X3_witness :
  parse default_interp
    (vless_link (u "id") (u "[::1]") (u "8443")
       (Some (u "network=ws&path=/a+b")) (Some (u "my%20node")))
  = Ok (VDict (endpoint (u "my node") (u "[::1]") 8443 (u "id")
                 [(u "network", u "ws"); (u "path", u "/a b")])).
Proof.
  assert (forall c s, contains c s = false -> ~ In c s) as Hn.
  { intros c s H Hin. apply contains_In in Hin. congruence. }
  pose proof (X3_parse_written_link default_interp (u "id") (u "[::1]") (u "8443")
                (Some (u "network=ws&path=/a+b")) (Some (u "my%20node"))
                (Hn (ord "@") (u "id") eq_refl) (Hn (ord "?") (u "id") eq_refl)
                (Hn (ord "#") (u "id") eq_refl) (Hn (ord "?") (u "[::1]") eq_refl)
                (Hn (ord "#") (u "[::1]") eq_refl) (Hn (ord ":") (u "8443") eq_refl)
                (Hn (ord "?") (u "8443") eq_refl) (Hn (ord "#") (u "8443") eq_refl)
                (Hn (ord "#") (u "network=ws&path=/a+b") eq_refl) eq_refl eq_refl) as H.
  vm_compute in H |- *. exact H.
Defined.

(** ** The port *)

Lemma int_text_chars (z : Z) :
  Forall (fun c => c = ord "-" \/ is_digit c = true) (int_text z).
Proof.
  unfold int_text. destruct (decimal_spec (Z.abs_N z)) as (ds & -> & _ & Hdig & _).
  assert (Forall (fun c => c = ord "-" \/ is_digit c = true) ds) as H.
  { induction Hdig; constructor; auto. }
  destruct (z <? 0)%Z; [constructor; auto | exact H].
Qed.

Lemma int_text_lacks (z : Z) (c : N) :
  c <> ord "-" -> is_digit c = false -> ~ In c (int_text z).
Proof.
  intros H1 H2 Hin. pose proof (int_text_chars z) as H.
  rewrite List.Forall_forall in H. destruct (H c Hin) as [->|Hd]; [auto | congruence].
Qed.

Lemma int_text_last (z : Z) :
  exists t d, int_text z = t ++ [d] /\ is_digit d = true.
Proof.
  unfold int_text. destruct (decimal_spec (Z.abs_N z)) as (ds & -> & Hne & Hdig & _).
  destruct (exists_last Hne) as (t & d & ->).
  assert (is_digit d = true) as Hd.
  { rewrite List.Forall_forall in Hdig. apply Hdig. apply in_or_app. right. left.
    reflexivity. }
  destruct (z <? 0)%Z; [exists (ord "-" :: t), d | exists t, d]; auto.
Qed.

Lemma is_digit_not_space (d : N) : is_digit d = true -> py_isspace d = false.
Proof.
  intros H. apply is_digit_spec in H.
  assert (d = 48 \/ d = 49 \/ d = 50 \/ d = 51 \/ d = 52 \/ d = 53 \/ d = 54
          \/ d = 55 \/ d = 56 \/ d = 57) as Hd by lia.
  repeat (destruct Hd as [->|Hd]; [reflexivity|]). subst d. reflexivity.
Qed.

(** X4. The decoder puts no bound on the port: for every integer [z] that
    [int.__repr__] writes within the digit limit, negative or beyond 65535
    as well, the link [vless://uuid@server:z] is decoded, with [z] as its
    port. *)
Theorem X4_port_is_not_bounded (py : interp) (uuid server : ustring) (z : Z) :
  int_ok py z = true ->
  ~ In (ord "@") uuid -> ~ In (ord "?") uuid -> ~ In (ord "#") uuid ->
  ~ In (ord "/") uuid ->
  ~ In (ord "?") server -> ~ In (ord "#") server -> ~ In (ord "/") server ->
  parse py (vless_link uuid server (int_text z) None None)
  = Ok (VDict (endpoint (u "VLESS") server z uuid [])).
Proof.
  intros Hz Hu0 Hu1 Hu2 Hu3 Hs1 Hs2 Hs3.
  assert (forall c, c <> ord "-" -> is_digit c = false -> ~ In c (int_text z)) as Hp.
  { intros c. apply int_text_lacks. }
  assert (strip (vless_link uuid server (int_text z) None None)
          = vless_link uuid server (int_text z) None None) as Hstrip.
  { destruct (int_text_last z) as (t & d & Ht & Hd). unfold vless_link. rewrite Ht.
    rewrite !app_nil_r. unfold strip.
    change (lstrip (u "vless://" ++ ?s)) with (u "vless://" ++ s).
    change (uuid ++ ord "@" :: server ++ ord ":" :: t ++ [d])
      with (uuid ++ (ord "@" :: server) ++ (ord ":" :: t) ++ [d]).
    rewrite !app_assoc. apply rstrip_last. apply is_digit_not_space. exact Hd. }
  assert (occurs (u "vless://")
            (skipn 8 (vless_link uuid server (int_text z) None None)) = false) as Hocc.
  { apply (occurs_lacking _ _ (ord "/")); [cbn; auto 10|].
    unfold vless_link. rewrite !app_nil_r.
    change (skipn 8 (u "vless://" ++ ?s)) with s.
    apply not_In_app; [exact Hu3|]. apply not_In_cons; [discriminate|].
    apply not_In_app; [exact Hs3|]. apply not_In_cons; [discriminate|].
    apply Hp; [discriminate | reflexivity]. }
  destruct (vless_link_pieces uuid server (int_text z) None None
              Hu1 Hu2 Hs1 Hs2 (Hp (ord "?") ltac:(discriminate) eq_refl)
              (Hp (ord "#") ltac:(discriminate) eq_refl) I Hocc) as (Ha & Hqt & Hn).
  rewrite (parse_authority py _ uuid server (int_text z)).
  - rewrite (py_int_int_text py z Hz). cbn [rbind]. rewrite Hstrip.
    unfold query_params, query_pairs. rewrite Hqt, Hn. reflexivity.
  - rewrite Hstrip. reflexivity.
  - rewrite Hstrip. exact Ha.
  - exact Hu0.
  - apply Hp; [discriminate | reflexivity].
Qed.

Lemma X4_witness :
  parse default_interp (vless_link (u "id") (u "example.com") (int_text (-70000)) None None)
  = Ok (VDict (endpoint (u "VLESS") (u "example.com") (-70000) (u "id") [])).
Proof.
  assert (forall c s, contains c s = false -> ~ In c s) as Hn.
  { intros c s H Hin. apply contains_In in Hin. congruence. }
  exact (X4_port_is_not_bounded default_interp (u "id") (u "example.com") (-70000) eq_refl
           (Hn (ord "@") (u "id") eq_refl) (Hn (ord "?") (u "id") eq_refl)
           (Hn (ord "#") (u "id") eq_refl) (Hn (ord "/") (u "id") eq_refl)
           (Hn (ord "?") (u "example.com") eq_refl) (Hn (ord "#") (u "example.com") eq_refl)
           (Hn (ord "/") (u "example.com") eq_refl)).
Defined.

(** ** The options of the query *)

Lemma param_query_option (url k default : ustring) :
  param (query_params url) k default = VStr (query_option url k default).
Proof.
  unfold param, dict_get_default, query_option. rewrite query_params_get. reflexivity.
Qed.

(** X5. The four options of a decoded link are read from the query: each is
    the last value of its name that is not empty, and the default ([none],
    the empty text, [tcp], [none]) when there is none. The first is read
    under the name [enctyption]. *)
Theorem X5_options_from_query (py : interp) (url : ustring)
    (cfg : list (ustring * value)) :
  parse py url = Ok (VDict cfg) ->
  dict_get (u "enctyption") cfg
  = Some (VStr (query_option (strip url) (u "enctyption") (u "none"))) /\
  dict_get (u "flow") cfg = Some (VStr (query_option (strip url) (u "flow") (u ""))) /\
  dict_get (u "network") cfg
  = Some (VStr (query_option (strip url) (u "network") (u "tcp"))) /\
  dict_get (u "security") cfg
  = Some (VStr (query_option (strip url) (u "security") (u "none"))).
Proof.
  intros H. apply parse_Ok_inv in H as (uuid & server & port & n & _ & _ & _ & _ & _ & ->).
  rewrite !endpoint_get. unfold base_entries, network_of, security_of.
  rewrite <- !param_query_option. unfold param. repeat split; reflexivity.
Qed.

Lemma X5_witness :
  dict_get (u "network")
    (endpoint (u "VLESS") (u "h") 1 (u "u") [(u "network", u "ws")])
  = Some (VStr (query_option (u "vless://u@h:1?network=grpc&network=ws&network=&encryption=x")
                  (u "network") (u "tcp"))) /\
  query_option (u "vless://u@h:1?network=grpc&network=ws&network=&encryption=x")
    (u "enctyption") (u "none") = u "none".
Proof.
  pose proof (X5_options_from_query default_interp
                (u "vless://u@h:1?network=grpc&network=ws&network=&encryption=x")
                (endpoint (u "VLESS") (u "h") 1 (u "u") [(u "network", u "ws")])
                eq_refl) as (_ & _ & H & _).
  split; [exact H | reflexivity].
Defined.

Lemma endpoint_params_ext (remarks server : ustring) (port : Z) (uuid : ustring)
    (params params' : list (ustring * ustring)) :
  (forall k, In k query_names -> dict_get k params = dict_get k params') ->
  endpoint remarks server port uuid params = endpoint remarks server port uuid params'.
Proof.
  intros H. unfold endpoint, param, param_or_none, dict_get_default.
  rewrite !H by (cbn; auto 20). reflexivity.
Qed.

(** X6. The decoder reads the query under fourteen names and no other: two
    links that are both decoded, with the same authority and the same name,
    and whose queries agree on these fourteen names, are decoded to the same
    dictionary. *)
Theorem X6_only_known_names_are_read (py : interp) (url url' : ustring)
    (cfg cfg' : list (ustring * value)) :
  parse py url = Ok (VDict cfg) ->
  parse py url' = Ok (VDict cfg') ->
  authority (strip url) = authority (strip url') ->
  display_name (strip url) = display_name (strip url') ->
  (forall k, In k query_names ->
     dict_get k (query_params (strip url)) = dict_get k (query_params (strip url'))) ->
  cfg = cfg'.
Proof.
  intros H H' Ha Hn Hq.
  pose proof H as H0. pose proof H' as H0'.
  apply parse_Ok_inv in H0 as (uuid & server & port & n & Hs & Hau & Hu & Hp & Hi & _).
  rewrite (parse_authority py url uuid server port Hs Hau Hu Hp), Hi in H.
  rewrite Ha in Hau.
  apply parse_Ok_inv in H0' as (_ & _ & _ & _ & Hs' & _).
  rewrite (parse_authority py url' uuid server port Hs' Hau Hu Hp), Hi in H'.
  cbn [rbind] in H, H'. injection H as <-. injection H' as <-.
  rewrite Hn. apply endpoint_params_ext. exact Hq.
Qed.

Lemma X6_witness :
  endpoint (u "VLESS") (u "h") 1 (u "u") [(u "network", u "ws")]
  = endpoint (u "VLESS") (u "h") 1 (u "u")
      [(u "type", u "grpc"); (u "network", u "ws"); (u "encryption", u "aes")].
Proof.
  apply (X6_only_known_names_are_read default_interp
           (u "vless://u@h:1?network=ws")
           (u "vless://u@h:1?type=grpc&network=ws&encryption=aes"));
    try reflexivity.
  intros k Hk. cbn in Hk.
  repeat (destruct Hk as [<-|Hk]; [reflexivity|]). contradiction.
Defined.

(** ** What [parse] returns and raises *)

Lemma unpack2_raises_ValueError {A} (l : list A) (e : exn) :
  unpack2 l = Raise e -> exists msg, e = ValueError msg.
Proof.
  destruct l as [|a [|b [|c l]]]; cbn [unpack2]; intros [= <-]; eauto.
Qed.

(** X20. [parse] ends in one of three ways: it returns [None], it returns
    a dictionary, or it raises [ValueError]. It raises nothing else,
    whatever the text. *)
Theorem X20_parse_raises_only_ValueError (py : interp) (url : ustring) :
  parse py url = Ok VNone \/
  (exists cfg, parse py url = Ok (VDict cfg)) \/
  (exists msg, parse py url = Raise (ValueError msg)).
Proof.
  destruct (startswith (u "vless://") (strip url)) eqn:E.
  - right. rewrite (parse_vless_scheme py url E).
    destruct (unpack2 (split1 (ord "@") (authority (strip url)))) as [[uuid sp]|e] eqn:E1;
      cbn [rbind].
    2:{ right. destruct (unpack2_raises_ValueError _ _ E1) as [msg ->]. eauto. }
    destruct (unpack2 (rsplit1 (ord ":") sp)) as [[server port]|e] eqn:E2; cbn [rbind].
    2:{ right. destruct (unpack2_raises_ValueError _ _ E2) as [msg ->]. eauto. }
    destruct (py_int py port) as [n|e] eqn:E3; cbn [rbind].
    + left. eauto.
    + right. destruct (py_int_raises_ValueError py port e E3) as [msg ->]. eauto.
  - left. apply parse_other_scheme. exact E.
Qed.

(** X21. The keys of a decoded dictionary, in order: the nine keys [name],
    [protocol], [serverr], [port], [uuid], [enctyption], [flow], [network]
    and [security]; then the key of the network kind when that is [tcp],
    [ws] or [grpc]; then [tls] when the security mode is [tls] or
    [reality], and [reality] after it when the mode is [reality]. There is
    no other key. *)
Theorem X21_keys_of_a_decoded_dictionary (py : interp) (url : ustring)
    (cfg : list (ustring * value)) :
  parse py url = Ok (VDict cfg) ->
  exists network security,
    dict_get (u "network") cfg = Some (VStr network) /\
    dict_get (u "security") cfg = Some (VStr security) /\
    map fst cfg =
    [ u "name"; u "protocol"; u "serverr"; u "port"; u "uuid"; u "enctyption";
      u "flow"; u "network"; u "security" ]
    ++ List.filter (ustring_eqb network) transport_kinds
    ++ (if ustring_eqb security (u "tls") then [u "tls"]
        else if ustring_eqb security (u "reality") then [u "tls"; u "reality"]
        else []).
Proof.
  intros H. apply parse_Ok_inv in H as (uuid & server & port & n & _ & _ & _ & _ & _ & ->).
  exists (network_of (query_params (strip url))), (security_of (query_params (strip url))).
  split; [apply endpoint_network|]. split; [apply endpoint_security|].
  rewrite endpoint_entries, !map_app. unfold transport_entries, security_entries.
  generalize (network_of (query_params (strip url)))
             (security_of (query_params (strip url))). intros nw sec.
  f_equal. unfold transport_kinds. cbn [List.filter].
  destruct (ustring_eqb nw (u "tcp")) eqn:Ntcp;
    destruct (ustring_eqb nw (u "ws")) eqn:Nws;
    destruct (ustring_eqb nw (u "grpc")) eqn:Ngrpc;
    destruct (ustring_eqb sec (u "tls")) eqn:Stls;
    destruct (ustring_eqb sec (u "reality")) eqn:Sreality;
    first [ reflexivity
          | exfalso;
            repeat match goal with
                   | H : ustring_eqb ?x _ = true |- _ =>
                       is_var x; apply ustring_eqb_eq in H; subst x
                   | H : ustring_eqb (u _) (u _) = _ |- _ =>
                       vm_compute in H; discriminate H
                   end ].
Qed.

Lemma X21_witness :
  map fst (endpoint (u "VLESS") (u "h") 1 (u "u")
             [(u "network", u "grpc"); (u "security", u "reality")])
  = [ u "name"; u "protocol"; u "serverr"; u "port"; u "uuid"; u "enctyption";
      u "flow"; u "network"; u "security"; u "grpc"; u "tls"; u "reality" ].
Proof.
  destruct (X21_keys_of_a_decoded_dictionary default_interp
              (u "vless://u@h:1?network=grpc&security=reality")
              (endpoint (u "VLESS") (u "h") 1 (u "u")
                 [(u "network", u "grpc"); (u "security", u "reality")]) eq_refl)
    as (nw & sec & Hn & Hs & Hk).
  injection Hn as <-. injection Hs as <-. exact Hk.
Defined.

(** * Further properties of the decoder-path builder *)

Lemma getitem_missing (cfg : list (ustring * value)) (k : ustring) :
  dict_has k cfg = false -> getitem cfg k = Raise (KeyError k).
Proof. unfold dict_has, getitem. destruct (dict_get k cfg); [discriminate | reflexivity]. Qed.

Lemma getitem_present (cfg : list (ustring * value)) (k : ustring) :
  dict_has k cfg = true -> exists v, getitem cfg k = Ok v.
Proof. unfold dict_has, getitem. destruct (dict_get k cfg); [eauto | discriminate]. Qed.

(** X7. [_build_vless] indexes six keys, [server], [port], [uuid],
    [encryption], [network] and [security], in this order: on a dictionary
    that lacks one of them it raises [KeyError] for the first it lacks,
    whatever else the dictionary holds. *)
Theorem X7_build_vless_first_missing_key (cfg : list (ustring * value)) (k : ustring) :
  first_missing cfg = Some k -> _build_vless cfg = Raise (KeyError k).
Proof.
  unfold first_missing, required_keys. cbn [List.find]. unfold _build_vless.
  repeat match goal with
         | |- (if negb (dict_has ?key cfg) then _ else _) = _ -> _ =>
             let E := fresh "E" in
             destruct (dict_has key cfg) eqn:E; cbn [negb];
             [ destruct (getitem_present cfg key E) as [? ->]; cbn [rbind]
             | intros [= <-]; rewrite (getitem_missing cfg key E); reflexivity ]
         end.
  discriminate.
Qed.

Lemma X7_witness :
  _build_vless [(u "server", VStr (u "h")); (u "port", VInt 443); (u "network", VStr (u "tcp"))]
  = Raise (KeyError (u "uuid")).
Proof.
  apply (X7_build_vless_first_missing_key
           [(u "server", VStr (u "h")); (u "port", VInt 443); (u "network", VStr (u "tcp"))]
           (u "uuid")).
  reflexivity.
Defined.

(** X8. [build_config] of the decoder path assembles an outbound for the
    protocol [vless] only: with any other value under [protocol] it raises
    [UnboundLocalError], whatever the dictionary holds besides. *)
Theorem X8_other_protocol_is_unbound (cfg : list (ustring * value)) (p : value)
    (inbound_port : Z) :
  dict_get (u "protocol") cfg = Some p ->
  eq_str p (u "vless") = false ->
  build_config cfg inbound_port = Raise UnboundLocalError.
Proof.
  intros Hp Hv. unfold build_config, getitem. rewrite Hp. cbn [rbind]. rewrite Hv.
  reflexivity.
Qed.

Lemma X8_witness :
  build_config [(u "protocol", VStr (u "vmess")); (u "server", VStr (u "h"))] 1080
  = Raise UnboundLocalError.
Proof.
  apply (X8_other_protocol_is_unbound _ (VStr (u "vmess"))); reflexivity.
Defined.

(** ** The decoder and the builder together *)

Lemma is_dict_records (server : ustring) (params : list (ustring * ustring)) :
  is_dict (tcp_record params) = true /\ is_dict (ws_record params) = true /\
  is_dict (grpc_record params) = true /\ is_dict (tls_record server params) = true /\
  is_dict (reality_record params) = true.
Proof. repeat split. Qed.

Lemma dict_get_repaired (cfg : list (ustring * value)) (s e : value) (k : ustring) :
  k <> u "server" -> k <> u "encryption" ->
  dict_get k (dict_set (u "server") s (dict_set (u "encryption") e cfg)) = dict_get k cfg.
Proof. intros H1 H2. rewrite !dict_get_set_ne by assumption. reflexivity. Qed.

Ltac other_key := intros Hk; vm_compute in Hk; discriminate Hk.

(** A decoded dictionary to which [server] and [encryption] are added is
    one [_build_vless] can read. *)
Lemma repaired_assemblable (remarks server : ustring) (port : Z) (uuid : ustring)
    (params : list (ustring * ustring)) (s e : value) :
  assemblable (dict_set (u "server") s
                 (dict_set (u "encryption") e
                    (endpoint remarks server port uuid params))) = true.
Proof.
  unfold assemblable, dict_has, record_ok.
  rewrite dict_get_set_eq.
  rewrite (dict_get_set_ne _ (u "encryption") (u "server")) by other_key.
  rewrite dict_get_set_eq.
  rewrite !dict_get_repaired by other_key.
  rewrite endpoint_port, endpoint_uuid, endpoint_network, endpoint_security.
  rewrite endpoint_tcp, endpoint_ws, endpoint_grpc, endpoint_tls, endpoint_reality.
  repeat match goal with |- context [if ?b then _ else _] => destruct b end; reflexivity.
Qed.

(** X9. The keys [server] and [encryption] are all a decoded dictionary
    lacks for the builder: once they are added, with any values,
    [_build_vless] and [build_config] return; the stream settings of the
    outbound carry the network kind and the security mode of the link, and
    for the mode [tls] their [tlsSettings] carry its ALPN list. *)
Theorem X9_decoded_with_two_keys_is_assembled (py : interp) (url : ustring)
    (cfg : list (ustring * value)) (s e : value) (inbound_port : Z) :
  parse py url = Ok (VDict cfg) ->
  exists outbound stream document,
    _build_vless (dict_set (u "server") s (dict_set (u "encryption") e cfg)) = Ok outbound /\
    build_config (dict_set (u "server") s (dict_set (u "encryption") e cfg)) inbound_port
    = Ok (VDict document) /\
    (exists direct block,
       dict_get (u "outbounds") document = Some (VList [outbound; direct; block])) /\
    stream_of outbound = Some stream /\
    dict_get (u "network") stream = dict_get (u "network") cfg /\
    dict_get (u "security") stream = dict_get (u "security") cfg /\
    (dict_get (u "security") cfg = Some (VStr (u "tls")) ->
     exists tls,
       dict_get (u "tlsSettings") stream = Some (VDict tls) /\
       dict_get (u "alpn") tls = alpn_field cfg).
Proof.
  intros H. apply parse_Ok_inv in H as (uuid & server & port & n & _ & _ & _ & _ & _ & ->).
  set (cfg := endpoint _ server n uuid _).
  set (cfg' := dict_set (u "server") s (dict_set (u "encryption") e cfg)).
  pose proof (repaired_assemblable (display_name (strip url)) server n uuid
                (query_params (strip url)) s e) as Hasm.
  fold cfg in Hasm. fold cfg' in Hasm.
  destruct (_build_vless_assemblable cfg' Hasm)
    as (address & port' & id & encryption & network & security & Ha & Hn & Hs & Hb).
  assert (dict_get (u "network") cfg' = dict_get (u "network") cfg) as Hn'
    by (apply dict_get_repaired; other_key).
  assert (dict_get (u "security") cfg' = dict_get (u "security") cfg) as Hs'
    by (apply dict_get_repaired; other_key).
  assert (dict_get (u "protocol") cfg' = Some (VStr (u "vless"))) as Hp.
  { subst cfg' cfg. rewrite dict_get_repaired by other_key. apply endpoint_protocol. }
  assert (dict_get (u "tls") cfg' = dict_get (u "tls") cfg) as Ht
    by (apply dict_get_repaired; other_key).
  eexists _, _, _. split; [exact Hb|]. split.
  { unfold build_config, getitem. rewrite Hp. cbn [rbind].
    change (eq_str (VStr (u "vless")) (u "vless")) with true. cbv iota.
    rewrite Hb. cbn [rbind]. reflexivity. }
  split; [eexists _, _; reflexivity|].
  split; [reflexivity|].
  split; [rewrite <- Hn', Hn; reflexivity|].
  split; [rewrite <- Hs', Hs; reflexivity|].
  intros Htls. rewrite <- Hs', Hs in Htls. injection Htls as ->.
  rewrite !dict_get_app.
  change (dict_get (u "tlsSettings") [(u "network", network); (u "security", VStr (u "tls"))])
    with (@None value).
  assert (dict_get (u "tlsSettings") (transport_block cfg' network) = None) as ->.
  { unfold transport_block.
    repeat match goal with |- context [if ?b then _ else _] => destruct b end; reflexivity. }
  unfold security_block. change (eq_str (VStr (u "tls")) (u "tls")) with true. cbv iota.
  eexists. split; [reflexivity|].
  change (dict_get (u "alpn") _)
    with (Some (sub_field cfg' (u "tls") (u "alpn") (VList []))).
  unfold sub_field, alpn_field. rewrite Ht. subst cfg. rewrite endpoint_tls.
  assert (security_of (query_params (strip url)) = u "tls") as ->.
  { rewrite Hs' in Hs. rewrite endpoint_security in Hs. congruence. }
  reflexivity.
Qed.

Lemma X9_witness :
  exists outbound stream document,
    _build_vless
      (dict_set (u "server") (VStr (u "h"))
         (dict_set (u "encryption") (VStr (u "none"))
            (endpoint (u "VLESS") (u "h") 1 (u "u")
               [(u "security", u "tls"); (u "alpn", u "h2,h3")]))) = Ok outbound /\
    build_config
      (dict_set (u "server") (VStr (u "h"))
         (dict_set (u "encryption") (VStr (u "none"))
            (endpoint (u "VLESS") (u "h") 1 (u "u")
               [(u "security", u "tls"); (u "alpn", u "h2,h3")]))) 1080
    = Ok (VDict document) /\
    stream_of outbound = Some stream /\
    exists tls,
      dict_get (u "tlsSettings") stream = Some (VDict tls) /\
      dict_get (u "alpn") tls = Some (VList [VStr (u "h2"); VStr (u "h3")]).
Proof.
  destruct (X9_decoded_with_two_keys_is_assembled default_interp
              (u "vless://u@h:1?security=tls&alpn=h2,h3")
              (endpoint (u "VLESS") (u "h") 1 (u "u")
                 [(u "security", u "tls"); (u "alpn", u "h2,h3")])
              (VStr (u "h")) (VStr (u "none")) 1080 eq_refl)
    as (o & st & d & Hb & Hc & _ & Hst & _ & _ & Htls).
  exists o, st, d. split; [exact Hb|]. split; [exact Hc|]. split; [exact Hst|].
  apply Htls. reflexivity.
Defined.

(** ** The security block of an assembled outbound *)

Lemma transport_block_keys (cfg : list (ustring * value)) (network : value) (k : ustring) :
  k <> u "tcpSettings" -> k <> u "wsSettings" -> k <> u "grpcSettings" ->
  dict_get k (transport_block cfg network) = None.
Proof.
  intros H1 H2 H3. unfold transport_block.
  repeat match goal with |- context [if ?b then _ else _] => destruct b end;
    cbn [dict_get];
    repeat match goal with
           | |- context [ustring_eqb ?a k] =>
               let E := fresh "E" in
               destruct (ustring_eqb a k) eqn:E;
               [apply ustring_eqb_eq in E; congruence|]
           end; reflexivity.
Qed.

(** X23. The security block of the outbound [_build_vless] assembles from
    a dictionary it can read. For the mode [tls] the stream settings have
    [tlsSettings], with the server name, the fingerprint and the ALPN list
    of the [tls] record, by default the server, [chrome] and the empty
    list, and no [realitySettings]. For the mode [reality] they have
    [realitySettings], with the server name and the fingerprint of the
    [tls] record and the public key, the short id and the spider path of
    the [reality] record, by default empty, and no [tlsSettings]: the ALPN
    list is not passed on. *)
Theorem X23_security_mapping (cfg : list (ustring * value)) (security : ustring)
    (server : value) :
  assemblable cfg = true ->
  dict_get (u "security") cfg = Some (VStr security) ->
  dict_get (u "server") cfg = Some server ->
  exists outbound stream,
    _build_vless cfg = Ok outbound /\ stream_of outbound = Some stream /\
    (security = u "tls" ->
       dict_get (u "tlsSettings") stream
       = Some (VDict
           [ (u "serverName", sub_field cfg (u "tls") (u "server_name") server);
             (u "fingerprint",
               sub_field cfg (u "tls") (u "fingerprint") (VStr (u "chrome")));
             (u "alpn", sub_field cfg (u "tls") (u "alpn") (VList [])) ]) /\
       dict_get (u "realitySettings") stream = None) /\
    (security = u "reality" ->
       dict_get (u "realitySettings") stream
       = Some (VDict
           [ (u "serverName", sub_field cfg (u "tls") (u "server_name") server);
             (u "fingerprint",
               sub_field cfg (u "tls") (u "fingerprint") (VStr (u "chrome")));
             (u "publicKey", sub_field cfg (u "reality") (u "public_key") (VStr (u "")));
             (u "shortId", sub_field cfg (u "reality") (u "short_id") (VStr (u "")));
             (u "spiderX", sub_field cfg (u "reality") (u "spider_x") (VStr (u ""))) ]) /\
       dict_get (u "tlsSettings") stream = None).
Proof.
  intros Hasm Hsec Hsrv.
  destruct (_build_vless_assemblable cfg Hasm)
    as (address & port & id & encryption & network & sec & Ha & Hn & Hs & Hb).
  rewrite Hsec in Hs. injection Hs as <-. rewrite Hsrv in Ha. injection Ha as <-.
  eexists _, _. split; [exact Hb|]. split; [reflexivity|].
  split; intros ->; rewrite !dict_get_app;
    rewrite !transport_block_keys by (intros Hk; vm_compute in Hk; discriminate Hk);
    split; reflexivity.
Qed.

Lemma X23_witness :
  exists outbound stream,
    _build_vless
      [ (u "server", VStr (u "h")); (u "port", VInt 443); (u "uuid", VStr (u "id"));
        (u "encryption", VStr (u "none")); (u "network", VStr (u "tcp"));
        (u "security", VStr (u "reality"));
        (u "tls", VDict [(u "alpn", VList [VStr (u "h2")])]);
        (u "reality", VDict [(u "public_key", VStr (u "k"))]) ]
    = Ok outbound /\ stream_of outbound = Some stream /\
    dict_get (u "realitySettings") stream
    = Some (VDict [ (u "serverName", VStr (u "h")); (u "fingerprint", VStr (u "chrome"));
                    (u "publicKey", VStr (u "k")); (u "shortId", VStr (u ""));
                    (u "spiderX", VStr (u "")) ]) /\
    dict_get (u "tlsSettings") stream = None.
Proof.
  destruct (X23_security_mapping
              [ (u "server", VStr (u "h")); (u "port", VInt 443); (u "uuid", VStr (u "id"));
                (u "encryption", VStr (u "none")); (u "network", VStr (u "tcp"));
                (u "security", VStr (u "reality"));
                (u "tls", VDict [(u "alpn", VList [VStr (u "h2")])]);
                (u "reality", VDict [(u "public_key", VStr (u "k"))]) ]
              (u "reality") (VStr (u "h")) eq_refl eq_refl eq_refl)
    as (o & st & Hb & Hst & _ & Hr).
  exists o, st. split; [exact Hb|]. split; [exact Hst|]. apply Hr. reflexivity.
Defined.

(** * Further properties of the configuration builder *)

Section BuilderMore.
Import ClientConfig.

Lemma add_inbound_step (w : world) (l : loc) (ic : InboundConfig.t)
    (d : list (ustring * value)) :
  inbounds w !! l = Some ic ->
  dicts w !! InboundConfig.settings ic = Some d ->
  add_inbound l w
  = (Ok tt,
     set_inbound_configs (inbound_configs w ++ [l])
       (set_dicts (<[InboundConfig.settings ic := dict_update d (protocol_defaults ic)]>
                     (dicts w)) w)).
Proof.
  intros Hl Hd. unfold add_inbound, bind, read_inbound. rewrite Hl.
  unfold protocol_defaults.
  destruct (InboundConfig.protocol ic);
    unfold update_dict, bind, read_dict; rewrite Hd; reflexivity.
Qed.

Lemma ref_ok_step (w : world) (s : loc) (d : list (ustring * value)) (ls : list loc)
    (l : loc) :
  ref_ok w l ->
  ref_ok (set_inbound_configs ls (set_dicts (<[s := d]> (dicts w)) w)) l.
Proof.
  intros (ic & d0 & Hl & Hd). exists ic.
  destruct (decide (InboundConfig.settings ic = s)) as [E|E].
  - exists d. split; [exact Hl|]. cbn. rewrite E. apply lookup_insert_eq.
  - exists d0. split; [exact Hl|]. cbn. rewrite lookup_insert_ne by congruence. exact Hd.
Qed.

(** What the builder's lists are after [add_inbounds] on good
    references. *)
Lemma add_inbounds_builder (ls : list loc) (w : world) :
  Forall (ref_ok w) ls ->
  exists w',
    add_inbounds ls w = (Ok tt, w') /\
    inbound_configs w' = inbound_configs w ++ ls /\
    (forall l, ref_ok w l -> ref_ok w' l) /\
    outbound_configs w' = outbound_configs w /\
    log_level w' = log_level w.
Proof.
  unfold add_inbounds. revert w. induction ls as [|l ls IH]; intros w Hall.
  - exists w. cbn [for_each]. rewrite app_nil_r. repeat split; auto.
  - pose proof (Forall_inv Hall) as (ic & d & Hl & Hd).
    set (w1 := set_inbound_configs (inbound_configs w ++ [l])
                 (set_dicts (<[InboundConfig.settings ic
                               := dict_update d (protocol_defaults ic)]> (dicts w)) w)).
    assert (Forall (ref_ok w1) ls) as Hall1.
    { apply Forall_inv_tail in Hall. rewrite List.Forall_forall in Hall |- *.
      intros l' Hl'. apply ref_ok_step. apply Hall. exact Hl'. }
    destruct (IH w1 Hall1) as (w' & Hrun & Hins & Hok & Hout & Hlv).
    exists w'. split.
    { cbn [for_each]. unfold bind. rewrite (add_inbound_step w l ic d Hl Hd). exact Hrun. }
    split; [rewrite Hins; subst w1; cbn; rewrite <- app_assoc; reflexivity|].
    split; [intros l' Hl'; apply Hok, ref_ok_step, Hl'|].
    split; [rewrite Hout | rewrite Hlv]; reflexivity.
Qed.

(** X10. [add_inbounds] on good references returns; the references are
    appended to the inbound list in the order given, one that is given twice
    being appended twice; no descriptor changes; every reference that was
    good stays good; the dictionaries that are the settings of no descriptor
    of the list are as before, and so are the outbound list, the log level,
    the path and the files. *)
Theorem X10_add_inbounds_appends_in_order (ls : list loc) (w : world) :
  Forall (ref_ok w) ls ->
  exists w',
    add_inbounds ls w = (Ok tt, w') /\
    inbound_configs w' = inbound_configs w ++ ls /\
    inbounds w' = inbounds w /\
    (forall l, ref_ok w l -> ref_ok w' l) /\
    (forall s,
       (forall l ic, In l ls -> inbounds w !! l = Some ic -> InboundConfig.settings ic <> s) ->
       dicts w' !! s = dicts w !! s) /\
    outbound_configs w' = outbound_configs w /\
    log_level w' = log_level w /\
    config_path w' = config_path w /\
    files w' = files w.
Proof.
  unfold add_inbounds. revert w. induction ls as [|l ls IH]; intros w Hall.
  - exists w. cbn [for_each]. rewrite app_nil_r. repeat split; auto.
  - pose proof (Forall_inv Hall) as (ic & d & Hl & Hd).
    set (w1 := set_inbound_configs (inbound_configs w ++ [l])
                 (set_dicts (<[InboundConfig.settings ic
                               := dict_update d (protocol_defaults ic)]> (dicts w)) w)).
    assert (Forall (ref_ok w1) ls) as Hall1.
    { apply Forall_inv_tail in Hall. rewrite List.Forall_forall in Hall |- *.
      intros l' Hl'. apply ref_ok_step. apply Hall. exact Hl'. }
    destruct (IH w1 Hall1) as (w' & Hrun & Hins & Hinb & Hok & Hd' & Hout & Hlv & Hp & Hf).
    exists w'. split.
    { cbn [for_each]. unfold bind. rewrite (add_inbound_step w l ic d Hl Hd). exact Hrun. }
    split; [rewrite Hins; subst w1; cbn; rewrite <- app_assoc; reflexivity|].
    split; [rewrite Hinb; reflexivity|].
    split; [intros l' Hl'; apply Hok, ref_ok_step, Hl'|].
    split; [|repeat split; [rewrite Hout | rewrite Hlv | rewrite Hp | rewrite Hf];
             reflexivity].
    intros s Hs. rewrite Hd'.
    + subst w1. cbn. apply lookup_insert_ne. apply (Hs l ic); [left; reflexivity | exact Hl].
    + intros l' ic' Hl' Hic'. apply (Hs l' ic'); [right; exact Hl' | exact Hic'].
Qed.

Lemma X10_witness :
  exists w',
    add_inbounds [1%positive; 1%positive] example_store = (Ok tt, w') /\
    inbound_configs w' = [1%positive; 1%positive] /\
    inbounds w' = inbounds example_store.
Proof.
  assert (ref_ok example_store 1%positive) as H.
  { eexists _, _. split; [apply lookup_singleton_eq | apply lookup_singleton_eq]. }
  assert (Forall (ref_ok example_store) [1%positive; 1%positive]) as Hall
    by (repeat constructor; exact H).
  destruct (X10_add_inbounds_appends_in_order [1%positive; 1%positive] example_store Hall)
    as (w' & Hrun & Hins & Hinb & _).
  exists w'. split; [exact Hrun|]. split; [exact Hins | exact Hinb].
Defined.

Lemma inbound_dict_entry (w : world) (l : loc) (ic : InboundConfig.t)
    (d : list (ustring * value)) :
  inbounds w !! l = Some ic -> dicts w !! InboundConfig.settings ic = Some d ->
  inbound_dict l w = (Ok (inbound_entry ic d), w).
Proof.
  intros Hl Hd. unfold inbound_dict, bind, read_inbound. rewrite Hl.
  unfold read_dict. rewrite Hd. reflexivity.
Qed.

Lemma outbound_dict_entry (w : world) (o : OutboundConfig.t) :
  outbound_dict o w = (Ok (outbound_entry o), w).
Proof.
  unfold outbound_dict, outbound_entry, ret.
  destruct (OutboundConfig.stream_settings o) as [[|kv stream]|]; reflexivity.
Qed.

Lemma collect_inbound_dict (w : world) (ls : list loc) :
  Forall (ref_ok w) ls ->
  exists ins, collect ls inbound_dict w = (Ok ins, w) /\ Forall2 (entry_of w) ls ins.
Proof.
  induction 1 as [|l ls (ic & d & Hl & Hd) _ (ins & Hrun & Hins)].
  - exists []. split; [reflexivity | constructor].
  - exists (inbound_entry ic d :: ins). split.
    + cbn [collect]. unfold bind. rewrite (inbound_dict_entry w l ic d Hl Hd), Hrun.
      reflexivity.
    + constructor; [exists ic, d; auto | exact Hins].
Qed.

Lemma collect_outbound_dict (w : world) (outs : list OutboundConfig.t) :
  collect outs outbound_dict w = (Ok (map outbound_entry outs), w).
Proof.
  induction outs as [|o outs IH]; [reflexivity|].
  cbn [collect map]. unfold bind. rewrite outbound_dict_entry, IH. reflexivity.
Qed.

Lemma build_config_document (w : world) :
  Forall (ref_ok w) (inbound_configs w) ->
  inbound_configs w <> [] -> outbound_configs w <> [] ->
  exists ins,
    build_config w
    = (Ok (document (log_level w) ins (map outbound_entry (outbound_configs w))), w) /\
    Forall2 (entry_of w) (inbound_configs w) ins.
Proof.
  intros Hok Hins Houts.
  destruct (collect_inbound_dict w (inbound_configs w) Hok) as (ins & Hrun & Hent).
  exists ins. split; [|exact Hent].
  unfold build_config, validate, bind, gets.
  destruct (inbound_configs w) as [|l ls] eqn:El; [contradiction|].
  destruct (outbound_configs w) as [|o os] eqn:Eo; [contradiction|].
  unfold ret at 1 2. cbv beta iota. rewrite Eo. cbv beta iota.
  rewrite El, Hrun. cbv beta iota. rewrite Eo, collect_outbound_dict. reflexivity.
Qed.

Lemma incomplete_builder_raises (w : world) :
  (inbound_configs w <> [] /\ outbound_configs w <> []) \/
  exists msg, build_config w = (Raise (ValueError msg), w).
Proof.
  unfold build_config, validate, bind, gets, ret, raise.
  destruct (inbound_configs w) as [|i ins]; [right; eexists; reflexivity|].
  destruct (outbound_configs w) as [|o outs] eqn:E; [right; eexists; reflexivity|].
  left. split; discriminate.
Qed.

(** X11. With good references, [build_config] returns a document exactly
    when the inbound list and the outbound list are both non-empty. The
    document has the builder's log level, one inbound entry for each
    reference of the inbound list, in the order of the list, showing the
    descriptor's port, address and protocol and what its settings dictionary
    holds at that moment, and one outbound entry for each outbound of the
    outbound list, in order. *)
Theorem X11_build_config_lists_every_descriptor (w : world) :
  Forall (ref_ok w) (inbound_configs w) ->
  ((exists d, fst (build_config w) = Ok d)
   <-> inbound_configs w <> [] /\ outbound_configs w <> []) /\
  (forall d, fst (build_config w) = Ok d ->
     exists ins,
       d = document (log_level w) ins (map outbound_entry (outbound_configs w)) /\
       Forall2 (entry_of w) (inbound_configs w) ins).
Proof.
  intros Hok.
  assert (forall d, fst (build_config w) = Ok d ->
            inbound_configs w <> [] /\ outbound_configs w <> []) as Hne.
  { intros d Hd.
    destruct (incomplete_builder_raises w) as [H|(msg & H)]; [exact H|].
    rewrite H in Hd. discriminate Hd. }
  split; [split|].
  - intros [d Hd]. apply (Hne d Hd).
  - intros [H1 H2]. destruct (build_config_document w Hok H1 H2) as (ins & Hrun & _).
    rewrite Hrun. eexists. reflexivity.
  - intros d Hd. destruct (Hne d Hd) as [H1 H2].
    destruct (build_config_document w Hok H1 H2) as (ins & Hrun & Hent).
    rewrite Hrun in Hd. injection Hd as <-. exists ins. auto.
Qed.

Lemma X11_witness :
  (exists d, fst (build_config example_world) = Ok d)
  <-> inbound_configs example_world <> [] /\ outbound_configs example_world <> [].
Proof.
  apply (X11_build_config_lists_every_descriptor example_world).
  repeat constructor. eexists _, _. split; [apply lookup_singleton_eq|].
  apply lookup_insert_eq.
Defined.

Lemma dict_set_same {V} (k : ustring) (v : V) (d : list (ustring * V)) :
  dict_get k d = Some v -> dict_set k v d = d.
Proof.
  induction d as [|[k' v'] d IH]; [discriminate|].
  cbn [dict_get dict_set]. destruct (ustring_eqb k' k).
  - intros [= ->]. reflexivity.
  - intros H. rewrite (IH H). reflexivity.
Qed.

Lemma dict_update_fixed {V} (pairs d : list (ustring * V)) :
  (forall k v, In (k, v) pairs -> dict_get k d = Some v) -> dict_update d pairs = d.
Proof.
  induction pairs as [|[k v] pairs IH]; intros H; [reflexivity|].
  rewrite dict_update_cons, dict_set_same by (apply H; left; reflexivity).
  apply IH. intros k' v' Hin. apply H. right. exact Hin.
Qed.

Lemma protocol_defaults_get (ic : InboundConfig.t) (d : list (ustring * value))
    (k : ustring) (v : value) :
  In (k, v) (protocol_defaults ic) ->
  dict_get k (dict_update d (protocol_defaults ic)) = Some v.
Proof.
  intros Hin. unfold protocol_defaults in *.
  destruct (InboundConfig.protocol ic); cbn [In] in Hin;
    rewrite !dict_update_cons;
    repeat (destruct Hin as [[= <- <-]|Hin]; [|]); try contradiction;
    cbn [dict_update fold_left fst snd];
    rewrite ?dict_get_set_eq; try reflexivity;
    repeat (rewrite dict_get_set_ne by (vm_compute; discriminate));
    rewrite ?dict_get_set_eq; reflexivity.
Qed.

(** X12. Registering one descriptor twice: both calls return, the second
    leaves every dictionary as the first left it, and the inbound list ends
    with the reference twice. *)
Theorem X12_add_inbound_twice (w : world) (l : loc) (ic : InboundConfig.t)
    (d : list (ustring * value)) :
  inbounds w !! l = Some ic ->
  dicts w !! InboundConfig.settings ic = Some d ->
  exists w1 w2,
    add_inbound l w = (Ok tt, w1) /\ add_inbound l w1 = (Ok tt, w2) /\
    dicts w2 = dicts w1 /\
    inbound_configs w2 = inbound_configs w ++ [l; l].
Proof.
  intros Hl Hd.
  set (w1 := set_inbound_configs (inbound_configs w ++ [l])
               (set_dicts (<[InboundConfig.settings ic
                             := dict_update d (protocol_defaults ic)]> (dicts w)) w)).
  assert (dicts w1 !! InboundConfig.settings ic
          = Some (dict_update d (protocol_defaults ic))) as Hd1
    by (cbn; apply lookup_insert_eq).
  exists w1. eexists. split; [apply (add_inbound_step w l ic d Hl Hd)|].
  split; [apply (add_inbound_step w1 l ic (dict_update d (protocol_defaults ic)) Hl Hd1)|].
  split.
  - cbn. rewrite dict_update_fixed by apply protocol_defaults_get.
    apply insert_insert_eq.
  - cbn. rewrite <- app_assoc. reflexivity.
Qed.

Lemma X12_witness :
  exists w1 w2,
    add_inbound 1%positive example_store = (Ok tt, w1) /\
    add_inbound 1%positive w1 = (Ok tt, w2) /\
    dicts w2 = dicts w1 /\
    inbound_configs w2 = [1%positive; 1%positive].
Proof.
  apply (X12_add_inbound_twice example_store 1%positive
           (InboundConfig.mk 1080 SOCKS (u "127.0.0.1") 2%positive) []);
    apply lookup_singleton_eq.
Defined.

(** X13. Two descriptors that share one settings dictionary: when both
    are registered, the dictionary holds the settings of the first protocol
    and then those of the second, and the entries [build_config] makes for
    the two descriptors both show this one content. *)
Theorem X13_shared_settings (w : world) (l1 l2 : loc) (ic1 ic2 : InboundConfig.t)
    (d : list (ustring * value)) :
  inbounds w !! l1 = Some ic1 -> inbounds w !! l2 = Some ic2 ->
  InboundConfig.settings ic2 = InboundConfig.settings ic1 ->
  dicts w !! InboundConfig.settings ic1 = Some d ->
  exists w',
    add_inbounds [l1; l2] w = (Ok tt, w') /\
    inbound_dict l1 w'
    = (Ok (inbound_entry ic1
             (dict_update (dict_update d (protocol_defaults ic1)) (protocol_defaults ic2))),
       w') /\
    inbound_dict l2 w'
    = (Ok (inbound_entry ic2
             (dict_update (dict_update d (protocol_defaults ic1)) (protocol_defaults ic2))),
       w').
Proof.
  intros H1 H2 Hs Hd. eexists. split.
  { unfold add_inbounds. cbn [for_each]. unfold bind at 1.
    rewrite (add_inbound_step w l1 ic1 d H1 Hd). unfold bind.
    rewrite (add_inbound_step
               (set_inbound_configs (inbound_configs w ++ [l1])
                  (set_dicts (<[InboundConfig.settings ic1
                                := dict_update d (protocol_defaults ic1)]> (dicts w)) w))
               l2 ic2 (dict_update d (protocol_defaults ic1)) H2).
    - reflexivity.
    - cbn. rewrite Hs. apply lookup_insert_eq. }
  split; apply inbound_dict_entry; cbn; try assumption;
    rewrite ?Hs; apply lookup_insert_eq.
Qed.

Lemma X13_witness :
  exists w',
    add_inbounds [1%positive; 3%positive]
      (mkWorld {[ 2%positive := [] ]}
         (<[ 3%positive := InboundConfig.mk 8080 HTTP (u "127.0.0.1") 2%positive ]>
            {[ 1%positive := InboundConfig.mk 1080 SOCKS (u "127.0.0.1") 2%positive ]})
         (u "config.json") [] [] WARNING ∅) = (Ok tt, w') /\
    inbound_dict 1%positive w'
    = (Ok (inbound_entry (InboundConfig.mk 1080 SOCKS (u "127.0.0.1") 2%positive)
             [ (u "auth", VStr (u "noauth")); (u "udp", VBool true);
               (u "ip", VStr (u "127.0.0.1")); (u "timeout", VInt 0);
               (u "allowTransparent", VBool false) ]), w').
Proof.
  destruct (X13_shared_settings
              (mkWorld {[ 2%positive := [] ]}
                 (<[ 3%positive := InboundConfig.mk 8080 HTTP (u "127.0.0.1") 2%positive ]>
                    {[ 1%positive := InboundConfig.mk 1080 SOCKS (u "127.0.0.1") 2%positive ]})
                 (u "config.json") [] [] WARNING ∅)
              1%positive 3%positive
              (InboundConfig.mk 1080 SOCKS (u "127.0.0.1") 2%positive)
              (InboundConfig.mk 8080 HTTP (u "127.0.0.1") 2%positive) [])
    as (w' & Hrun & Hfirst & _).
  - cbn. rewrite lookup_insert_ne by discriminate. apply lookup_singleton_eq.
  - cbn. apply lookup_insert_eq.
  - reflexivity.
  - apply lookup_singleton_eq.
  - exists w'. split; [exact Hrun | exact Hfirst].
Defined.

Lemma ref_ok_same_store (w w' : world) (l : loc) :
  inbounds w' = inbounds w -> dicts w' = dicts w -> ref_ok w l -> ref_ok w' l.
Proof. intros Hi Hd (ic & d & H1 & H2). exists ic, d. rewrite Hi, Hd. auto. Qed.

(** X14. A builder made from a store, given good references with
    [add_inbounds], at least one, and an outbound with [add_vless_outbound]:
    both calls return whatever the port is, and [build_config] returns, with
    the log level [warning], one inbound entry for each reference and one
    outbound entry. That entry has [streamSettings] exactly when the
    security argument is [tls], and gives the security argument as the
    user's [encryption]. *)
Theorem X14_builder_builds (w0 : world) (path : ustring) (ls : list loc)
    (address : ustring) (port : Z) (uuid flow security : ustring) :
  Forall (ref_ok w0) ls -> ls <> [] ->
  exists w ins,
    (let! _ := add_inbounds ls in add_vless_outbound address port uuid flow security)
      (__init__ path w0) = (Ok tt, w) /\
    build_config w
    = (Ok (document WARNING ins
             [outbound_entry (vless_outbound address port uuid flow security)]), w) /\
    Forall2 (entry_of w) ls ins /\
    outbound_entry (vless_outbound address port uuid flow security)
    = VDict
        ([ (u "protocol", VStr (u "vless"));
           (u "settings",
             VDict [ (u "vnext",
               VList [ VDict [ (u "address", VStr address);
                               (u "port", VInt port);
                               (u "users",
                                 VList [ VDict [ (u "id", VStr uuid);
                                                 (u "flow", VStr flow);
                                                 (u "encryption", VStr security) ] ]) ] ]) ]) ]
         ++ if ustring_eqb security (u "tls") then
              [ (u "streamSettings",
                  VDict [ (u "network", VStr (u "tcp"));
                          (u "security", VStr (u "tls"));
                          (u "tlsSettings",
                            VDict [ (u "allowInsecure", VBool false);
                                    (u "serverName", VStr address) ]) ]) ]
            else []).
Proof.
  intros Hok Hne.
  assert (Forall (ref_ok (__init__ path w0)) ls) as Hok0.
  { rewrite List.Forall_forall in Hok |- *. intros l Hl.
    apply (ref_ok_same_store w0); [reflexivity | reflexivity | apply Hok, Hl]. }
  destruct (add_inbounds_builder ls (__init__ path w0) Hok0)
    as (w1 & Hrun & Hins & Hkeep & Hout & Hlv).
  set (o := vless_outbound address port uuid flow security).
  set (w := set_outbound_configs (outbound_configs w1 ++ [o]) w1).
  assert (add_vless_outbound address port uuid flow security w1 = (Ok tt, w)) as Hadd.
  { unfold add_vless_outbound, modify. subst w o. unfold vless_outbound.
    destruct (ustring_eqb security (u "tls")); reflexivity. }
  assert (Forall (ref_ok w) (inbound_configs w)) as Hokw.
  { subst w. cbn [inbound_configs set_outbound_configs]. rewrite Hins.
    cbn [inbound_configs __init__ app].
    rewrite List.Forall_forall in Hok0 |- *. intros l Hl.
    apply (ref_ok_same_store w1); [reflexivity | reflexivity | apply Hkeep, Hok0, Hl]. }
  destruct (build_config_document w Hokw) as (ins & Hb & Hent).
  { subst w. cbn. rewrite Hins. cbn. exact Hne. }
  { subst w. cbn. destruct (outbound_configs w1); discriminate. }
  exists w, ins. split; [unfold bind; rewrite Hrun; exact Hadd|]. split; [|split].
  - rewrite Hb. subst w. cbn [log_level outbound_configs set_outbound_configs].
    rewrite Hlv, Hout. reflexivity.
  - subst w. cbn [inbound_configs set_outbound_configs] in Hent. rewrite Hins in Hent.
    exact Hent.
  - subst o. unfold outbound_entry, vless_outbound.
    destruct (ustring_eqb security (u "tls")); reflexivity.
Qed.

Lemma X14_witness :
  exists w ins,
    (let! _ := add_inbounds [1%positive] in
     add_vless_outbound (u "example.com") 70000 (u "id") (u "") (u "reality"))
      (__init__ (u "config.json") example_store) = (Ok tt, w) /\
    build_config w
    = (Ok (document WARNING ins
             [outbound_entry
                (vless_outbound (u "example.com") 70000 (u "id") (u "") (u "reality"))]), w) /\
    dict_has (u "streamSettings")
      match outbound_entry
              (vless_outbound (u "example.com") 70000 (u "id") (u "") (u "reality")) with
      | VDict o => o
      | _ => []
      end = false.
Proof.
  assert (Forall (ref_ok example_store) [1%positive]) as Hall.
  { repeat constructor. eexists _, _. split; apply lookup_singleton_eq. }
  destruct (X14_builder_builds example_store (u "config.json") [1%positive]
              (u "example.com") 70000 (u "id") (u "") (u "reality") Hall)
    as (w & ins & Hrun & Hb & _ & _); [discriminate|].
  exists w, ins. split; [exact Hrun|]. split; [exact Hb | reflexivity].
Defined.
End BuilderMore.

(** * Further properties of saving and loading *)

Section SaveLoadMore.
Import ClientConfig.

(** X15. [set_log_level] takes a level or its text: the five texts
    [debug], [info], [warning], [error] and [critical], in lower case, are
    taken like the level they name, which becomes the builder's level and
    nothing else changes; any other text raises [ValueError] and leaves the
    builder as it was. *)
Theorem X15_set_log_level_texts (w : world) :
  (forall lv,
     set_log_level (inr (LogLevel_value lv)) w = set_log_level (inl lv) w /\
     set_log_level (inl lv) w = (Ok tt, set_log_level_field lv w)) /\
  (forall s, (forall lv, s <> LogLevel_value lv) ->
     exists msg, set_log_level (inr s) w = (Raise (ValueError msg), w)) /\
  (exists msg, set_log_level (inr (u "WARNING")) w = (Raise (ValueError msg), w)).
Proof.
  split; [|split].
  - intros lv. split; destruct lv; reflexivity.
  - intros s Hs. unfold set_log_level, LogLevel_of_value.
    destruct (ustring_eqb s (u "debug")) eqn:E1;
      [apply ustring_eqb_eq in E1; destruct (Hs DEBUG E1)|].
    destruct (ustring_eqb s (u "info")) eqn:E2;
      [apply ustring_eqb_eq in E2; destruct (Hs INFO E2)|].
    destruct (ustring_eqb s (u "warning")) eqn:E3;
      [apply ustring_eqb_eq in E3; destruct (Hs WARNING E3)|].
    destruct (ustring_eqb s (u "error")) eqn:E4;
      [apply ustring_eqb_eq in E4; destruct (Hs ERROR E4)|].
    destruct (ustring_eqb s (u "critical")) eqn:E5;
      [apply ustring_eqb_eq in E5; destruct (Hs CRITICAL E5)|].
    eexists. reflexivity.
  - eexists. reflexivity.
Qed.

(** X16. When [build_config] raises, [save] raises the same exception
    before it opens the file: the files and the builder are as they were. *)
Theorem X16_save_raises_before_opening (py : interp) (w : world) (e : exn) :
  fst (build_config w) = Raise e -> save py w = (Raise e, w).
Proof.
  intros H. pose proof (build_config_reads w) as Hr.
  destruct (build_config w) as [r w1] eqn:Hb. cbn [fst snd] in H, Hr. subst r w1.
  unfold save, bind. rewrite Hb. reflexivity.
Qed.

Lemma X16_witness :
  save default_interp (__init__ (u "config.json") example_store)
  = (Raise (ValueError "Inbound configuration is not set"),
     __init__ (u "config.json") example_store).
Proof.
  apply (X16_save_raises_before_opening default_interp
           (__init__ (u "config.json") example_store)).
  reflexivity.
Defined.

Lemma save_run (py : interp) (w : world) (d : value) :
  fst (build_config w) = Ok d -> value_ok py d = true ->
  save py w = (Ok tt, set_files (<[config_path w := json_text d 0]> (files w)) w).
Proof.
  intros Hd Hok. pose proof (build_config_reads w) as Hr.
  destruct (build_config w) as [r w1] eqn:Hb. cbn [fst snd] in Hd, Hr. subst r w1.
  unfold save, bind. rewrite Hb. unfold gets, write_file, modify.
  rewrite (write_chunks_json_text py d Hok). cbn [config_path set_files files].
  unfold ret. f_equal. unfold set_files. cbn. f_equal.
  apply insert_insert_eq.
Qed.

Lemma load_reads (py : interp) : reads (load py).
Proof.
  intros w. unfold load, bind, gets. destruct (files w !! config_path w); reflexivity.
Qed.



Lemma value_ok_inbound_entry (py : interp) (ic : InboundConfig.t)
    (d : list (ustring * value)) :
  int_ok py (InboundConfig.port ic) = true ->
  str_ok (InboundConfig.listen ic) = true ->
  value_ok py (VDict d) = true ->
  value_ok py (inbound_entry ic d) = true.
Proof.
  intros Hp Hl Hd. unfold inbound_entry.
  change (value_ok py (VDict ?x))
    with (forallb (fun kv => str_ok kv.1 && value_ok py kv.2) x && unique_keys (map fst x)).
  cbn [forallb map fst snd].
  change (value_ok py (VInt ?z)) with (int_ok py z).
  change (value_ok py (VStr ?s)) with (str_ok s).
  rewrite Hp, Hl, Hd. destruct (InboundConfig.protocol ic); reflexivity.
Qed.

Lemma value_ok_outbound_entry (py : interp) (o : OutboundConfig.t) :
  outbound_ok py o = true -> value_ok py (outbound_entry o) = true.
Proof.
  unfold outbound_ok, outbound_entry. intros H. apply andb_true_iff in H as [Hs Ht].
  destruct (OutboundConfig.protocol o).
  destruct (OutboundConfig.stream_settings o) as [[|kv stream]|].
  - change (value_ok py (VDict ?x))
      with (forallb (fun kv => str_ok kv.1 && value_ok py kv.2) x
            && unique_keys (map fst x)) at 1.
    cbn [app forallb map fst snd]. rewrite Hs. reflexivity.
  - change (value_ok py (VDict ?x))
      with (forallb (fun kv => str_ok kv.1 && value_ok py kv.2) x
            && unique_keys (map fst x)) at 1.
    cbn [app forallb map fst snd]. rewrite Hs, Ht. reflexivity.
  - change (value_ok py (VDict ?x))
      with (forallb (fun kv => str_ok kv.1 && value_ok py kv.2) x
            && unique_keys (map fst x)) at 1.
    cbn [app forallb map fst snd]. rewrite Hs. reflexivity.
Qed.

Lemma value_ok_document (py : interp) (level : LogLevel) (ins outs : list value) :
  forallb (value_ok py) ins = true -> forallb (value_ok py) outs = true ->
  value_ok py (document level ins outs) = true.
Proof.
  intros Hi Ho. unfold document.
  change (value_ok py (VDict ?x))
    with (forallb (fun kv => str_ok kv.1 && value_ok py kv.2) x
          && unique_keys (map fst x)) at 1.
  cbn [forallb map fst snd].
  change (value_ok py (VList ins)) with (forallb (value_ok py) ins).
  change (value_ok py (VList outs)) with (forallb (value_ok py) outs).
  rewrite Hi, Ho. destruct level; reflexivity.
Qed.



(** ** The text written is ASCII *)

Lemma hex_digit_ascii (n : N) : hex_digit (n mod 16) < 128.
Proof.
  unfold hex_digit. pose proof (N.mod_upper_bound n 16 ltac:(discriminate)).
  destruct (N.ltb_spec (n mod 16) 10); lia.
Qed.

Lemma u_escape_ascii (n : N) : Forall (fun c => c < 128) (u_escape n).
Proof.
  unfold u_escape. repeat constructor; try apply hex_digit_ascii.
Qed.

Lemma escape_char_ascii (c : N) : Forall (fun c => c < 128) (escape_char c).
Proof.
  unfold escape_char.
  repeat match goal with
         | |- context [if ?a =? ?b then _ else _] => destruct (a =? b)
         end; try (repeat constructor; fail).
  destruct ((32 <=? c) && (c <=? 126)) eqn:E.
  - apply andb_true_iff in E as [_ E]. apply N.leb_le in E. repeat constructor. lia.
  - destruct (c <? 0x10000); [apply u_escape_ascii|].
    apply Forall_app. split; apply u_escape_ascii.
Qed.

Lemma encode_basestring_ascii_ascii (s : ustring) :
  Forall (fun c => c < 128) (encode_basestring_ascii s).
Proof.
  unfold encode_basestring_ascii. constructor; [reflexivity|].
  apply Forall_app. split; [|repeat constructor].
  induction s as [|c s IH]; [constructor|].
  cbn [flat_map]. apply Forall_app. split; [apply escape_char_ascii | exact IH].
Qed.

Lemma int_text_ascii (z : Z) : Forall (fun c => c < 128) (int_text z).
Proof.
  pose proof (int_text_chars z) as H. induction H as [|c l [->|Hc] _ IH];
    constructor; try assumption; [reflexivity|].
  apply is_digit_spec in Hc. lia.
Qed.

Lemma newline_indent_ascii (level : nat) : Forall (fun c => c < 128) (newline_indent level).
Proof.
  unfold newline_indent. constructor; [reflexivity|].
  induction (4 * level)%nat as [|n IH]; constructor; [reflexivity | exact IH].
Qed.

Lemma items_text_ascii (level : nat) (separator : ustring) (l : list value) :
  Forall (fun x => forall level, Forall (fun c => c < 128) (json_text x level)) l ->
  Forall (fun c => c < 128) separator ->
  forall first,
    Forall (fun c => c < 128) (items_text (fun y => json_text y level) separator first l).
Proof.
  intros Hl Hsep. induction Hl as [|y l Hy _ IH]; intros first; [constructor|].
  cbn [items_text]. apply Forall_app. split; [destruct first; [constructor | exact Hsep]|].
  apply Forall_app. split; [apply Hy | apply IH].
Qed.

Lemma pairs_text_ascii (level : nat) (separator : ustring) (d : list (ustring * value)) :
  Forall (fun kv => forall level, Forall (fun c => c < 128) (json_text kv.2 level)) d ->
  Forall (fun c => c < 128) separator ->
  forall first,
    Forall (fun c => c < 128) (pairs_text (fun y => json_text y level) separator first d).
Proof.
  intros Hd Hsep. induction Hd as [|[k y] d Hy _ IH]; intros first; [constructor|].
  cbn [pairs_text]. apply Forall_app. split; [destruct first; [constructor | exact Hsep]|].
  apply Forall_app. split; [apply encode_basestring_ascii_ascii|].
  apply Forall_app. split; [repeat constructor|].
  apply Forall_app. split; [apply Hy | apply IH].
Qed.

Lemma json_text_ascii (v : value) :
  forall level, Forall (fun c => c < 128) (json_text v level).
Proof.
  induction v as [| b | z | s | l IH | d IH] using value_ind2; intros level.
  - repeat constructor.
  - destruct b; repeat constructor.
  - apply int_text_ascii.
  - apply encode_basestring_ascii_ascii.
  - destruct l as [|x l]; [repeat constructor|].
    cbn [json_text]. constructor; [reflexivity|].
    apply Forall_app. split; [apply newline_indent_ascii|].
    apply Forall_app. split;
      [|apply Forall_app; split; [apply newline_indent_ascii | repeat constructor]].
    apply items_text_ascii; [exact IH|].
    constructor; [reflexivity | apply newline_indent_ascii].
  - destruct d as [|kv d]; [repeat constructor|].
    cbn [json_text]. constructor; [reflexivity|].
    apply Forall_app. split; [apply newline_indent_ascii|].
    apply Forall_app. split;
      [|apply Forall_app; split; [apply newline_indent_ascii | repeat constructor]].
    apply pairs_text_ascii; [exact IH|].
    constructor; [reflexivity | apply newline_indent_ascii].
Qed.


End SaveLoadMore.

(** * A saved file with blanks around the text *)

Lemma json_ws_cases (c : N) : json_ws c = true -> c = 32 \/ c = 9 \/ c = 10 \/ c = 13.
Proof.
  unfold json_ws. intros H.
  repeat (apply orb_true_iff in H as [H|H]); apply N.eqb_eq in H; auto.
Qed.

Lemma blank_end_not_digit (rest : ustring) :
  blank_end rest = true ->
  match rest with c :: _ => is_digit c = false | [] => True end.
Proof.
  destruct rest as [|c rest]; [auto|]. cbn [blank_end]. intros H.
  destruct (json_ws_cases c H) as [-> | [-> | [-> | ->]]]; reflexivity.
Qed.

Lemma blank_end_float_tail (rest : ustring) :
  blank_end rest = true -> float_tail rest = false.
Proof.
  destruct rest as [|c [|d rest]]; try reflexivity. cbn [blank_end]. intros H.
  destruct (json_ws_cases c H) as [-> | [-> | [-> | ->]]]; reflexivity.
Qed.

Lemma match_number_int_text_blank (py : interp) (z : Z) (rest : ustring) :
  int_ok py z = true -> blank_end rest = true ->
  match_number py (int_text z ++ rest) = Ok (VInt z, rest).
Proof.
  intros Hok Hrest. pose proof (py_int_int_text py z Hok) as Hint.
  unfold int_text in *.
  destruct (decimal_spec (Z.abs_N z)) as (ds & Hds & Hne & Hdig & _ & Hhd).
  rewrite Hds in *. destruct ds as [|d ds']; [contradiction|].
  pose proof (Forall_inv Hdig) as Hd. pose proof (Forall_inv_tail Hdig) as Hds'.
  pose proof (digit_is_not d (ord "-") Hd eq_refl) as Hminus.
  unfold match_number.
  assert (forall sign,
    (let '(digits, rest0) :=
       if d =? ord "0" then ([d], ds' ++ rest)
       else if is_digit d then let (ds0, rest0) := span_digits (ds' ++ rest) in (d :: ds0, rest0)
       else ([], d :: ds' ++ rest) in
     match digits with
     | [] => Raise JSONDecodeError
     | _ :: _ =>
         if float_tail rest0 then Raise float_not_modelled
         else let* z0 := py_int py (sign ++ digits) in Ok (VInt z0, rest0)
     end) = let* z0 := py_int py (sign ++ d :: ds') in Ok (VInt z0, rest)) as Hbody.
  { intros sign. destruct (N.eqb_spec d (ord "0")) as [E|_].
    - destruct (Hhd E) as [Heq _]. injection Heq as Heq. subst ds'. cbn [app].
      rewrite blank_end_float_tail by exact Hrest. reflexivity.
    - rewrite Hd.
      rewrite (span_digits_digits ds' rest Hds' (blank_end_not_digit rest Hrest)).
      rewrite blank_end_float_tail by exact Hrest. reflexivity. }
  destruct (z <? 0)%Z.
  - cbn [app]. change (ord "-" =? ord "-") with true. cbv iota.
    rewrite (Hbody [ord "-"]). cbn [app]. rewrite Hint. reflexivity.
  - cbn [app]. rewrite Hminus. rewrite (Hbody []). cbn [app]. rewrite Hint. reflexivity.
Qed.

(** [scan_once] on the text of an object that blanks follow. *)
Lemma scan_once_json_text_blank (py : interp) (v : value) (level : nat)
    (rest : ustring) (fuel : nat) :
  value_ok py v = true -> (size v <= fuel)%nat -> blank_end rest = true ->
  scan_once py fuel (json_text v level ++ rest) = Ok (v, rest).
Proof.
  intros Hok Hfuel Hrest.
  destruct fuel as [|fuel']; [pose proof (size_pos v); lia|].
  destruct v as [| b | z | s | l | d].
  - reflexivity.
  - destruct b; reflexivity.
  - cbn [json_text]. rewrite scan_once_int_text.
    apply match_number_int_text_blank; assumption.
  - cbn [json_text]. rewrite encode_basestring_ascii_eq, scan_once_eq.
    change (34 =? 34) with true. cbv iota.
    rewrite scanstring_encoded by exact Hok. reflexivity.
  - destruct l as [|x l]; [reflexivity|].
    cbn [json_text items_text]. cbn [app]. rewrite scan_once_eq.
    change (ord "[" =? 34) with false. change (ord "[" =? ord "{") with false.
    change (ord "[" =? ord "[") with true. cbv iota.
    rewrite <- !app_assoc. rewrite skip_ws_newline_indent.
    rewrite skip_ws_opens by apply json_text_opens.
    match goal with
    | |- match ?s with _ => _ end = _ =>
        destruct (opens_value_inv s (json_text_opens _ _ _)) as (c & t & Hs & Hc & _);
        rewrite Hs, Hc, <- Hs
    end.
    cbn [size] in Hfuel. pose proof (list_sum_ge_length (x :: l)) as Hlen.
    cbn [length] in Hlen.
    apply (parse_elements_text py fuel' level rest l x fuel' []); [lia|].
    cbn [value_ok] in Hok. rewrite forallb_forall in Hok.
    rewrite List.Forall_forall. intros y Hy rest' Hrest'.
    apply scan_once_json_text; [apply Hok; exact Hy | | exact Hrest'].
    pose proof (size_In y (x :: l) Hy). lia.
  - destruct d as [|[k x] d]; [reflexivity|].
    cbn [json_text pairs_text]. cbn [app]. rewrite scan_once_eq.
    change (ord "{" =? 34) with false. change (ord "{" =? ord "{") with true. cbv iota.
    rewrite <- !app_assoc. rewrite skip_ws_newline_indent.
    rewrite encode_basestring_ascii_eq, skip_ws_quote.
    change (34 =? ord "}") with false. cbv iota.
    rewrite <- encode_basestring_ascii_eq.
    cbn [size] in Hfuel. pose proof (list_sum_ge_length_dict ((k, x) :: d)) as Hlen.
    cbn [length] in Hlen.
    cbn [value_ok] in Hok. apply andb_true_iff in Hok as [Hok Hkeys].
    rewrite forallb_forall in Hok.
    apply (parse_members_text py fuel' level rest d k x fuel' []); [lia| | |].
    + rewrite List.Forall_forall. intros kv Hkv.
      specialize (Hok kv Hkv). apply andb_true_iff in Hok as [Hok _]. exact Hok.
    + rewrite List.Forall_forall. intros kv Hkv rest' Hrest'.
      specialize (Hok kv Hkv). apply andb_true_iff in Hok as [_ Hok].
      apply scan_once_json_text; [exact Hok | | exact Hrest'].
      pose proof (size_In_dict kv ((k, x) :: d) Hkv). lia.
    + apply unique_keys_NoDup in Hkeys. exact Hkeys.
Qed.

Lemma skip_ws_blanks (ws s : ustring) :
  forallb json_ws ws = true -> skip_ws (ws ++ s) = skip_ws s.
Proof.
  induction ws as [|c ws IH]; intros H; [reflexivity|].
  cbn [forallb] in H. apply andb_true_iff in H as [Hc Hws].
  cbn [app skip_ws]. rewrite Hc. apply IH. exact Hws.
Qed.

Lemma startswith_bom_ascii (s : ustring) :
  match s with c :: _ => c < 128 | [] => True end -> startswith [0xfeff] s = false.
Proof.
  destruct s as [|c s]; [reflexivity|]. intros H. cbn [startswith].
  destruct (N.eqb_spec 0xfeff c); [lia | reflexivity].
Qed.

Lemma json_loads_json_text_blanks (py : interp) (v : value) (before after : ustring) :
  value_ok py v = true ->
  forallb json_ws before = true -> forallb json_ws after = true ->
  json_loads py (before ++ json_text v 0 ++ after) = Ok v.
Proof.
  intros Hok Hb Ha. unfold json_loads.
  rewrite startswith_bom_ascii.
  2:{ destruct before as [|c before].
      - cbn [app]. pose proof (json_text_ascii v 0) as Hascii.
        pose proof (size_le_length v 0) as Hlen. pose proof (size_pos v).
        destruct (json_text v 0) as [|c t]; [cbn [length] in Hlen; lia|].
        cbn [app]. exact (Forall_inv Hascii).
      - cbn [forallb] in Hb. apply andb_true_iff in Hb as [Hc _]. cbn [app].
        destruct (json_ws_cases c Hc) as [-> | [-> | [-> | ->]]]; reflexivity. }
  rewrite skip_ws_blanks by exact Hb.
  rewrite skip_ws_opens by apply json_text_opens.
  rewrite scan_once_json_text_blank.
  - cbn [rbind]. rewrite <- (app_nil_r after), skip_ws_blanks by exact Ha. reflexivity.
  - exact Hok.
  - pose proof (size_le_length v 0). rewrite !length_app. lia.
  - destruct after as [|c after]; [reflexivity|]. cbn [forallb] in Ha.
    apply andb_true_iff in Ha as [Hc _]. exact Hc.
Qed.

Section LoadBlanks.
Import ClientConfig.


End LoadBlanks.
